(** * SmartAssistant tool servers: session tokens, scoped context, OAuth refresh

    A shallow embedding of the authentication and credential-relay core of
    the SmartAssistant repository:

    - the token store ([getTokens], [upsertTokens], [deleteTokens]),
    - the QuickBooks MCP server in its two revisions (numeric and string
      user ids): [requireSession], [refreshWithQbo], [qbRequest], and the
      [/sse] and [/messages] routes,
    - the Housecall Pro MCP server's [requireSession],
    - the orchestrator's [/chat] route up to the minting of the session
      token, and [isQboConnected],
    - the Gmail service's [/oauth/gmail/callback] and [/gmail/*] routes.

    Third-party libraries (jsonwebtoken, the Supabase client, undici's
    fetch, the MCP SDK, googleapis) are not part of the repository; they
    appear as interfaces whose behaviour is supplied by the environment. *)

From Stdlib Require Import ZArith String Ascii List Bool Lia.
From stdpp Require Import base gmap strings list pretty.
Import ListNotations.
Local Open Scope Z_scope.
Set Warnings "-register-all".

(** ** JavaScript values and string helpers *)

Module Js.

(** A claim typed [string | number] in the servers. *)
Inductive JsVal :=
| JsNum (n : Z)
| JsStr (s : string).

(** JSON data, as produced by [JSON.parse] and consumed by [res.json]. *)
Inductive Json :=
| JNull
| JBool (b : bool)
| JNumber (n : Z)
| JString (s : string)
| JArray (items : list Json)
| JObject (fields : list (string * Json)).

(** [!!v] for a [string | number]. *)
Definition truthy (v : JsVal) : bool :=
  match v with
  | JsNum n => negb (n =? 0)
  | JsStr s => negb (String.eqb s "")
  end.

(** [String(v)]. *)
Definition String_ (v : JsVal) : string :=
  match v with
  | JsNum n => pretty n
  | JsStr s => s
  end.

(** [!!s] for a [string | null | undefined]. *)
Definition truthy_str (s : option string) : bool :=
  match s with
  | Some s => negb (String.eqb s "")
  | None => false
  end.

(** [!!j] for parsed JSON. *)
Definition truthy_json (j : Json) : bool :=
  match j with
  | JNull => false
  | JBool b => b
  | JNumber n => negb (n =? 0)
  | JString s => negb (String.eqb s "")
  | JArray _ | JObject _ => true
  end.

(** [j?.[k]]: a property of a parsed value; [None] is [undefined]. *)
Definition prop (k : string) (j : Json) : option Json :=
  match j with
  | JObject fields => snd <$> List.find (fun kv => String.eqb (fst kv) k) fields
  | _ => None
  end.

(** [a || b] on header values: [undefined] and the empty string fall through. *)
Definition or_else (a : option string) (b : string) : string :=
  if truthy_str a then default b a else b.

Definition lower_ascii (c : ascii) : ascii :=
  let n := nat_of_ascii c in
  if (Nat.leb 65 n && Nat.leb n 90)%bool then ascii_of_nat (n + 32) else c.

(** [s.toLowerCase()] on the ASCII range. *)
Fixpoint toLowerCase (s : string) : string :=
  match s with
  | EmptyString => EmptyString
  | String c s' => String (lower_ascii c) (toLowerCase s')
  end.

(** [s.startsWith(p)]. *)
Definition startsWith (p s : string) : bool := String.prefix p s.

(** [s.slice(n)] for [n >= 0]. *)
Fixpoint slice (n : nat) (s : string) : string :=
  match n, s with
  | O, _ => s
  | S n', String _ s' => slice n' s'
  | S _, EmptyString => EmptyString
  end.

(** [s.includes(p)]. *)
Fixpoint includes (p s : string) : bool :=
  match s with
  | EmptyString => String.prefix p EmptyString
  | String _ s' => (String.prefix p s || includes p s')%bool
  end.

End Js.
Export Js.

(** ** HTTP plumbing shared by the servers *)

(** The two header sources and the query parameter the routes read. *)
Record Request := {
  authorization : option string;
  x_session : option string;
  query_sessionId : option string;
  body : Json;
}.

(** An Express response object: whether headers went out, and what was sent. *)
Record Response := {
  headersSent : bool;
  replies : list (Z * Json);
}.

Definition fresh_response : Response :=
  {| headersSent := false; replies := [] |}.

(** [res.status(code).json(body)]. Once headers are out Node refuses a
    second reply, so nothing more is recorded. *)
Definition status_json (code : Z) (payload : Json) (res : Response) : Response :=
  if headersSent res then res
  else {| headersSent := true; replies := replies res ++ [(code, payload)] |}.

Definition error_body (msg : string) : Json := JObject [("error", JString msg)].

(** [resp.ok] of fetch. *)
Definition status_ok (status : Z) : bool := (200 <=? status) && (status <=? 299).

(** The per-request context kept in [ctxStore]. *)
Record Ctx := { userId : JsVal }.

(** ** jsonwebtoken *)

Module Jwt.

Record Payload := {
  claim_userId : option JsVal;
  iat : option Z;
  exp : option Z;
  nbf : option Z;
  aud : list string;
  iss : option string;
}.

(** A decoded token: its payload and the secret its HMAC verifies under. *)
Record Token := {
  signedWith : string;
  payload : Payload;
}.

(** The wire format (base64url JSON and HMAC) is the library's business. *)
Class Codec := { parse : string -> option Token }.

Record VerifyOptions := {
  audience : option string;
  issuer : option string;
}.

Definition no_options : VerifyOptions := {| audience := None; issuer := None |}.

Inductive VerifyError :=
| jwt_must_be_provided
| jwt_malformed
| invalid_signature
| jwt_not_active
| jwt_expired
| jwt_audience_invalid
| jwt_issuer_invalid.

Definition check_audience (opts : VerifyOptions) (p : Payload) : bool :=
  match audience opts with
  | None => true
  | Some a => existsb (String.eqb a) (aud p)
  end.

Definition check_issuer (opts : VerifyOptions) (p : Payload) : bool :=
  match issuer opts with
  | None => true
  | Some i => match iss p with Some i' => String.eqb i i' | None => false end
  end.

(** [jwt.verify(token, secret, opts)] at clock [now] (seconds). *)
Definition verify {codec : Codec} (now : Z) (token secret : string) (opts : VerifyOptions)
  : VerifyError + Payload :=
  if String.eqb token "" then inl jwt_must_be_provided else
  match parse token with
  | None => inl jwt_malformed
  | Some t =>
    let p := payload t in
    if negb (String.eqb (signedWith t) secret) then inl invalid_signature
    else if match nbf p with Some n => now <? n | None => false end then inl jwt_not_active
    else if match exp p with Some e => e <=? now | None => false end then inl jwt_expired
    else if negb (check_audience opts p) then inl jwt_audience_invalid
    else if negb (check_issuer opts p) then inl jwt_issuer_invalid
    else inr p
  end.

(** [jwt.sign(payload, secret, { audience, issuer, expiresIn })]. *)
Definition sign (uid : JsVal) (issued : Z) (secret audience issuer : string) (expiresIn : Z)
  : Token :=
  {| signedWith := secret;
     payload := {| claim_userId := Some uid; iat := Some issued;
                   exp := Some (issued + expiresIn); nbf := None;
                   aud := [audience]; iss := Some issuer |} |}.

End Jwt.

(** ** Session verification in the tool servers *)

Section RequireSession.
Context {codec : Jwt.Codec}.
Variable SESSION_JWT_SECRET : string.

(** The header handling common to the three copies of [requireSession]. *)
Definition bearer_token (req : Request) : string :=
  let rawHeader :=
    or_else (authorization req) (or_else (x_session req) "") in
  let raw := rawHeader in
  if startsWith "bearer " (toLowerCase raw) then slice 7 raw else raw.

Definition reject_session (res : Response) : option Ctx * Response :=
  (None, if headersSent res then res else status_json 401 (error_body "invalid_session") res).

(** [requireSession] with the verify options and the id conversion as the
    only points where the three servers differ. *)
Definition requireSessionWith (opts : Jwt.VerifyOptions) (conv : JsVal -> JsVal)
    (now : Z) (req : Request) (res : Response) : option Ctx * Response :=
  let token := bearer_token req in
  match Jwt.verify now token SESSION_JWT_SECRET opts with
  | inr decoded =>
    match Jwt.claim_userId decoded with
    | Some v => if truthy v then (Some {| userId := conv v |}, res) else reject_session res
    | None => reject_session res
    end
  | inl _ => reject_session res
  end.

End RequireSession.

(** ** The token store *)

Module TokenStore.

(** A row of the [tokens] table ([TokenRow]). *)
Record TokenRow := {
  id : Z;
  user_id : string;
  provider : string;
  access_token : string;
  refresh_token : option string;
  realm_id : option string;
  expires_at : option Z;
  created_at : string;
  updated_at : string;
}.

(** What [normalize] hands to callers. *)
Record Tokens := {
  t_userId : string;
  t_provider : string;
  t_access_token : string;
  t_refresh_token : option string;
  t_realmId : option string;
  t_expires_at : option Z;
}.

(** The argument of [upsertTokens]; [None] stands for both [null] and
    [undefined], which [??] maps to [null] alike. *)
Record UpsertArg := {
  u_userId : string;
  u_provider : string;
  u_access_token : string;
  u_refresh_token : option string;
  u_realmId : option string;
  u_expires_at : option Z;
}.

Definition normalize (row : option TokenRow) : option Tokens :=
  match row with
  | None => None
  | Some row =>
    Some {| t_userId := user_id row;
            t_provider := provider row;
            t_access_token := access_token row;
            t_refresh_token := refresh_token row;
            t_realmId := realm_id row;
            t_expires_at := expires_at row |}
  end.

Definition has_key (uid prov : string) (row : TokenRow) : bool :=
  String.eqb (user_id row) uid && String.eqb (provider row) prov.

(** [.eq("user_id", uid).eq("provider", prov)]. *)
Definition select (uid prov : string) (table : list TokenRow) : list TokenRow :=
  List.filter (has_key uid prov) table.

(** [.single()]: data only when exactly one row matches; zero or several
    rows give error PGRST116, which [getTokens] turns into [null]. *)
Definition single (rows : list TokenRow) : option TokenRow :=
  match rows with
  | [row] => Some row
  | _ => None
  end.

Definition lookup_tokens (uid prov : string) (table : list TokenRow) : option Tokens :=
  normalize (single (select uid prov table)).

(** The columns [upsertTokens] sends. *)
Definition write_payload (arg : UpsertArg) (row : TokenRow) : TokenRow :=
  {| id := id row;
     user_id := u_userId arg;
     provider := u_provider arg;
     access_token := u_access_token arg;
     refresh_token := u_refresh_token arg;
     realm_id := u_realmId arg;
     expires_at := u_expires_at arg;
     created_at := created_at row;
     updated_at := updated_at row |}.

(** Columns the database fills in for a new row. *)
Definition blank_row (fresh_id : Z) (stamp : string) : TokenRow :=
  {| id := fresh_id; user_id := ""; provider := ""; access_token := "";
     refresh_token := None; realm_id := None; expires_at := None;
     created_at := stamp; updated_at := stamp |}.

Definition next_id (table : list TokenRow) : Z :=
  1 + fold_right Z.max 0 (List.map id table).

(** [.upsert(payload, { onConflict: "user_id,provider" })]: a conflicting
    row has the payload columns overwritten in place, otherwise a row is
    appended. *)
Definition upsert_rows (stamp : string) (arg : UpsertArg) (table : list TokenRow)
  : list TokenRow :=
  if existsb (has_key (u_userId arg) (u_provider arg)) table
  then List.map (fun row => if has_key (u_userId arg) (u_provider arg) row
                            then write_payload arg row else row) table
  else table ++ [write_payload arg (blank_row (next_id table) stamp)].

(** [.delete().eq("user_id", uid).eq("provider", prov)]. *)
Definition delete_rows (uid prov : string) (table : list TokenRow) : list TokenRow :=
  List.filter (fun row => negb (has_key uid prov row)) table.

(** The record a caller reads back after writing [arg]. *)
Definition tokens_of (arg : UpsertArg) : Tokens :=
  {| t_userId := u_userId arg;
     t_provider := u_provider arg;
     t_access_token := u_access_token arg;
     t_refresh_token := u_refresh_token arg;
     t_realmId := u_realmId arg;
     t_expires_at := u_expires_at arg |}.

Definition key_of (row : TokenRow) : string * string := (user_id row, provider row).

(** What an upsert does to one existing row. *)
Definition overwrite (arg : UpsertArg) (row : TokenRow) : TokenRow :=
  if has_key (u_userId arg) (u_provider arg) row then write_payload arg row else row.

(** The unique constraint [onConflict] relies on. *)
Definition unique_keys (table : list TokenRow) : Prop :=
  NoDup (List.map (fun row => (user_id row, provider row)) table).

End TokenStore.
Export TokenStore.

(** ** Effects of the QuickBooks servers: store, upstream calls, exceptions *)

Inductive Exn :=
| Error (message : string)
| SyntaxError.

Record HttpResp := { status : Z; text : string }.

(** The JSON of a successful token-endpoint reply. *)
Record TokenData := {
  d_access_token : string;
  d_refresh_token : option string;
  d_expires_in : option Z;
}.

Record ApiCall := {
  url : string;
  method : string;
  bearer : string;
  sent_body : option Json;
}.

(** What a run did to the outside world, in order. *)
Inductive Effect :=
| DbGet (uid prov : string)
| DbUpsert (arg : UpsertArg)
| PostTokenEndpoint (refresh_token : string) (resp : HttpResp)
| FetchApi (call : ApiCall) (resp : HttpResp).

Record World := { table : list TokenRow; log : list Effect }.

(** The environment answers every outside call from the history so far. *)
Record Env := {
  api : list Effect -> ApiCall -> HttpResp;
  token_endpoint : list Effect -> string -> HttpResp;
  JSON_parse : string -> option Json;
  parse_token_data : string -> option TokenData;
  clock : list Effect -> Z;
  db_stamp : list Effect -> string;
}.

(** Async code that may throw, over the world. *)
Definition M (A : Type) : Type := World -> (Exn + A) * World.

Definition ret {A} (a : A) : M A := fun w => (inr a, w).

Definition bind {A B} (c : M A) (k : A -> M B) : M B :=
  fun w => match c w with
           | (inr a, w') => k a w'
           | (inl e, w') => (inl e, w')
           end.

Definition throw {A} (e : Exn) : M A := fun w => (inl e, w).

Definition emit (e : Effect) : M unit :=
  fun w => (inr tt, {| table := table w; log := log w ++ [e] |}).

Definition history : M (list Effect) := fun w => (inr (log w), w).

Definition read_table : M (list TokenRow) := fun w => (inr (table w), w).

Definition write_table (t : list TokenRow) : M unit :=
  fun w => (inr tt, {| table := t; log := log w |}).

Declare Scope async_scope.
Delimit Scope async_scope with async.
Notation "x <- c ;; k" := (bind c (fun x => k))
  (at level 100, c at next level, right associativity) : async_scope.
Notation "c ;;; k" := (bind c (fun _ => k))
  (at level 100, right associativity) : async_scope.
Local Open Scope async_scope.

Definition getTokens (uid prov : string) : M (option Tokens) :=
  emit (DbGet uid prov) ;;;
  t <- read_table ;;
  ret (lookup_tokens uid prov t).

Definition upsertTokens (E : Env) (row : UpsertArg) : M unit :=
  h <- history ;;
  emit (DbUpsert row) ;;;
  t <- read_table ;;
  write_table (upsert_rows (db_stamp E h) row t).

Definition deleteTokens (uid prov : string) : M unit :=
  t <- read_table ;;
  write_table (delete_rows uid prov t).

(** The number of upstream API requests and of token-endpoint calls in a log. *)
Definition is_api (e : Effect) : bool :=
  match e with FetchApi _ _ => true | _ => false end.
Definition is_refresh (e : Effect) : bool :=
  match e with PostTokenEndpoint _ _ => true | _ => false end.
Definition is_upsert (e : Effect) : bool :=
  match e with DbUpsert _ => true | _ => false end.
Definition is_get (e : Effect) : bool :=
  match e with DbGet _ _ => true | _ => false end.

Definition count (p : Effect -> bool) (l : list Effect) : nat :=
  length (List.filter p l).

(** The effects a run added: what is in [w'] beyond the log of [w]. *)
Definition performed (w w' : World) : list Effect :=
  skipn (length (log w)) (log w').


(** ** The QuickBooks servers' OAuth refresh and API client *)

Module QbClient.
Section QuickBooks.
Variable E : Env.
Variable QB_API_BASE : string.
Variable MINOR_VERSION : Z.
(** Which non-2xx replies count as an authorization failure. *)
Variable isAuthError : Z -> string -> bool.

Definition refreshWithQbo (refresh_token : option string) (uid : string)
    (realmId : option string) : M unit :=
  h <- history ;;
  let sent := default "null" refresh_token in
  let resp := token_endpoint E h sent in
  emit (PostTokenEndpoint sent resp) ;;;
  if negb (status_ok (status resp)) then
    throw (Error ("QBO refresh failed: " +:+ pretty (status resp) +:+ " " +:+ text resp))
  else
    match parse_token_data E (text resp) with
    | None => throw SyntaxError
    | Some data =>
      h' <- history ;;
      let now := clock E h' in
      let expires_at :=
        match d_expires_in data with
        | Some n => if n =? 0 then None else Some (now + n)
        | None => None
        end in
      upsertTokens E
        {| u_userId := uid;
           u_provider := "quickbooks";
           u_access_token := d_access_token data;
           u_refresh_token :=
             match d_refresh_token data with
             | Some r => Some r
             | None => refresh_token
             end;
           u_realmId := realmId;
           u_expires_at := expires_at |}
    end.

Record QbOpts := { o_method : option string; o_body : option Json }.

Definition default_opts : QbOpts := {| o_method := None; o_body := None |}.

(** What [doFetch] resolves to. *)
Inductive FetchResult :=
| NeedRefresh (text : string)
| Parsed (j : Json).

(** [result?.needRefresh]. *)
Definition needRefresh (r : FetchResult) : bool :=
  match r with
  | NeedRefresh _ => true
  | Parsed j => match prop "needRefresh" j with
                | Some v => truthy_json v
                | None => false
                end
  end.

Definition doFetch (row : Tokens) (url : string) (opts : QbOpts) (accessToken : string)
  : M FetchResult :=
  h <- history ;;
  let call :=
    {| url := url;
       method := default "GET" (o_method opts);
       bearer := accessToken;
       sent_body := match o_body opts with
                    | Some b => if truthy_json b then Some b else None
                    | None => None
                    end |} in
  let resp := api E h call in
  emit (FetchApi call resp) ;;;
  if negb (status_ok (status resp)) then
    if isAuthError (status resp) (text resp) && truthy_str (t_refresh_token row)
    then ret (NeedRefresh (text resp))
    else throw (Error ("QBO error: " +:+ pretty (status resp) +:+ " " +:+ text resp))
  else
    match JSON_parse E (if String.eqb (text resp) "" then "{}" else text resp) with
    | Some j => ret (Parsed j)
    | None => throw SyntaxError
    end.

Definition result_json (r : FetchResult) : Json :=
  match r with
  | Parsed j => j
  | NeedRefresh t => JObject [("needRefresh", JBool true); ("text", JString t)]
  end.

(** [qbRequest(endpoint, opts)] with [ctx] the value of [ctxStore.getStore()]. *)
Definition qbRequest (ctx : option Ctx) (endpoint : string) (opts : QbOpts) : M Json :=
  match ctx with
  | None => throw (Error "Missing request context")
  | Some ctx =>
    row <- getTokens (String_ (userId ctx)) "quickbooks" ;;
    match row with
    | None => throw (Error "QuickBooks not connected")
    | Some row =>
      if negb (negb (String.eqb (t_access_token row) "") && truthy_str (t_realmId row))
      then throw (Error "QuickBooks not connected")
      else
        let base := QB_API_BASE +:+ "/v3/company/" +:+ default "" (t_realmId row)
                    +:+ "/" +:+ endpoint in
        let url := base +:+ (if includes "?" base
                             then "&minorversion=" +:+ pretty MINOR_VERSION
                             else "?minorversion=" +:+ pretty MINOR_VERSION) in
        result <- doFetch row url opts (t_access_token row) ;;
        if needRefresh result then
          refreshWithQbo (t_refresh_token row) (String_ (userId ctx)) (t_realmId row) ;;;
          latest <- getTokens (String_ (userId ctx)) "quickbooks" ;;
          match latest with
          | None => throw (Error "Refresh succeeded but no access token")
          | Some latest =>
            if String.eqb (t_access_token latest) ""
            then throw (Error "Refresh succeeded but no access token")
            else
              result <- doFetch row url opts (t_access_token latest) ;;
              if needRefresh result then throw (Error "Unauthorized after refresh")
              else ret (result_json result)
          end
        else ret (result_json result)
    end
  end.

End QuickBooks.
End QbClient.

(** ** The SSE transport: [/sse], [/messages] and the close callback *)


(** ** JSON-RPC messages

    What the MCP SDK's transport lets through: [handlePostMessage] parses
    the posted body against the SDK's message schema, a union of four
    strict object shapes, before the server sees it. *)

Module JsonRpc.

Definition version_ok (msg : Json) : bool :=
  match prop "jsonrpc" msg with
  | Some (JString v) => String.eqb v "2.0"
  | _ => false
  end.

(** A request id: a string or an integer. *)
Definition is_id (v : option Json) : bool :=
  match v with
  | Some (JString _) | Some (JNumber _) => true
  | _ => false
  end.

Definition is_string (v : option Json) : bool :=
  match v with
  | Some (JString _) => true
  | _ => false
  end.

Definition is_object (v : option Json) : bool :=
  match v with
  | Some (JObject _) => true
  | _ => false
  end.

Definition absent_or_object (v : option Json) : bool :=
  match v with
  | None | Some (JObject _) => true
  | _ => false
  end.

(** [.strict()]: no member outside [allowed]. *)
Definition keys_within (allowed : list string) (msg : Json) : bool :=
  match msg with
  | JObject fields =>
    forallb (fun kv => existsb (String.eqb (fst kv)) allowed) fields
  | _ => false
  end.

Definition is_request (msg : Json) : bool :=
  version_ok msg && is_id (prop "id" msg) && is_string (prop "method" msg)
  && absent_or_object (prop "params" msg)
  && keys_within ["jsonrpc"; "id"; "method"; "params"] msg.

Definition is_notification (msg : Json) : bool :=
  version_ok msg && is_string (prop "method" msg)
  && absent_or_object (prop "params" msg)
  && keys_within ["jsonrpc"; "method"; "params"] msg.

Definition is_response (msg : Json) : bool :=
  version_ok msg && is_id (prop "id" msg) && is_object (prop "result" msg)
  && keys_within ["jsonrpc"; "id"; "result"] msg.

Definition is_error_object (v : option Json) : bool :=
  match v with
  | Some (JObject fields) =>
    match prop "code" (JObject fields), prop "message" (JObject fields) with
    | Some (JNumber _), Some (JString _) => true
    | _, _ => false
    end
  | _ => false
  end.

Definition is_error (msg : Json) : bool :=
  version_ok msg && is_id (prop "id" msg) && is_error_object (prop "error" msg)
  && keys_within ["jsonrpc"; "id"; "error"] msg.

(** [JSONRPCMessageSchema.parse(msg)] succeeds. *)
Definition is_message (msg : Json) : bool :=
  is_request msg || is_notification msg || is_response msg || is_error msg.

End JsonRpc.

(** A registered [SSEServerTransport]: the session id the SDK gave it, and
    the session [ctxStore.run] wrapped its [server.connect(transport)] in. *)
Record Transport := {
  sessionId : string;
  opened_as : Ctx;
}.

(** One posted message as the transport handled it. *)
Record Handled := {
  on_stream : Transport;
  ambient : option Ctx;
  message : Json;
  outcome : Exn + Json;
}.

Record Server := {
  activeTransports : gmap string Transport;
  world : World;
  handled : list Handled;
}.

(** How [server.connect(transport)] ended. *)
Inductive ConnectOutcome :=
| Connected
| ThrewBeforeHeaders
| ThrewAfterHeaders.

Section ToolServer.
(** The server's own [requireSession]. *)
Variable requireSession : Z -> Request -> Response -> option Ctx * Response.
(** What [transport.handlePostMessage] sets off: the MCP server's handling
    of one message, reading [ctxStore.getStore()] as its first argument. *)
Variable handlePostMessage : option Ctx -> Json -> M Json.

(** [ctxStore.run(sess, fn)]: [fn] sees [sess] as the store. *)
Definition ctxStore_run {A} (sess : Ctx) (fn : option Ctx -> A) : A := fn (Some sess).

Definition get_sse (now : Z) (sdk_sessionId : string) (c : ConnectOutcome)
    (req : Request) (res : Response) (st : Server) : Server * Response :=
  match requireSession now req res with
  | (None, res) => (st, res)
  | (Some sess, res) =>
    let transport := {| sessionId := sdk_sessionId; opened_as := sess |} in
    let sessionId := or_else (Some sdk_sessionId) "default" in
    let st := {| activeTransports := <[sessionId := transport]> (activeTransports st);
                 world := world st; handled := handled st |} in
    (* [res.on("close", ...)] is installed here, before the connect: when
       the connect throws, the 500 or [res.end()] of the [catch] ends the
       response, and its close callback takes the transport out again *)
    let closed := {| activeTransports := delete sessionId (activeTransports st);
                     world := world st; handled := handled st |} in
    (* ctxStore.run(sess, () => server.connect(transport)) ended as [c] *)
    match c with
    | Connected => (st, {| headersSent := true; replies := replies res |})
    | ThrewBeforeHeaders => (closed, status_json 500 (error_body "sse_failed") res)
    | ThrewAfterHeaders => (closed, {| headersSent := true; replies := replies res |})
    end
  end.

(** The [res.on("close", ...)] callback of the stream registered under [sessionId]. *)
Definition on_close (sessionId : string) (st : Server) : Server :=
  {| activeTransports := delete sessionId (activeTransports st);
     world := world st; handled := handled st |}.

Definition post_messages (now : Z) (req : Request) (res : Response) (st : Server)
  : Server * Response :=
  match requireSession now req res with
  | (None, res) => (st, res)
  | (Some sess, res) =>
    let sessionId := or_else (query_sessionId req) "default" in
    match activeTransports st !! sessionId with
    | None => (st, status_json 400 (error_body "no_active_transport") res)
    | Some transport =>
      ctxStore_run sess (fun store =>
        (* [transport.handlePostMessage(req, res, req.body)]: a body that
           is no JSON-RPC message is answered 400 (the text goes on with
           the body) and reaches no handler *)
        if negb (JsonRpc.is_message (body req))
        then (st, status_json 400 (JString "Invalid message") res)
        else
          let '(r, w) := handlePostMessage store (body req) (world st) in
          ({| activeTransports := activeTransports st;
              world := w;
              handled := handled st ++
                [{| on_stream := transport; ambient := store;
                    message := body req; outcome := r |}] |},
           status_json 202 (JString "Accepted") res))
    end
  end.

(** What reaches the server, one request or callback at a time. *)
Inductive Event :=
| OpenStream (now : Z) (sdk_sessionId : string) (c : ConnectOutcome) (req : Request)
| PostMessage (now : Z) (req : Request)
| CloseStream (sessionId : string).

(** Express hands every request a response object of its own. *)
Definition step (st : Server) (ev : Event) : Server * Response :=
  match ev with
  | OpenStream now sid c req => get_sse now sid c req fresh_response st
  | PostMessage now req => post_messages now req fresh_response st
  | CloseStream sid => (on_close sid st, fresh_response)
  end.

Definition run (evs : list Event) (st : Server) : Server :=
  fold_left (fun st ev => fst (step st ev)) evs st.

(** The session id under which an event registers a stream, if it does. *)
Definition registers (ev : Event) : option string :=
  match ev with
  | OpenStream now sid c req =>
    match requireSession now req fresh_response with
    | (Some _, _) => Some (or_else (Some sid) "default")
    | (None, _) => None
    end
  | _ => None
  end.

End ToolServer.

Definition str_prop (k : string) (j : Json) : option string :=
  match prop k j with
  | Some (JString s) => Some s
  | _ => None
  end.

(** [data?.[k] ?? data]. *)
Definition prop_or_self (k : string) (data : Json) : Json :=
  match prop k data with
  | Some JNull | None => data
  | Some v => v
  end.

(** ** The QuickBooks MCP server, revision with numeric user ids *)

Module QuickBooksNum.
Section Server.
Context {codec : Jwt.Codec}.
Variable E : Env.
Variable SESSION_JWT_SECRET : string.
Variable MINOR_VERSION : Z.

Definition QB_API_BASE : string := "https://sandbox-quickbooks.api.intuit.com".

(** Only a 401 asks for a refresh. *)
Definition isAuthError (status : Z) (text : string) : bool := status =? 401.

Definition requireSession : Z -> Request -> Response -> option Ctx * Response :=
  requireSessionWith SESSION_JWT_SECRET Jwt.no_options (fun v => v).

Definition refreshWithQbo := QbClient.refreshWithQbo E.

Definition qbRequest : option Ctx -> string -> QbClient.QbOpts -> M Json :=
  QbClient.qbRequest E QB_API_BASE MINOR_VERSION isAuthError.

(** The MCP server's handling of one JSON-RPC message, for the two by-id
    tools: a [tools/call] request runs the named tool, whose result is the
    value its text content renders; notifications, responses and other
    protocol messages touch no tool. *)
Definition tools_call (store : option Ctx) (msg : Json) : M Json :=
  if negb (JsonRpc.is_request msg) then ret JNull else
  if negb (String.eqb (default "" (str_prop "method" msg)) "tools/call") then ret JNull else
  match prop "params" msg with
  | Some params =>
    match str_prop "name" params, prop "arguments" params with
    | Some name, Some args =>
      if String.eqb name "get_customer_by_id" then
        match str_prop "customerId" args with
        | Some customerId =>
          if String.eqb customerId "" then throw (Error "Invalid arguments")
          else bind (qbRequest store ("customer/" +:+ customerId) QbClient.default_opts)
                    (fun data => ret (prop_or_self "Customer" data))
        | None => throw (Error "Invalid arguments")
        end
      else if String.eqb name "get_account_by_id" then
        match str_prop "accountId" args with
        | Some accountId =>
          if String.eqb accountId "" then throw (Error "Invalid arguments")
          else bind (qbRequest store ("account/" +:+ accountId) QbClient.default_opts)
                    (fun data => ret (prop_or_self "Account" data))
        | None => throw (Error "Invalid arguments")
        end
      else throw (Error "Tool not found")
    | _, _ => throw (Error "Invalid request")
    end
  | None => throw (Error "Invalid request")
  end.

Definition get_sse := get_sse requireSession.
Definition post_messages := post_messages requireSession tools_call.
Definition step := step requireSession tools_call.
Definition run := run requireSession tools_call.

End Server.
End QuickBooksNum.

(** ** The QuickBooks MCP server, revision with string user ids *)

Module QuickBooksStr.
Section Server.
Context {codec : Jwt.Codec}.
Variable E : Env.
Variable SESSION_JWT_SECRET : string.
Variable MINOR_VERSION : Z.
(** [QB_USE_SANDBOX] picks the sandbox or the production host. *)
Variable QB_USE_SANDBOX : bool.

Definition QB_API_BASE : string :=
  if QB_USE_SANDBOX then "https://sandbox-quickbooks.api.intuit.com"
  else "https://quickbooks.api.intuit.com".

(** A 401, or a 400 whose body mentions error code 3100. *)
Definition isAuthError (status : Z) (text : string) : bool :=
  (status =? 401) || ((status =? 400) && includes "3100" text).

Definition requireSession : Z -> Request -> Response -> option Ctx * Response :=
  requireSessionWith SESSION_JWT_SECRET Jwt.no_options (fun v => JsStr (String_ v)).

Definition refreshWithQbo := QbClient.refreshWithQbo E.

Definition qbRequest : option Ctx -> string -> QbClient.QbOpts -> M Json :=
  QbClient.qbRequest E QB_API_BASE MINOR_VERSION isAuthError.

End Server.
End QuickBooksStr.

(** ** The Housecall Pro MCP server *)

Module HousecallPro.
Section Server.
Context {codec : Jwt.Codec}.
Variable SESSION_JWT_SECRET : string.
Variable SESSION_JWT_ISSUER : string.

Definition verify_options : Jwt.VerifyOptions :=
  {| Jwt.audience := Some "housecallpro-mcp"; Jwt.issuer := Some SESSION_JWT_ISSUER |}.

Definition requireSession : Z -> Request -> Response -> option Ctx * Response :=
  requireSessionWith SESSION_JWT_SECRET verify_options (fun v => JsStr (String_ v)).

End Server.
End HousecallPro.

(** ** The orchestrator: connectivity check and session minting in [/chat] *)

Module Backend.
Section Chat.
Variable E : Env.
Variable SESSION_JWT_SECRET : string.
Variable SESSION_JWT_AUDIENCE : string.
Variable SESSION_JWT_ISSUER : string.
Variable SESSION_TTL_SECONDS : Z.

Definition isQboConnected (uid : JsVal) : M bool :=
  bind (getTokens (String_ uid) "quickbooks") (fun row =>
  bind history (fun h =>
  match row with
  | None => ret false
  | Some row =>
    if String.eqb (t_access_token row) "" then ret false
    else match t_expires_at row with
         | Some e => if negb (e =? 0) && (e <=? clock E h) then ret false else ret true
         | None => ret true
         end
  end)).

(** Where [/chat] stands once the session token exists, or how it replied
    before getting there. *)
Inductive ChatProgress :=
| Replied (code : Z) (payload : Json)
| Minted (sessionJwt : Jwt.Token).

Definition chat (req_body : Json) : M ChatProgress :=
  match prop "message" req_body with
  | Some (JString message) =>
    if String.eqb message "" then ret (Replied 400 (error_body "message is required"))
    else
      bind (isQboConnected (JsNum 1)) (fun connected =>
      if negb connected
      then ret (Replied 400 (error_body "QuickBooks not connected for userId=1"))
      else
        bind history (fun h =>
        ret (Minted (Jwt.sign (JsNum 1) (clock E h) SESSION_JWT_SECRET
                       SESSION_JWT_AUDIENCE SESSION_JWT_ISSUER
                       (if SESSION_TTL_SECONDS =? 0 then 3600 else SESSION_TTL_SECONDS)))))
  | _ => ret (Replied 400 (error_body "message is required"))
  end.

End Chat.
End Backend.

(** ** The Gmail service *)

Module Gmail.

(** A request as a route sees it; [headers] and [cookies] are whatever the
    caller sent, and [payload] is [req.body], [None] when no body parser
    filled it in. *)
Record GRequest := {
  headers : list (string * string);
  cookies : list (string * string);
  query : list (string * string);
  route_messageId : string;
  payload : option Json;
}.

(** Calls into the Gmail API client. *)
Inductive GCall :=
| GetProfile
| SendMessage (raw : string)
| ListMessages (q : option string) (maxResults : option Z) (pageToken : option string)
| GetMessage (id : option Json) (format : string)
| ModifyMessage (id : string) (addLabelIds removeLabelIds : list string)
| ListLabels.

(** The Google client library and the runtime; [None] and [inl message]
    are rejected promises. *)
Record GmailEnv := {
  getToken : string -> option Json;
  gmail : option Json -> GCall -> string + Json;
  base64 : string -> string;
  toISOString : string;
  parseInt : string -> option Z;
  format_full : Json -> Json;
  format_metadata : Json -> Json;
}.

(** [userTokens], the credentials held by the one [oauth2Client], and the
    API calls made so far with the credentials each one carried. *)
Record State := {
  userTokens : gmap string Json;
  client_credentials : option Json;
  calls : list (option Json * GCall);
}.

Definition setCredentials (tokens : Json) (st : State) : State :=
  {| userTokens := userTokens st; client_credentials := Some tokens; calls := calls st |}.

(** The template-literal rendering of a JSON value. *)
Fixpoint template (j : Json) : string :=
  match j with
  | JNull => "null"
  | JBool true => "true"
  | JBool false => "false"
  | JNumber n => pretty n
  | JString s => s
  | JArray items =>
    (fix join (l : list Json) : string :=
       match l with
       | [] => ""
       | [x] => match x with JNull => "" | _ => template x end
       | x :: rest => (match x with JNull => "" | _ => template x end) +:+ "," +:+ join rest
       end) items
  | JObject _ => "[object Object]"
  end.

Definition CRLF : string := String (ascii_of_nat 13) (String (ascii_of_nat 10) EmptyString).

Fixpoint join_lines (l : list string) : string :=
  match l with
  | [] => ""
  | [x] => x
  | x :: rest => x +:+ CRLF +:+ join_lines rest
  end.

(** [.replace(/\+/g, '-').replace(/\//g, '_')]. *)
Fixpoint url_safe (s : string) : string :=
  match s with
  | EmptyString => EmptyString
  | String c s' =>
    String (if Ascii.eqb c "+" then "-"%char else if Ascii.eqb c "/" then "_"%char else c)
           (url_safe s')
  end.

Definition truthy_opt (j : option Json) : bool :=
  match j with Some v => truthy_json v | None => false end.

Definition field (k : string) (v : option Json) : list (string * Json) :=
  match v with Some v => [(k, v)] | None => [] end.

Definition lookup_query (k : string) (q : list (string * string)) : option string :=
  snd <$> List.find (fun kv => String.eqb (fst kv) k) q.

Section Routes.
Variable G : GmailEnv.
Variable FRONTEND_ORIGIN : string.

(** One API call through the shared client. *)
Definition api_call (c : GCall) (st : State) : (string + Json) * State :=
  (gmail G (client_credentials st) c,
   {| userTokens := userTokens st; client_credentials := client_credentials st;
      calls := calls st ++ [(client_credentials st, c)] |}).

Definition redirect (location : string) (res : Response) : Response :=
  status_json 302 (JString location) res.

Definition oauth_gmail_callback (req : GRequest) (res : Response) (st : State)
  : State * Response :=
  let code := default "" (lookup_query "code" (query req)) in
  if String.eqb code "" then (st, redirect (FRONTEND_ORIGIN +:+ "?gmail=error") res)
  else match getToken G code with
       | None => (st, redirect (FRONTEND_ORIGIN +:+ "?gmail=error") res)
       | Some tokens =>
         let userId := "user1" in
         let st := {| userTokens := <[userId := tokens]> (userTokens st);
                      client_credentials := client_credentials st; calls := calls st |} in
         (setCredentials tokens st, redirect (FRONTEND_ORIGIN +:+ "?gmail=connected") res)
       end.

(** The opening every [/gmail/*] route shares: the credentials under the
    fixed key, or a 401. *)
Definition with_tokens (res : Response) (st : State)
    (k : State -> State * Response) : State * Response :=
  let userId := "user1" in
  match userTokens st !! userId with
  | Some tokens =>
    if truthy_json tokens then k (setCredentials tokens st)
    else (st, status_json 401 (error_body "Gmail not connected") res)
  | None => (st, status_json 401 (error_body "Gmail not connected") res)
  end.

Definition failure (msg details : string) (res : Response) : Response :=
  status_json 500 (JObject [("error", JString msg); ("details", JString details)]) res.

(** [const { k, ... } = req.body], the first statement of the handlers
    that read a body: [undefined] and [null] cannot be destructured, and
    the [TypeError] lands in the handler's [catch] with the engine's
    message. *)
Definition destructure (k : string) (b : option Json) : string + Json :=
  match b with
  | None =>
    inl ("Cannot destructure property '" +:+ k +:+ "' of 'req.body' as it is undefined.")
  | Some JNull =>
    inl ("Cannot destructure property '" +:+ k +:+ "' of 'req.body' as it is null.")
  | Some payload => inr payload
  end.

Definition gmail_send (req : GRequest) (res : Response) (st : State) : State * Response :=
  match destructure "to" (payload req) with
  | inl details => (st, failure "Failed to send email" details res)
  | inr payload =>
  let to := prop "to" payload in
  let subject := prop "subject" payload in
  let body := prop "body" payload in
  let cc := prop "cc" payload in
  let bcc := prop "bcc" payload in
  if negb (truthy_opt to && truthy_opt subject && truthy_opt body)
  then (st, status_json 400 (error_body "to, subject, and body are required") res)
  else with_tokens res st (fun st =>
    let emailLines :=
      ["To: " +:+ template (default JNull to)]
      ++ (if truthy_opt cc then ["Cc: " +:+ template (default JNull cc)] else [])
      ++ (if truthy_opt bcc then ["Bcc: " +:+ template (default JNull bcc)] else [])
      ++ ["Subject: " +:+ template (default JNull subject);
          "Content-Type: text/html; charset=utf-8";
          "";
          template (default JNull body)] in
    let email := join_lines emailLines in
    let encodedEmail := url_safe (base64 G email) in
    match api_call (SendMessage encodedEmail) st with
    | (inr data, st) =>
      (st, status_json 200
             (JObject ([("success", JBool true)]
                       ++ field "messageId" (prop "id" data)
                       ++ field "threadId" (prop "threadId" data)
                       ++ [("timestamp", JString (toISOString G))])) res)
    | (inl details, st) => (st, failure "Failed to send email" details res)
    end)
  end.

(** [Promise.all(items.map(get))]: every message is requested; one
    rejection rejects the whole. *)
Fixpoint get_all (format : string) (items : list Json) (st : State)
  : (string + list Json) * State :=
  match items with
  | [] => (inr [], st)
  | item :: rest =>
    let '(r, st) := api_call (GetMessage (prop "id" item) format) st in
    let '(rs, st) := get_all format rest st in
    (match r, rs with
     | inr d, inr ds => inr (d :: ds)
     | inl details, _ => inl details
     | _, inl details => inl details
     end, st)
  end.

Definition gmail_messages (req : GRequest) (res : Response) (st : State) : State * Response :=
  let q := lookup_query "q" (query req) in
  let maxResults := match lookup_query "maxResults" (query req) with
                    | Some m => parseInt G m
                    | None => Some 20
                    end in
  let pageToken := lookup_query "pageToken" (query req) in
  with_tokens res st (fun st =>
    match api_call (ListMessages q maxResults pageToken) st with
    | (inl details, st) => (st, failure "Failed to get messages" details res)
    | (inr data, st) =>
      match prop "messages" data with
      | Some (JArray items) =>
        match get_all "full" (firstn 10 items) st with
        | (inr details, st) =>
          (st, status_json 200
                 (JObject ([("messages", JArray (List.map (format_full G) details))]
                           ++ field "nextPageToken" (prop "nextPageToken" data)
                           ++ field "resultSizeEstimate" (prop "resultSizeEstimate" data))) res)
        | (inl details, st) => (st, failure "Failed to get messages" details res)
        end
      | Some v =>
        if truthy_json v then (st, failure "Failed to get messages" "not an array" res)
        else (st, status_json 200
                    (JObject [("messages", JArray []); ("nextPageToken", JNull)]) res)
      | None => (st, status_json 200
                       (JObject [("messages", JArray []); ("nextPageToken", JNull)]) res)
      end
    end).

Definition gmail_search (req : GRequest) (res : Response) (st : State) : State * Response :=
  let query_ := lookup_query "query" (query req) in
  let maxResults := match lookup_query "maxResults" (query req) with
                    | Some m => parseInt G m
                    | None => Some 10
                    end in
  if negb (truthy_str query_)
  then (st, status_json 400 (error_body "Search query is required") res)
  else with_tokens res st (fun st =>
    match api_call (ListMessages query_ maxResults None) st with
    | (inl details, st) => (st, failure "Failed to search emails" details res)
    | (inr data, st) =>
      match prop "messages" data with
      | Some (JArray items) =>
        match get_all "metadata" items st with
        | (inr details, st) =>
          (st, status_json 200
                 (JObject [("messages", JArray (List.map (format_metadata G) details));
                           ("total", match prop "resultSizeEstimate" data with
                                     | Some v => if truthy_json v then v else JNumber 0
                                     | None => JNumber 0
                                     end);
                           ("query", JString (default "" query_))]) res)
        | (inl details, st) => (st, failure "Failed to search emails" details res)
        end
      | Some v =>
        if truthy_json v then (st, failure "Failed to search emails" "not an array" res)
        else (st, status_json 200 (JObject [("messages", JArray []); ("total", JNumber 0)]) res)
      | None => (st, status_json 200 (JObject [("messages", JArray []); ("total", JNumber 0)]) res)
      end
    end).

Definition gmail_mark (req : GRequest) (res : Response) (st : State) : State * Response :=
  let messageId := route_messageId req in
  match destructure "action" (payload req) with
  | inl details => (st, failure "Failed to mark message" details res)
  | inr payload =>
  let action := prop "action" payload in
  with_tokens res st (fun st =>
    let finish (st : State) :=
      (st, status_json 200
             (JObject ([("success", JBool true)] ++ field "action" action
                       ++ [("messageId", JString messageId)])) res) in
    match action with
    | Some (JString a) =>
      if String.eqb a "read" then
        match api_call (ModifyMessage messageId [] ["UNREAD"]) st with
        | (inr _, st) => finish st
        | (inl details, st) => (st, failure "Failed to mark message" details res)
        end
      else if String.eqb a "unread" then
        match api_call (ModifyMessage messageId ["UNREAD"] []) st with
        | (inr _, st) => finish st
        | (inl details, st) => (st, failure "Failed to mark message" details res)
        end
      else finish st
    | _ => finish st
    end)
  end.

Definition gmail_labels (req : GRequest) (res : Response) (st : State) : State * Response :=
  with_tokens res st (fun st =>
    match api_call ListLabels st with
    | (inr data, st) =>
      (st, status_json 200
             (JObject [("labels", match prop "labels" data with
                                  | Some v => if truthy_json v then v else JArray []
                                  | None => JArray []
                                  end)]) res)
    | (inl details, st) => (st, failure "Failed to get labels" details res)
    end).

(** The [/gmail/*] routes. *)
Inductive Endpoint := Send | Messages | Search | Mark | Labels.

Definition route (ep : Endpoint) : GRequest -> Response -> State -> State * Response :=
  match ep with
  | Send => gmail_send
  | Messages => gmail_messages
  | Search => gmail_search
  | Mark => gmail_mark
  | Labels => gmail_labels
  end.

(** How the service answers a request: on a response object of its own. *)
Definition serve (ep : Endpoint) (req : GRequest) (st : State) : State * Response :=
  route ep req fresh_response st.

End Routes.
End Gmail.

(** ** Statements about the token store *)

Definition last_write_wins (E : Env) (w : World) (first second : UpsertArg) : Prop :=
  let uid := u_userId second in
  let prov := u_provider second in
  let w2 := snd (bind (upsertTokens E first) (fun _ => upsertTokens E second) w) in
  let w3 := snd (upsertTokens E second w2) in
  fst (bind (upsertTokens E first) (fun _ => upsertTokens E second) w) = inr tt /\
  length (select uid prov (table w2)) = 1%nat /\
  fst (getTokens uid prov w2) = inr (Some (tokens_of second)) /\
  table w3 = table w2 /\
  unique_keys (table w2).

(** ** Statements about the refresh client *)

(** The expiry the refresh computes from [expires_in]: a zero is falsy and
    counts as absent. *)
Definition expiry_computed (now : Z) (expires_in : option Z) : option Z :=
  match expires_in with
  | Some n => if n =? 0 then None else Some (now + n)
  | None => None
  end.

(** The expiry when every supplied [expires_in] is added to the clock. *)
Definition expiry_whenever_supplied (now : Z) (expires_in : option Z) : option Z :=
  match expires_in with
  | Some n => Some (now + n)
  | None => None
  end.

(** The record a successful refresh writes, for a given expiry rule. *)
Definition refreshed_record (expiry : Z -> option Z -> option Z) (now : Z)
    (refresh_token : option string) (uid : string) (realmId : option string)
    (data : TokenData) : UpsertArg :=
  {| u_userId := uid;
     u_provider := "quickbooks";
     u_access_token := d_access_token data;
     u_refresh_token := match d_refresh_token data with
                        | Some r => Some r
                        | None => refresh_token
                        end;
     u_realmId := realmId;
     u_expires_at := expiry now (d_expires_in data) |}.

(** The token endpoint's reply to a refresh started in world [w]. *)
Definition refresh_reply (E : Env) (refresh_token : option string) (w : World) : HttpResp :=
  token_endpoint E (log w) (default "null" refresh_token).

Definition refresh_call (E : Env) (refresh_token : option string) (w : World) : Effect :=
  PostTokenEndpoint (default "null" refresh_token) (refresh_reply E refresh_token w).

(** A refresh that returns normally, having made one call to the token
    endpoint and one upsert of [refreshed_record]. *)
Definition refresh_stores (expiry : Z -> option Z -> option Z) (E : Env)
    (refresh_token : option string) (uid : string) (realmId : option string)
    (w : World) (data : TokenData) : Prop :=
  let called := log w ++ [refresh_call E refresh_token w] in
  let written := refreshed_record expiry (clock E called) refresh_token uid realmId data in
  QbClient.refreshWithQbo E refresh_token uid realmId w
  = (inr tt, {| table := upsert_rows (db_stamp E called) written (table w);
                log := called ++ [DbUpsert written] |}).

(** A refresh that throws after its one call, the store untouched. *)
Definition refresh_fails (E : Env) (refresh_token : option string) (uid : string)
    (realmId : option string) (w : World) : Prop :=
  let resp := refresh_reply E refresh_token w in
  QbClient.refreshWithQbo E refresh_token uid realmId w
  = (inl (Error ("QBO refresh failed: " +:+ pretty (status resp) +:+ " " +:+ text resp)),
     {| table := table w; log := log w ++ [refresh_call E refresh_token w] |}).

(** ** Statements about the API client *)




(** ** Statements about the tool servers *)

Definition invalid_session_reply : Response :=
  {| headersSent := true; replies := [(401, error_body "invalid_session")] |}.

Definition no_active_transport_reply : Response :=
  {| headersSent := true; replies := [(400, error_body "no_active_transport")] |}.

Definition empty_server (w : World) : Server :=
  {| activeTransports := ∅; world := w; handled := [] |}.


(** A presented session that does not verify: the library rejects the token
    (no or malformed token, bad signature, not yet valid, expired, wrong
    audience or issuer where the server asks for one), or the payload
    carries no truthy [userId]. *)
Definition verification_fails {codec : Jwt.Codec} (secret : string)
    (opts : Jwt.VerifyOptions) (now : Z) (req : Request) : Prop :=
  (exists e, Jwt.verify now (bearer_token req) secret opts = inl e) \/
  (exists p, Jwt.verify now (bearer_token req) secret opts = inr p /\
             match Jwt.claim_userId p with Some v => truthy v = false | None => True end).

(** The key a post looks its transport up under. *)
Definition post_key (req : Request) : string := or_else (query_sessionId req) "default".

Section ServerStatements.
Variable requireSession : Z -> Request -> Response -> option Ctx * Response.
Variable handlePostMessage : option Ctx -> Json -> M Json.


(** Every handled message ran under the identity its stream was opened with. *)
Definition stream_identity_kept (st : Server) : Prop :=
  forall h, In h (handled st) -> ambient h = Some (opened_as (on_stream h)).

(** The key [/sse] registers a transport under. *)
Definition registered_under (t : Transport) : string :=
  or_else (Some (sessionId t)) "default".

(** [h] ran under the session verified from the post that carried it, a
    JSON-RPC message, on the stream that post names. *)
Definition posted_in (evs : list Event) (h : Handled) : Prop :=
  exists now req sess res,
    In (PostMessage now req) evs /\
    requireSession now req fresh_response = (Some sess, res) /\
    ambient h = Some sess /\ message h = body req /\
    JsonRpc.is_message (body req) = true /\
    post_key req = registered_under (on_stream h).

(** [t] was registered by a stream-open whose own session it records. *)
Definition opened_in (evs : list Event) (t : Transport) : Prop :=
  exists now c req res,
    In (OpenStream now (sessionId t) c req) evs /\
    requireSession now req fresh_response = (Some (opened_as t), res).

(** What holds of every state a run reaches from an empty server: handled
    messages and registered transports both trace back to verified requests. *)
Definition provenance (evs : list Event) (st : Server) : Prop :=
  (forall h, In h (handled st) -> posted_in evs h /\ opened_in evs (on_stream h)) /\
  (forall k t, activeTransports st !! k = Some t ->
               opened_in evs t /\ k = registered_under t).

(** A post answered 400 no_active_transport, the server as it was. *)
Definition gets_no_active_transport (st : Server) (now : Z) (req : Request) : Prop :=
  step requireSession handlePostMessage st (PostMessage now req)
  = (st, no_active_transport_reply).

(** A post refused with the server as it was: 400 no_active_transport when
    its session verifies, 401 invalid_session when it does not. *)
Definition refused (st : Server) (now : Z) (req : Request) : Prop :=
  step requireSession handlePostMessage st (PostMessage now req)
  = (st, match fst (requireSession now req fresh_response) with
         | Some _ => no_active_transport_reply
         | None => invalid_session_reply
         end).

End ServerStatements.

(** ** Statements about the Gmail service *)

(** Two requests that differ at most in what identifies the caller. *)
Definition same_but_caller (r1 r2 : Gmail.GRequest) : Prop :=
  Gmail.query r1 = Gmail.query r2 /\
  Gmail.route_messageId r1 = Gmail.route_messageId r2 /\
  Gmail.payload r1 = Gmail.payload r2.

(** The API calls made between two states. *)
Definition new_calls (st st' : Gmail.State) : list (option Json * Gmail.GCall) :=
  skipn (length (Gmail.calls st)) (Gmail.calls st').

(** The two requests are answered alike, state and reply, and every API
    call made for them carries the credentials stored under "user1". *)
Definition caller_blind (G : Gmail.GmailEnv) (ep : Gmail.Endpoint)
    (req1 req2 : Gmail.GRequest) (st : Gmail.State) : Prop :=
  Gmail.serve G ep req1 st = Gmail.serve G ep req2 st /\
  Forall (fun c => fst c = Gmail.userTokens st !! "user1")
         (new_calls st (fst (Gmail.serve G ep req1 st))).

(** A later state that kept the stored tokens and the client's
    credentials, every call in between made with [cred]. *)
Definition extends (cred : option Json) (st st' : Gmail.State) : Prop :=
  Gmail.userTokens st' = Gmail.userTokens st /\
  Gmail.client_credentials st' = Gmail.client_credentials st /\
  exists l, Gmail.calls st' = Gmail.calls st ++ l /\ Forall (fun c => fst c = cred) l.

(** ** Sample data *)

Module Sample.

Definition secret : string := "0f3a-session-secret".

Definition empty_world : World := {| table := []; log := [] |}.

Definition unauthorized : HttpResp := {| status := 401; text := "AuthenticationFailed" |}.
Definition success : HttpResp := {| status := 200; text := "{}" |}.

Definition rotated : TokenData :=
  {| d_access_token := "at-2"; d_refresh_token := Some "rt-2"; d_expires_in := Some 3600 |}.

(** An upstream that rejects every bearer token, next to a token endpoint
    that refreshes without complaint. *)
Definition rejecting : Env :=
  {| api := fun _ _ => unauthorized;
     token_endpoint := fun _ _ => success;
     JSON_parse := fun _ => Some (JObject []);
     parse_token_data := fun _ => Some rotated;
     clock := fun _ => 1700000000;
     db_stamp := fun _ => "2023-11-14T22:13:20Z" |}.

Definition issued : Z := 1700000000.

(** Session tokens the orchestrator could mint under the shared secret:
    one for the Housecall Pro server, two for the QuickBooks server, and
    one whose hour ran out a second before [issued]. *)
Definition hcp_token : Jwt.Token :=
  Jwt.sign (JsNum 7) issued secret "housecallpro-mcp" "backend" 900.
Definition user1_token : Jwt.Token :=
  Jwt.sign (JsNum 1) issued secret "mcp" "backend" 3600.
Definition user2_token : Jwt.Token :=
  Jwt.sign (JsNum 2) issued secret "mcp" "backend" 3600.
Definition expired_token : Jwt.Token :=
  Jwt.sign (JsNum 1) (issued - 3601) secret "mcp" "backend" 3600.

Definition codec : Jwt.Codec :=
  {| Jwt.parse := fun s =>
       if String.eqb s "hcp.jwt" then Some hcp_token
       else if String.eqb s "user1.jwt" then Some user1_token
       else if String.eqb s "user2.jwt" then Some user2_token
       else if String.eqb s "expired.jwt" then Some expired_token
       else None |}.

(** A request presenting [token] as [Authorization: Bearer]. *)
Definition bearing (token : string) (sid : option string) (msg : Json) : Request :=
  {| authorization := Some ("Bearer " +:+ token); x_session := None;
     query_sessionId := sid; body := msg |}.

Definition user1 : Ctx := {| userId := JsNum 1 |}.
Definition user2 : Ctx := {| userId := JsNum 2 |}.

(** A [tools/call] of [get_customer_by_id]. *)
Definition get_customer_42 : Json :=
  JObject [("jsonrpc", JString "2.0"); ("id", JNumber 1);
           ("method", JString "tools/call");
           ("params", JObject [("name", JString "get_customer_by_id");
                               ("arguments", JObject [("customerId", JString "42")])])].

(** User 1 and user 2 each open a stream; a post bearing user 2's token
    names user 1's stream. *)
Definition crossed_post : list Event :=
  [OpenStream (issued + 1) "7f9c-stream" Connected (bearing "user1.jwt" None JNull);
   OpenStream (issued + 2) "b2e4-stream" Connected (bearing "user2.jwt" None JNull);
   PostMessage (issued + 3) (bearing "user2.jwt" (Some "7f9c-stream") get_customer_42)].

(** The post of [crossed_post] as the transport handled it. *)
Definition crossed_entry : Handled :=
  {| on_stream := {| sessionId := "7f9c-stream"; opened_as := user1 |};
     ambient := Some user2;
     message := get_customer_42;
     outcome := inr (JObject []) |}.

(** Two chat requests from different clients. *)
Definition chat_body_a : Json := JObject [("message", JString "List my customers")].
Definition chat_body_b : Json := JObject [("message", JString "Show unpaid invoices")].

(** A Gmail API that accepts every call. *)
Definition gmail_env : Gmail.GmailEnv :=
  {| Gmail.getToken := fun _ => Some (JObject [("access_token", JString "ya29.sample")]);
     Gmail.gmail := fun _ _ => inr (JObject [("id", JString "18c1"); ("threadId", JString "18c0")]);
     Gmail.base64 := fun s => s;
     Gmail.toISOString := "2023-11-14T22:13:20.000Z";
     Gmail.parseInt := fun _ => Some 10;
     Gmail.format_full := fun j => j;
     Gmail.format_metadata := fun j => j |}.

(** The service after one account was connected. *)
Definition gmail_connected : Gmail.State :=
  {| Gmail.userTokens := {["user1" := JObject [("access_token", JString "ya29.sample")]]};
     Gmail.client_credentials := Some (JObject [("access_token", JString "ya29.sample")]);
     Gmail.calls := [] |}.

Definition mail : Json :=
  JObject [("to", JString "pat@example.com"); ("subject", JString "Invoice 1041");
           ("body", JString "<p>Attached.</p>")].

(** The same send request from two different callers. *)
Definition send_from_alice : Gmail.GRequest :=
  {| Gmail.headers := [("authorization", "Bearer alice.jwt")];
     Gmail.cookies := [("sid", "alice")];
     Gmail.query := []; Gmail.route_messageId := ""; Gmail.payload := Some mail |}.

Definition send_from_bob : Gmail.GRequest :=
  {| Gmail.headers := [];
     Gmail.cookies := [("sid", "bob")];
     Gmail.query := []; Gmail.route_messageId := ""; Gmail.payload := Some mail |}.

(** A post without any session header, for a stream that is not there. *)
Definition anonymous_post : Request :=
  {| authorization := None; x_session := None;
     query_sessionId := Some "7f9c-stream"; body := get_customer_42 |}.

(** An upstream that serves every request. *)
Definition serving : Env :=
  {| api := fun _ _ => success;
     token_endpoint := fun _ _ => success;
     JSON_parse := fun _ => Some (JObject []);
     parse_token_data := fun _ => Some rotated;
     clock := fun _ => issued;
     db_stamp := fun _ => "2023-11-14T22:13:20Z" |}.

(** A store with a QuickBooks credential for user 1 and one for user 2. *)
Definition two_tenants : World :=
  {| table := [ {| id := 1; user_id := "1"; provider := "quickbooks";
                   access_token := "at-user1"; refresh_token := Some "rt-user1";
                   realm_id := Some "9130"; expires_at := None;
                   created_at := "2023-11-01T00:00:00Z";
                   updated_at := "2023-11-01T00:00:00Z" |};
                {| id := 2; user_id := "2"; provider := "quickbooks";
                   access_token := "at-user2"; refresh_token := Some "rt-user2";
                   realm_id := Some "4620"; expires_at := None;
                   created_at := "2023-11-02T00:00:00Z";
                   updated_at := "2023-11-02T00:00:00Z" |} ];
     log := [] |}.

(** A token endpoint that turns the refresh token down. *)
Definition refusing : Env :=
  {| api := fun _ _ => unauthorized;
     token_endpoint := fun _ _ => {| status := 400; text := "invalid_grant" |};
     JSON_parse := fun _ => Some (JObject []);
     parse_token_data := fun _ => None;
     clock := fun _ => 1700000000;
     db_stamp := fun _ => "2023-11-14T22:13:20Z" |}.



Definition zero_lifetime_data : TokenData :=
  {| d_access_token := "at-2"; d_refresh_token := None; d_expires_in := Some 0 |}.

(** A token endpoint whose reply carries [expires_in: 0]. *)
Definition zero_lifetime : Env :=
  {| api := fun _ _ => success;
     token_endpoint := fun _ _ => success;
     JSON_parse := fun _ => Some (JObject []);
     parse_token_data := fun _ => Some zero_lifetime_data;
     clock := fun _ => 1700000000;
     db_stamp := fun _ => "2023-11-14T22:13:20Z" |}.

(** A store holding one QuickBooks credential, for user 1. *)
Definition connected_world : World :=
  {| table := [ {| id := 1; user_id := "1"; provider := "quickbooks";
                   access_token := "at-1"; refresh_token := Some "rt-1";
                   realm_id := Some "9130"; expires_at := Some 1600000000;
                   created_at := "2020-09-13T12:26:40Z";
                   updated_at := "2020-09-13T12:26:40Z" |} ];
     log := [] |}.


Definition first_write : UpsertArg :=
  {| u_userId := "1"; u_provider := "quickbooks"; u_access_token := "at-1";
     u_refresh_token := Some "rt-1"; u_realmId := Some "9130"; u_expires_at := Some 1700003600 |}.

Definition second_write : UpsertArg :=
  {| u_userId := "1"; u_provider := "quickbooks"; u_access_token := "at-2";
     u_refresh_token := Some "rt-1"; u_realmId := Some "9130"; u_expires_at := None |}.

End Sample.


(** ** Further statements: the token store *)

(** What a reader of the store sees change between two worlds: nothing,
    for the keys other than [(uid, prov)]. *)
Definition others_untouched (uid prov : string) (w w' : World) : Prop :=
  forall uid' prov', (uid', prov') <> (uid, prov) ->
    lookup_tokens uid' prov' (table w') = lookup_tokens uid' prov' (table w).

(** After [upsertTokens row], reading the key back gives the record
    written, the other keys read as before, and the key stays unique. *)
Definition written_and_read_back (E : Env) (row : UpsertArg) (w : World) : Prop :=
  let w' := snd (upsertTokens E row w) in
  fst (getTokens (u_userId row) (u_provider row) w') = inr (Some (tokens_of row)) /\
  others_untouched (u_userId row) (u_provider row) w w' /\
  unique_keys (table w').

(** ** Further statements: session headers *)

(** A request whose [Authorization] header is [h], the rest as in [req]. *)
Definition with_authorization (h : option string) (req : Request) : Request :=
  {| authorization := h; x_session := x_session req;
     query_sessionId := query_sessionId req; body := body req |}.

(** A request whose [x-session] header is [h], the rest as in [req]. *)
Definition with_x_session (h : option string) (req : Request) : Request :=
  {| authorization := authorization req; x_session := h;
     query_sessionId := query_sessionId req; body := body req |}.

Module Sample2.

(** A well-signed, current token whose user id is the number 0, and one
    minted by another issuer for the Housecall Pro audience. *)
Definition zero_id_token : Jwt.Token :=
  Jwt.sign (JsNum 0) Sample.issued Sample.secret "mcp" "backend" 3600.
Definition other_issuer_token : Jwt.Token :=
  Jwt.sign (JsNum 7) Sample.issued Sample.secret "housecallpro-mcp" "staging-backend" 900.

Definition codec : Jwt.Codec :=
  {| Jwt.parse := fun s =>
       if String.eqb s "zero.jwt" then Some zero_id_token
       else if String.eqb s "other-issuer.jwt" then Some other_issuer_token
       else Jwt.parse (Codec := Sample.codec) s |}.

Definition no_headers : Request :=
  {| authorization := None; x_session := None; query_sessionId := None; body := JNull |}.

End Sample2.

(** ** Further statements: sessions *)

(** What the Housecall Pro server asks of a decoded token. *)
Definition housecallpro_admits (secret issuer : string) (now : Z) (t : Jwt.Token) : Prop :=
  Jwt.signedWith t = secret /\
  (forall n, Jwt.nbf (Jwt.payload t) = Some n -> n <= now) /\
  (forall e, Jwt.exp (Jwt.payload t) = Some e -> now < e) /\
  In "housecallpro-mcp" (Jwt.aud (Jwt.payload t)) /\
  Jwt.iss (Jwt.payload t) = Some issuer /\
  exists v, Jwt.claim_userId (Jwt.payload t) = Some v /\ truthy v = true.

(** The lifetime [/chat] gives a token: the configured one, or an hour when
    that is 0. *)
Definition session_ttl (SESSION_TTL_SECONDS : Z) : Z :=
  if SESSION_TTL_SECONDS =? 0 then 3600 else SESSION_TTL_SECONDS.

(** The clock [/chat] reads when it mints, having read the store once. *)
Definition minted_at (E : Env) (w : World) : Z :=
  clock E (log w ++ [DbGet "1" "quickbooks"]).

(** ** Further statements: the shapes a [qbRequest] run can take *)

(** The world [w] after the effects [l]. *)
Definition after (w : World) (t : list TokenRow) (l : list Effect) : World :=
  {| table := t; log := log w ++ l |}.

Definition api_calls (l : list Effect) : list (ApiCall * HttpResp) :=
  flat_map (fun e => match e with FetchApi c r => [(c, r)] | _ => [] end) l.

Definition refresh_calls (l : list Effect) : list (string * HttpResp) :=
  flat_map (fun e => match e with PostTokenEndpoint s r => [(s, r)] | _ => [] end) l.

(** The store accesses of a log all concern the pair [(uid, prov)]. *)
Definition store_access_only (uid prov : string) (l : list Effect) : Prop :=
  Forall (fun e => match e with
                   | DbGet u p => u = uid /\ p = prov
                   | DbUpsert arg => u_userId arg = uid /\ u_provider arg = prov
                   | _ => True
                   end) l.

Section QbShapes.
Variable E : Env.
Variable QB_API_BASE : string.
Variable MINOR_VERSION : Z.
Variable isAuthError : Z -> string -> bool.

(** The URL [qbRequest] builds for a row and an endpoint. *)
Definition request_url (row : Tokens) (endpoint : string) : string :=
  let base := QB_API_BASE +:+ "/v3/company/" +:+ default "" (t_realmId row)
              +:+ "/" +:+ endpoint in
  base +:+ (if includes "?" base
            then "&minorversion=" +:+ pretty MINOR_VERSION
            else "?minorversion=" +:+ pretty MINOR_VERSION).

(** The request [doFetch] sends. *)
Definition sent_call (url : string) (opts : QbClient.QbOpts) (accessToken : string) : ApiCall :=
  {| url := url;
     method := default "GET" (QbClient.o_method opts);
     bearer := accessToken;
     sent_body := match QbClient.o_body opts with
                  | Some b => if truthy_json b then Some b else None
                  | None => None
                  end |}.

(** What [doFetch] makes of a reply. *)
Definition fetch_outcome (row : Tokens) (resp : HttpResp) : Exn + QbClient.FetchResult :=
  if negb (status_ok (status resp)) then
    if isAuthError (status resp) (text resp) && truthy_str (t_refresh_token row)
    then inr (QbClient.NeedRefresh (text resp))
    else inl (Error ("QBO error: " +:+ pretty (status resp) +:+ " " +:+ text resp))
  else
    match JSON_parse E (if String.eqb (text resp) "" then "{}" else text resp) with
    | Some j => inr (QbClient.Parsed j)
    | None => inl SyntaxError
    end.

(** A stored credential [qbRequest] will use: access token and realm id. *)
Definition usable (row : Tokens) : bool :=
  negb (String.eqb (t_access_token row) "") && truthy_str (t_realmId row).

Variable c : Ctx.
Variable endpoint : string.
Variable opts : QbClient.QbOpts.
Variable w : World.

Definition tenant : string := String_ (userId c).
Definition first_get : Effect := DbGet tenant "quickbooks".
Definition call1 (row : Tokens) : ApiCall :=
  sent_call (request_url row endpoint) opts (t_access_token row).
Definition reply1 (row : Tokens) : HttpResp := api E (log w ++ [first_get]) (call1 row).
Definition fetch1 (row : Tokens) : Effect := FetchApi (call1 row) (reply1 row).
Definition refresh_sent (row : Tokens) : string := default "null" (t_refresh_token row).
Definition refresh_resp (row : Tokens) : HttpResp :=
  token_endpoint E (log w ++ [first_get; fetch1 row]) (refresh_sent row).
Definition refresh1 (row : Tokens) : Effect :=
  PostTokenEndpoint (refresh_sent row) (refresh_resp row).
Definition written (row : Tokens) (data : TokenData) : UpsertArg :=
  refreshed_record expiry_computed
    (clock E (log w ++ [first_get; fetch1 row; refresh1 row]))
    (t_refresh_token row) tenant (t_realmId row) data.
Definition refreshed_table (row : Tokens) (data : TokenData) : list TokenRow :=
  upsert_rows (db_stamp E (log w ++ [first_get; fetch1 row; refresh1 row]))
    (written row data) (table w).
Definition before_retry (row : Tokens) (data : TokenData) : list Effect :=
  [first_get; fetch1 row; refresh1 row; DbUpsert (written row data); first_get].
Definition call2 (row latest : Tokens) : ApiCall :=
  sent_call (request_url row endpoint) opts (t_access_token latest).
Definition reply2 (row : Tokens) (data : TokenData) (latest : Tokens) : HttpResp :=
  api E (log w ++ before_retry row data) (call2 row latest).
Definition fetch2 (row : Tokens) (data : TokenData) (latest : Tokens) : Effect :=
  FetchApi (call2 row latest) (reply2 row data latest).

(** Every way a call under context [c] can go: its result and the world
    it leaves. *)
Inductive QbRun : Exn + Json -> World -> Prop :=
| not_connected :
    match lookup_tokens tenant "quickbooks" (table w) with
    | Some row => usable row = false
    | None => True
    end ->
    QbRun (inl (Error "QuickBooks not connected")) (after w (table w) [first_get])
| first_threw row e :
    lookup_tokens tenant "quickbooks" (table w) = Some row -> usable row = true ->
    fetch_outcome row (reply1 row) = inl e ->
    QbRun (inl e) (after w (table w) [first_get; fetch1 row])
| first_served row res :
    lookup_tokens tenant "quickbooks" (table w) = Some row -> usable row = true ->
    fetch_outcome row (reply1 row) = inr res -> QbClient.needRefresh res = false ->
    QbRun (inr (QbClient.result_json res)) (after w (table w) [first_get; fetch1 row])
| refresh_refused row res :
    lookup_tokens tenant "quickbooks" (table w) = Some row -> usable row = true ->
    fetch_outcome row (reply1 row) = inr res -> QbClient.needRefresh res = true ->
    status_ok (status (refresh_resp row)) = false ->
    QbRun (inl (Error ("QBO refresh failed: " +:+ pretty (status (refresh_resp row))
                       +:+ " " +:+ text (refresh_resp row))))
          (after w (table w) [first_get; fetch1 row; refresh1 row])
| refresh_unparsed row res :
    lookup_tokens tenant "quickbooks" (table w) = Some row -> usable row = true ->
    fetch_outcome row (reply1 row) = inr res -> QbClient.needRefresh res = true ->
    status_ok (status (refresh_resp row)) = true ->
    parse_token_data E (text (refresh_resp row)) = None ->
    QbRun (inl SyntaxError) (after w (table w) [first_get; fetch1 row; refresh1 row])
| refreshed_without_token row res data :
    lookup_tokens tenant "quickbooks" (table w) = Some row -> usable row = true ->
    fetch_outcome row (reply1 row) = inr res -> QbClient.needRefresh res = true ->
    status_ok (status (refresh_resp row)) = true ->
    parse_token_data E (text (refresh_resp row)) = Some data ->
    match lookup_tokens tenant "quickbooks" (refreshed_table row data) with
    | Some latest => t_access_token latest = ""
    | None => True
    end ->
    QbRun (inl (Error "Refresh succeeded but no access token"))
          (after w (refreshed_table row data) (before_retry row data))
| retry_threw row res data latest e :
    lookup_tokens tenant "quickbooks" (table w) = Some row -> usable row = true ->
    fetch_outcome row (reply1 row) = inr res -> QbClient.needRefresh res = true ->
    status_ok (status (refresh_resp row)) = true ->
    parse_token_data E (text (refresh_resp row)) = Some data ->
    lookup_tokens tenant "quickbooks" (refreshed_table row data) = Some latest ->
    t_access_token latest <> "" ->
    fetch_outcome row (reply2 row data latest) = inl e ->
    QbRun (inl e)
          (after w (refreshed_table row data) (before_retry row data ++ [fetch2 row data latest]))
| retry_unauthorized row res data latest res2 :
    lookup_tokens tenant "quickbooks" (table w) = Some row -> usable row = true ->
    fetch_outcome row (reply1 row) = inr res -> QbClient.needRefresh res = true ->
    status_ok (status (refresh_resp row)) = true ->
    parse_token_data E (text (refresh_resp row)) = Some data ->
    lookup_tokens tenant "quickbooks" (refreshed_table row data) = Some latest ->
    t_access_token latest <> "" ->
    fetch_outcome row (reply2 row data latest) = inr res2 ->
    QbClient.needRefresh res2 = true ->
    QbRun (inl (Error "Unauthorized after refresh"))
          (after w (refreshed_table row data) (before_retry row data ++ [fetch2 row data latest]))
| retry_served row res data latest res2 :
    lookup_tokens tenant "quickbooks" (table w) = Some row -> usable row = true ->
    fetch_outcome row (reply1 row) = inr res -> QbClient.needRefresh res = true ->
    status_ok (status (refresh_resp row)) = true ->
    parse_token_data E (text (refresh_resp row)) = Some data ->
    lookup_tokens tenant "quickbooks" (refreshed_table row data) = Some latest ->
    t_access_token latest <> "" ->
    fetch_outcome row (reply2 row data latest) = inr res2 ->
    QbClient.needRefresh res2 = false ->
    QbRun (inr (QbClient.result_json res2))
          (after w (refreshed_table row data) (before_retry row data ++ [fetch2 row data latest])).

End QbShapes.

(** ** Further statements: the API client *)

(** The stored credential for [c] is missing or lacks what a call needs. *)
Definition unusable_credential (c : Ctx) (w : World) : Prop :=
  match lookup_tokens (tenant c) "quickbooks" (table w) with
  | Some row => usable row = false
  | None => True
  end.

(** The stored credential for [c], if any, holds no refresh token. *)
Definition no_refresh_token (c : Ctx) (w : World) : Prop :=
  match lookup_tokens (tenant c) "quickbooks" (table w) with
  | Some row => truthy_str (t_refresh_token row) = false
  | None => True
  end.

Definition qbo_error (resp : HttpResp) : Exn :=
  Error ("QBO error: " +:+ pretty (status resp) +:+ " " +:+ text resp).

Definition refresh_error (resp : HttpResp) : Exn :=
  Error ("QBO refresh failed: " +:+ pretty (status resp) +:+ " " +:+ text resp).

(** [result?.needRefresh] of a parsed reply body. *)
Definition body_asks_refresh (j : Json) : bool := QbClient.needRefresh (QbClient.Parsed j).

Module Sample3.

(** An upstream that is down, with a working token endpoint. *)
Definition failing : Env :=
  {| api := fun _ _ => {| status := 503; text := "Service Unavailable" |};
     token_endpoint := fun _ _ => Sample.success;
     JSON_parse := fun _ => Some (JObject []);
     parse_token_data := fun _ => Some Sample.rotated;
     clock := fun _ => Sample.issued;
     db_stamp := fun _ => "2023-11-14T22:13:20Z" |}.

(** An upstream that rejects the stored token and serves the refreshed one. *)
Definition expiring : Env :=
  {| api := fun _ call => if String.eqb (bearer call) "at-2" then Sample.success
                          else Sample.unauthorized;
     token_endpoint := fun _ _ => Sample.success;
     JSON_parse := fun _ => Some (JObject []);
     parse_token_data := fun _ => Some Sample.rotated;
     clock := fun _ => Sample.issued;
     db_stamp := fun _ => "2023-11-14T22:13:20Z" |}.

(** An upstream whose 200 replies carry a [needRefresh] member. *)
Definition echoing : Env :=
  {| api := fun _ _ => {| status := 200; text := "needRefresh" |};
     token_endpoint := fun _ _ => Sample.success;
     JSON_parse := fun _ => Some (JObject [("needRefresh", JBool true)]);
     parse_token_data := fun _ => Some Sample.rotated;
     clock := fun _ => Sample.issued;
     db_stamp := fun _ => "2023-11-14T22:13:20Z" |}.

(** A store whose only credential lacks the realm id. *)
Definition half_connected : World :=
  {| table := [ {| id := 1; user_id := "1"; provider := "quickbooks";
                   access_token := "at-1"; refresh_token := Some "rt-1";
                   realm_id := None; expires_at := None;
                   created_at := "2023-11-01T00:00:00Z";
                   updated_at := "2023-11-01T00:00:00Z" |} ];
     log := [] |}.

Definition get_customer : ApiCall :=
  {| url := "https://sandbox-quickbooks.api.intuit.com/v3/company/9130/customer/42?minorversion=75";
     method := "GET"; bearer := "at-1"; sent_body := None |}.

End Sample3.

Module Sample4.

Definition base : string := "https://sandbox-quickbooks.api.intuit.com".

(** [get_customer] again, bearing the rotated access token. *)
Definition get_customer_again : ApiCall :=
  {| url := url Sample3.get_customer; method := "GET"; bearer := "at-2"; sent_body := None |}.

Definition unavailable : HttpResp := {| status := 503; text := "Service Unavailable" |}.
Definition invalid_grant : HttpResp := {| status := 400; text := "invalid_grant" |}.
Definition asks_refresh : HttpResp := {| status := 200; text := "needRefresh" |}.

(** A call of user 1 for customer 42 against the one-credential store. *)
Definition run (E : Env) : (Exn + Json) * World :=
  QbClient.qbRequest E base 75 QuickBooksNum.isAuthError (Some Sample.user1)
    "customer/42" QbClient.default_opts Sample.connected_world.

End Sample4.

(** ** Further statements: streams *)

(** The key [/sse] registers a transport under. *)
Definition stream_key (sdk_sessionId : string) : string :=
  or_else (Some sdk_sessionId) "default".

Module Sample5.

(** A stream whose connect throws before any header went out, then closes. *)
Definition failed_open : list Event :=
  [OpenStream (Sample.issued + 1) "7f9c-stream" ThrewBeforeHeaders
     (Sample.bearing "user1.jwt" None JNull);
   PostMessage (Sample.issued + 2) Sample.anonymous_post;
   CloseStream "7f9c-stream"].

End Sample5.

(** ** The orchestrator's SMS route and the UI's phone helpers *)

Module Sms.

(** [\d]. *)
Definition is_digit (c : ascii) : bool :=
  let n := nat_of_ascii c in (Nat.leb 48 n && Nat.leb n 57)%bool.

(** [[1-9]]. *)
Definition is_digit_1_9 (c : ascii) : bool :=
  let n := nat_of_ascii c in (Nat.leb 49 n && Nat.leb n 57)%bool.

(** [s.replace(/\D/g, '')]. *)
Fixpoint strip_non_digits (s : string) : string :=
  match s with
  | EmptyString => EmptyString
  | String c s' => if is_digit c then String c (strip_non_digits s') else strip_non_digits s'
  end.

(** [\d*] up to the end of the input. *)
Fixpoint all_digits (s : string) : bool :=
  match s with
  | EmptyString => true
  | String c s' => is_digit c && all_digits s'
  end.

(** [/^\+?[1-9]\d{1,14}$/.test(s)]. *)
Definition phoneRegex_test (s : string) : bool :=
  let after_plus := match s with
                    | String c s' => if Ascii.eqb c "+" then s' else s
                    | EmptyString => s
                    end in
  match after_plus with
  | String c ds =>
    is_digit_1_9 c && all_digits ds
    && Nat.leb 1 (String.length ds) && Nat.leb (String.length ds) 14
  | EmptyString => false
  end.

(** The number [/sms/send] dials for the [to] it was given. *)
Definition formattedPhone (to : string) : string :=
  let formattedPhone := strip_non_digits to in
  if Nat.eqb (String.length formattedPhone) 10 then "+1" +:+ formattedPhone
  else if Nat.eqb (String.length formattedPhone) 11 && startsWith "1" formattedPhone
  then "+" +:+ formattedPhone
  else if negb (startsWith "+" formattedPhone) then "+" +:+ formattedPhone
  else formattedPhone.

Record TwilioMessage := { sid : string; message_status : string }.

(** What [messages.create] throws: [error.code] and [error.message]. *)
Record TwilioError := { code : option Z; error_message : string }.

(** The argument of [twilioClient.messages.create]. *)
Record CreateArgs := { create_body : Json; create_from : option string; create_to : string }.

Record SmsEnv := {
  twilioClient : option (CreateArgs -> TwilioError + TwilioMessage);
  TWILIO_PHONE_NUMBER : option string;
  toISOString : string;
}.

Definition truthy_field (v : option Json) : bool :=
  match v with
  | Some j => truthy_json j
  | None => false
  end.

(** [POST /sms/send]: the calls made to Twilio and the reply. A truthy
    [to] that is not a string has no [replace], and the [TypeError] lands
    in the handler's [catch]. *)
Definition sms_send (S : SmsEnv) (body : Json) : list CreateArgs * (Z * Json) :=
  let to := prop "to" body in
  let message := prop "message" body in
  if negb (truthy_field to) || negb (truthy_field message)
  then ([], (400, error_body "to and message are required"))
  else
    match twilioClient S with
    | None => ([], (503, error_body "SMS service not configured"))
    | Some create =>
      match to, message with
      | Some (JString to), Some message =>
        let formattedPhone := formattedPhone to in
        if negb (phoneRegex_test formattedPhone)
        then ([], (400, error_body "Invalid phone number format"))
        else
          let args := {| create_body := message; create_from := TWILIO_PHONE_NUMBER S;
                         create_to := formattedPhone |} in
          match create args with
          | inr twilioMessage =>
            ([args], (200, JObject [("success", JBool true);
                                    ("messageSid", JString (sid twilioMessage));
                                    ("to", JString formattedPhone);
                                    ("status", JString (message_status twilioMessage));
                                    ("timestamp", JString (toISOString S))]))
          | inl error =>
            ([args],
             match code error with
             | Some n =>
               if negb (n =? 0)
               then (400, JObject [("error", JString ("Twilio Error " +:+ pretty n +:+ ": "
                                                      +:+ error_message error));
                                   ("code", JNumber n)])
               else (500, error_body "Failed to send SMS")
             | None => (500, error_body "Failed to send SMS")
             end)
          end
      | _, _ => ([], (500, error_body "Failed to send SMS"))
      end
    end.

End Sms.

Module SMSService.

(** [s.slice(0, n)]. *)
Fixpoint slice_to (n : nat) (s : string) : string :=
  match n, s with
  | S n', String c s' => String c (slice_to n' s')
  | _, _ => EmptyString
  end.

(** [s.slice(a, b)] for [0 <= a <= b]. *)
Definition slice_between (a b : nat) (s : string) : string := slice_to (b - a) (slice a s).

Definition us_display (number : string) : string :=
  "+1 (" +:+ slice_between 0 3 number +:+ ") " +:+ slice_between 3 6 number
  +:+ "-" +:+ slice 6 number.

Definition formatPhoneNumber (phoneNumber : string) : string :=
  let cleaned := Sms.strip_non_digits phoneNumber in
  if Nat.eqb (String.length cleaned) 11 && startsWith "1" cleaned
  then us_display (slice 1 cleaned)
  else if Nat.eqb (String.length cleaned) 10 then us_display cleaned
  else phoneNumber.

Definition validatePhoneNumber (phoneNumber : string) : bool :=
  let cleaned := Sms.strip_non_digits phoneNumber in
  if Nat.eqb (String.length cleaned) 10 then true
  else if Nat.eqb (String.length cleaned) 11 && startsWith "1" cleaned then true
  else if Nat.leb 7 (String.length cleaned) && Nat.leb (String.length cleaned) 15 then true
  else false.

End SMSService.

(** ** Statements about the SMS route *)

(** A [+], a digit from 1 to 9, then one to fourteen digits. *)
Definition e164_shaped (s : string) : Prop :=
  exists d ds, s = String "+" (String d ds) /\ Sms.is_digit_1_9 d = true /\
               Sms.all_digits ds = true /\ (1 <= String.length ds <= 14)%nat.

(** The digit strings [/sms/send] goes on to dial: ten digits, or two to
    fifteen with a first digit other than 0. *)
Definition dialable (digits : string) : bool :=
  Nat.eqb (String.length digits) 10
  || (Nat.leb 2 (String.length digits) && Nat.leb (String.length digits) 15
      && negb (startsWith "0" digits)).

Module Sample6.

Definition twilio : Sms.SmsEnv :=
  {| Sms.twilioClient := Some (fun _ => inr {| Sms.sid := "SM3f1a"; Sms.message_status := "queued" |});
     Sms.TWILIO_PHONE_NUMBER := Some "+15005550006";
     Sms.toISOString := "2023-11-14T22:13:20.000Z" |}.

Definition text_to (to : string) : Json :=
  JObject [("to", JString to); ("message", JString "Your invoice is ready")].

End Sample6.

(** ** The orchestrator's QuickBooks OAuth callback *)

Module BackendOAuth.
Section Callback.
Variable E : Env.
Variable FRONTEND_ORIGIN : string.

Definition qbo_error : string := FRONTEND_ORIGIN +:+ "?qbo=error".
Definition qbo_connected : string := FRONTEND_ORIGIN +:+ "?qbo=connected".

(** What the callback stores for the token reply [data]. *)
Definition stored (now : Z) (realmId : option string) (data : TokenData) : UpsertArg :=
  {| u_userId := String_ (JsNum 1);
     u_provider := "quickbooks";
     u_access_token := d_access_token data;
     u_refresh_token := d_refresh_token data;
     u_realmId := realmId;
     u_expires_at := match d_expires_in data with
                     | Some n => if n =? 0 then None else Some (now + n)
                     | None => None
                     end |}.

(** [GET /oauth/qbo/callback]: the redirect it answers with. The code goes
    to the same token endpoint the refresh uses, as an authorization-code
    grant; a reply that is not JSON makes [tokenResp.json()] throw into the
    handler's [catch]. *)
Definition oauth_qbo_callback (query_code query_realmId : option string) : M string :=
  let code := or_else query_code "" in
  let realmId := if truthy_str query_realmId then query_realmId else None in
  if String.eqb code "" then ret qbo_error
  else
    h <- history ;;
    let tokenResp := token_endpoint E h code in
    emit (PostTokenEndpoint code tokenResp) ;;;
    if negb (status_ok (status tokenResp)) then ret qbo_error
    else
      match parse_token_data E (text tokenResp) with
      | None => ret qbo_error
      | Some data =>
        h' <- history ;;
        upsertTokens E (stored (clock E h') realmId data) ;;;
        ret qbo_connected
      end.

(** [GET /qbo-status]. *)
Definition qbo_status : M (Z * Json) :=
  connected <- Backend.isQboConnected E (JsNum 1) ;;
  ret (200, JObject [("connected", JBool connected)]).

End Callback.
End BackendOAuth.

(** ** Statements about the OAuth callback *)

(** [isQboConnected] for a stored expiry, read at [now]. *)
Definition unexpired (expires_at : option Z) (now : Z) : bool :=
  match expires_at with
  | Some e => (e =? 0) || (now <? e)
  | None => true
  end.

(** The exchange a callback with [code] performs from [w], and the clock it
    reads after it. *)
Definition exchange_reply (E : Env) (code : string) (w : World) : HttpResp :=
  token_endpoint E (log w) code.
Definition exchanged_at (E : Env) (code : string) (w : World) : Z :=
  clock E (log w ++ [PostTokenEndpoint code (exchange_reply E code w)]).

Module Sample7.

Definition origin : string := "https://app.example.com".

(** A clock that advances one second with every effect. *)
Definition ticking : Env :=
  {| api := fun _ _ => Sample.success;
     token_endpoint := fun _ _ => Sample.success;
     JSON_parse := fun _ => Some (JObject []);
     parse_token_data := fun _ => Some Sample.rotated;
     clock := fun h => Sample.issued + Z.of_nat (length h);
     db_stamp := fun _ => "2023-11-14T22:13:20Z" |}.

End Sample7.

(** ** The Housecall Pro API client *)

Module HousecallProApi.

(** A value of [opts.params], already rendered by [String(...)]. *)
Inductive ParamValue :=
| PArray (items : list string)
| PScalar (s : string)
| PNullish.

Record HpOpts := {
  o_method : option string;
  o_body : option Json;
  o_params : option (list (string * ParamValue));
}.

Definition default_opts : HpOpts := {| o_method := None; o_body := None; o_params := None |}.

(** What the [forEach] over [Object.entries(opts.params)] appends. *)
Definition query_pairs (params : list (string * ParamValue)) : list (string * string) :=
  flat_map (fun kv => match snd kv with
                      | PArray items => List.map (fun v => (fst kv +:+ "[]", v)) items
                      | PScalar s => [(fst kv, s)]
                      | PNullish => []
                      end) params.

Section Client.
Variable E : Env.
Variable HP_API_KEY : string.
(** The percent-encoding of one name or value. *)
Variable encode : string -> string.

(** [params.toString()]. *)
Fixpoint toString (pairs : list (string * string)) : string :=
  match pairs with
  | [] => ""
  | [kv] => encode (fst kv) +:+ "=" +:+ encode (snd kv)
  | kv :: rest => encode (fst kv) +:+ "=" +:+ encode (snd kv) +:+ "&" +:+ toString rest
  end.

Definition request_url (endpoint : string) (opts : HpOpts) : string :=
  let url := "https://api.housecallpro.com" +:+ endpoint in
  match o_params opts with
  | Some params =>
    let queryString := toString (query_pairs params) in
    if negb (String.eqb queryString "") then url +:+ "?" +:+ queryString else url
  | None => url
  end.

Definition hpRequest (ctx : option Ctx) (endpoint : string) (opts : HpOpts) : M Json :=
  match ctx with
  | None => throw (Error "Missing request context")
  | Some _ =>
    h <- history ;;
    let call := {| url := request_url endpoint opts;
                   method := default "GET" (o_method opts);
                   bearer := HP_API_KEY;
                   sent_body := match o_body opts with
                                | Some b => if truthy_json b then Some b else None
                                | None => None
                                end |} in
    let resp := api E h call in
    emit (FetchApi call resp) ;;;
    if negb (status_ok (status resp))
    then throw (Error ("Housecall Pro API error: " +:+ pretty (status resp)
                       +:+ " " +:+ text resp))
    else if String.eqb (text resp) "" then ret (JObject [])
    else match JSON_parse E (text resp) with
         | Some j => ret j
         | None => throw SyntaxError
         end
  end.

End Client.
End HousecallProApi.

(** ** Statements about the Housecall Pro client *)

(** Some entry of [params] puts a pair into the query string. *)
Definition carries_value (params : list (string * HousecallProApi.ParamValue)) : Prop :=
  exists k v, In (k, v) params /\
              match v with
              | HousecallProApi.PArray items => items <> []
              | HousecallProApi.PScalar _ => True
              | HousecallProApi.PNullish => False
              end.

Module Sample8.

Definition listing : HousecallProApi.HpOpts :=
  {| HousecallProApi.o_method := None;
     HousecallProApi.o_body := None;
     HousecallProApi.o_params :=
       Some [("q", HousecallProApi.PNullish);
             ("page", HousecallProApi.PScalar "1");
             ("location_ids", HousecallProApi.PArray ["loc_1"; "loc_2"])] |}.

End Sample8.

(** ** The QuickBooks customer tools that write *)

Module QuickBooksTools.

(** [if (input.k) qbo.K = wrap(input.k)]. *)
Definition when_truthy (input : Json) (k K : string) (wrap : Json -> Json)
  : list (string * Json) :=
  match prop k input with
  | Some v => if truthy_json v then [(K, wrap v)] else []
  | None => []
  end.

(** A member that is [undefined] does not survive [JSON.stringify]. *)
Definition member (K : string) (v : option Json) : list (string * Json) :=
  match v with
  | Some v => [(K, v)]
  | None => []
  end.

Definition address (a : Json) : Json :=
  JObject (member "Line1" (prop "line1" a)
           ++ member "Line2" (prop "line2" a)
           ++ member "City" (prop "city" a)
           ++ member "CountrySubDivisionCode" (prop "countrySubDivisionCode" a)
           ++ member "PostalCode" (prop "postalCode" a)
           ++ member "Country" (prop "country" a)).

Definition FreeFormNumber (v : Json) : Json := JObject [("FreeFormNumber", v)].

(** The members of the object [mapCustomerInputToQBO] returns, in the
    order they are assigned. *)
Definition mapCustomerInputToQBO (input : Json) : list (string * Json) :=
  when_truthy input "displayName" "DisplayName" (fun v => v)
  ++ when_truthy input "companyName" "CompanyName" (fun v => v)
  ++ when_truthy input "title" "Title" (fun v => v)
  ++ when_truthy input "givenName" "GivenName" (fun v => v)
  ++ when_truthy input "middleName" "MiddleName" (fun v => v)
  ++ when_truthy input "familyName" "FamilyName" (fun v => v)
  ++ when_truthy input "suffix" "Suffix" (fun v => v)
  ++ match prop "taxExempt" input with
     | Some (JBool b) => [("Taxable", JBool (negb b))]
     | _ => []
     end
  ++ when_truthy input "notes" "Notes" (fun v => v)
  ++ when_truthy input "primaryEmail" "PrimaryEmailAddr" (fun v => JObject [("Address", v)])
  ++ when_truthy input "primaryPhone" "PrimaryPhone" FreeFormNumber
  ++ when_truthy input "mobilePhone" "Mobile" FreeFormNumber
  ++ when_truthy input "fax" "Fax" FreeFormNumber
  ++ when_truthy input "billAddr" "BillAddr" address
  ++ when_truthy input "shipAddr" "ShipAddr" address.

Definition get_opts : QbClient.QbOpts :=
  {| QbClient.o_method := Some "GET"; QbClient.o_body := None |}.

Definition post_opts (body : Json) : QbClient.QbOpts :=
  {| QbClient.o_method := Some "POST"; QbClient.o_body := Some body |}.

(** [Id] and [SyncToken] of a fetched entity, when
    [!existing?.Id || existing.SyncToken === undefined] is false. *)
Definition id_and_token (existing : option Json) : option (Json * Json) :=
  match existing with
  | Some existing =>
    match prop "Id" existing, prop "SyncToken" existing with
    | Some Id, Some SyncToken => if truthy_json Id then Some (Id, SyncToken) else None
    | _, _ => None
    end
  | None => None
  end.

(** The body [update_customer] posts. The mapper assigns none of [Id],
    [SyncToken] and [sparse], so the spreads only append. *)
Definition update_body (Id SyncToken : Json) (sparse : bool) (patch : Json) : Json :=
  JObject ([("Id", Id); ("SyncToken", SyncToken)]
           ++ (if sparse then [("sparse", JBool true)] else [])
           ++ mapCustomerInputToQBO patch).

Definition active_body (Id SyncToken : Json) (active : bool) : Json :=
  JObject [("Id", Id); ("SyncToken", SyncToken); ("sparse", JBool true);
           ("Active", JBool active)].

Section Tools.
Variable E : Env.
Variable QB_API_BASE : string.
Variable MINOR_VERSION : Z.
Variable isAuthError : Z -> string -> bool.

Definition qbRequest : option Ctx -> string -> QbClient.QbOpts -> M Json :=
  QbClient.qbRequest E QB_API_BASE MINOR_VERSION isAuthError.

Definition getCustomerRaw (store : option Ctx) (id : string) : M (option Json) :=
  data <- qbRequest store ("customer/" +:+ id) get_opts ;;
  ret (prop "Customer" data).

(** The [create_customer] tool, on its validated input. *)
Definition create_customer (store : option Ctx) (input : Json) : M Json :=
  data <- qbRequest store "customer" (post_opts (JObject (mapCustomerInputToQBO input))) ;;
  ret (prop_or_self "Customer" data).

(** The [update_customer] tool, on its validated input
    [{ customerId, sparse, ...patch }]. *)
Definition update_customer (store : option Ctx) (customerId : string) (sparse : bool)
    (patch : Json) : M Json :=
  existing <- getCustomerRaw store customerId ;;
  match id_and_token existing with
  | None => throw (Error "Could not fetch existing customer or SyncToken.")
  | Some (Id, SyncToken) =>
    data <- qbRequest store "customer?operation=update"
              (post_opts (update_body Id SyncToken sparse patch)) ;;
    ret (prop_or_self "Customer" data)
  end.

(** The [set_customer_active] tool. *)
Definition set_customer_active (store : option Ctx) (customerId : string) (active : bool)
  : M Json :=
  existing <- getCustomerRaw store customerId ;;
  match id_and_token existing with
  | None => throw (Error "Could not fetch existing customer or SyncToken.")
  | Some (Id, SyncToken) =>
    data <- qbRequest store "customer?operation=update"
              (post_opts (active_body Id SyncToken active)) ;;
    ret (prop_or_self "Customer" data)
  end.

End Tools.
End QuickBooksTools.

(** ** Statements about the customer tools *)

(** The upstream requests of a log sent with [method]. *)
Definition calls_with (m : string) (l : list Effect) : list ApiCall :=
  flat_map (fun e => match e with
                     | FetchApi call _ => if String.eqb (method call) m then [call] else []
                     | _ => []
                     end) l.

(** [data] is a fetched customer record with a truthy [Id] and a
    [SyncToken]. *)
Definition fetched (data : Json) (Id SyncToken : Json) : Prop :=
  exists existing, prop "Customer" data = Some existing /\
                   prop "Id" existing = Some Id /\ truthy_json Id = true /\
                   prop "SyncToken" existing = Some SyncToken.


Module Sample9.

Definition customer_42 : Json :=
  JObject [("Customer", JObject [("Id", JString "42"); ("SyncToken", JString "3");
                                 ("DisplayName", JString "Pat Lake")])].

(** An upstream that serves customer 42 to every request. *)
Definition books : Env :=
  {| api := fun _ _ => Sample.success;
     token_endpoint := fun _ _ => Sample.success;
     JSON_parse := fun _ => Some customer_42;
     parse_token_data := fun _ => Some Sample.rotated;
     clock := fun _ => Sample.issued;
     db_stamp := fun _ => "2023-11-14T22:13:20Z" |}.

Definition patch : Json :=
  JObject [("notes", JString ""); ("taxExempt", JBool true);
           ("primaryPhone", JString "555-0100")].


Definition update_call : ApiCall :=
  {| url := "https://sandbox-quickbooks.api.intuit.com/v3/company/9130/customer?operation=update&minorversion=75";
     method := "POST"; bearer := "at-1";
     sent_body := Some (QuickBooksTools.update_body (JString "42") (JString "3") true patch) |}.

End Sample9.

(** ** Statements about the Gmail service before it is connected *)



(** A later state with the stored tokens kept, every call in between made
    with [cred]. *)
Definition grows (cred : option Json) (st st' : Gmail.State) : Prop :=
  Gmail.userTokens st' = Gmail.userTokens st /\
  exists l, Gmail.calls st' = Gmail.calls st ++ l /\ Forall (fun c => fst c = cred) l.

(** Serving a list of requests, one after the other. *)
Definition serve_all (G : Gmail.GmailEnv) (reqs : list (Gmail.Endpoint * Gmail.GRequest))
    (st : Gmail.State) : Gmail.State :=
  fold_left (fun st r => fst (Gmail.serve G (fst r) (snd r) st)) reqs st.

Module Sample10.


Definition callback_of_bob : Gmail.GRequest :=
  {| Gmail.headers := []; Gmail.cookies := [("sid", "bob")];
     Gmail.query := [("code", "4/0Ab-code")]; Gmail.route_messageId := "";
     Gmail.payload := None |}.

(** A listing, then a send, from two different callers. *)
Definition later_requests : list (Gmail.Endpoint * Gmail.GRequest) :=
  [(Gmail.Labels, Sample.send_from_bob); (Gmail.Send, Sample.send_from_alice)].

(** A Google client that hands out a different token for every code. *)
Definition gmail_by_code : Gmail.GmailEnv :=
  {| Gmail.getToken := fun code => Some (JObject [("access_token", JString ("ya29." +:+ code))]);
     Gmail.gmail := fun _ _ => inr (JObject [("id", JString "18c1"); ("threadId", JString "18c0")]);
     Gmail.base64 := fun s => s;
     Gmail.toISOString := "2023-11-14T22:13:20.000Z";
     Gmail.parseInt := fun _ => Some 10;
     Gmail.format_full := fun j => j;
     Gmail.format_metadata := fun j => j |}.

End Sample10.
(** * Properties *)

(** ** Token store: the pair (user_id, provider) is a key *)

Section TokenStoreFacts.

Lemma has_key_spec uid prov row :
  has_key uid prov row = true <-> key_of row = (uid, prov).
Proof.
  unfold has_key, key_of. rewrite andb_true_iff, !String.eqb_eq.
  split; [intros [-> ->]; reflexivity | intros [= -> ->]; auto].
Qed.

Lemma has_key_write arg row :
  has_key (u_userId arg) (u_provider arg) (write_payload arg row) = true.
Proof. apply has_key_spec. reflexivity. Qed.

Lemma key_of_overwrite arg row : key_of (overwrite arg row) = key_of row.
Proof.
  unfold overwrite. destruct (has_key _ _ row) eqn:Hk; [|reflexivity].
  apply has_key_spec in Hk. rewrite Hk. reflexivity.
Qed.

Lemma has_key_overwrite uid prov arg row :
  has_key uid prov (overwrite arg row) = has_key uid prov row.
Proof.
  destruct (has_key uid prov row) eqn:Hk.
  - apply has_key_spec. rewrite key_of_overwrite. now apply has_key_spec.
  - destruct (has_key uid prov (overwrite arg row)) eqn:Hk'; [|reflexivity].
    apply has_key_spec in Hk'. rewrite key_of_overwrite in Hk'.
    apply has_key_spec in Hk'. congruence.
Qed.

Lemma overwrite_twice arg row : overwrite arg (overwrite arg row) = overwrite arg row.
Proof.
  unfold overwrite at 2 3. destruct (has_key _ _ row) eqn:Hk.
  - unfold overwrite. rewrite has_key_write. reflexivity.
  - unfold overwrite. rewrite Hk. reflexivity.
Qed.

Lemma select_overwrite arg table :
  select (u_userId arg) (u_provider arg) (List.map (overwrite arg) table)
  = List.map (write_payload arg) (select (u_userId arg) (u_provider arg) table).
Proof.
  unfold select. induction table as [|row table IH]; [reflexivity|].
  cbn [List.map List.filter]. rewrite has_key_overwrite.
  destruct (has_key _ _ row) eqn:Hk; cbn [List.map]; rewrite IH; [|reflexivity].
  unfold overwrite. rewrite Hk. reflexivity.
Qed.

Lemma select_nil_iff uid prov table :
  existsb (has_key uid prov) table = false <-> select uid prov table = [].
Proof.
  unfold select. induction table as [|row table IH]; cbn [existsb List.filter].
  - tauto.
  - destruct (has_key uid prov row); cbn [orb]; [split; discriminate | exact IH].
Qed.

Lemma select_keys uid prov table :
  List.map key_of (select uid prov table)
  = List.filter (fun k => if decide (k = (uid, prov)) then true else false)
                (List.map key_of table).
Proof.
  unfold select. induction table as [|row table IH]; [reflexivity|].
  cbn [List.map List.filter].
  destruct (has_key uid prov row) eqn:Hk; case_decide as Hd.
  - cbn [List.map]. now rewrite IH.
  - apply has_key_spec in Hk. contradiction.
  - apply has_key_spec in Hd. congruence.
  - exact IH.
Qed.

Lemma unique_select uid prov table :
  unique_keys table -> (length (select uid prov table) <= 1)%nat.
Proof.
  unfold unique_keys. fold key_of. intros Hnd.
  rewrite <- (length_map key_of), select_keys.
  induction Hnd as [|k ks Hnotin Hnd IH]; cbn [List.filter length]; [lia|].
  case_decide as Hd; [|exact IH]. subst k. cbn [length].
  assert (List.filter (fun k => if decide (k = (uid, prov)) then true else false) ks = []) as ->.
  { clear IH Hnd. induction ks as [|k ks IH]; [reflexivity|]. cbn [List.filter].
    case_decide as Hd.
    - exfalso. apply Hnotin. subst k. left.
    - apply IH. intros Hin. apply Hnotin. right. exact Hin. }
  cbn. lia.
Qed.

Lemma unique_upsert stamp arg table :
  unique_keys table -> unique_keys (upsert_rows stamp arg table).
Proof.
  unfold unique_keys, upsert_rows. fold key_of. fold (overwrite arg). intros Hnd.
  destruct (existsb _ table) eqn:Hex.
  - rewrite List.map_map.
    rewrite (List.map_ext _ key_of (key_of_overwrite arg)). exact Hnd.
  - rewrite List.map_app. cbn [List.map].
    apply NoDup_app. split; [exact Hnd|]. split; [|apply NoDup_singleton].
    intros k Hin Hk. apply list_elem_of_In in Hin, Hk.
    destruct Hk as [<-|[]]. apply in_map_iff in Hin as [row [Hrow Hin]].
    assert (has_key (u_userId arg) (u_provider arg) row = true) as Hk
      by (apply has_key_spec; exact Hrow).
    assert (existsb (has_key (u_userId arg) (u_provider arg)) table = true)
      by (apply existsb_exists; eauto).
    congruence.
Qed.

Lemma unique_delete uid prov table :
  unique_keys table -> unique_keys (delete_rows uid prov table).
Proof.
  unfold unique_keys, delete_rows. fold key_of.
  induction table as [|row table IH]; cbn [List.map List.filter]; [auto|].
  intros Hnd. apply NoDup_cons in Hnd as [Hnotin Hnd].
  destruct (negb _); [|auto]. cbn [List.map]. apply NoDup_cons. split; [|auto].
  intros Hin. apply Hnotin. apply list_elem_of_In in Hin. apply list_elem_of_In.
  apply in_map_iff in Hin as [r [Hr Hin]]. apply in_map_iff.
  exists r. split; [exact Hr|]. apply filter_In in Hin. tauto.
Qed.

(** After an upsert the key selects exactly one row, carrying the payload. *)
Lemma select_upsert stamp arg table :
  unique_keys table ->
  exists row, select (u_userId arg) (u_provider arg) (upsert_rows stamp arg table)
              = [write_payload arg row].
Proof.
  intros Hu. unfold upsert_rows. fold (overwrite arg).
  destruct (existsb _ table) eqn:Hex.
  - rewrite select_overwrite.
    pose proof (unique_select (u_userId arg) (u_provider arg) table Hu) as Hlen.
    destruct (select (u_userId arg) (u_provider arg) table) as [|row [|row' rest]] eqn:Hsel.
    + apply select_nil_iff in Hsel. congruence.
    + exists row. reflexivity.
    + cbn in Hlen. lia.
  - apply select_nil_iff in Hex. unfold select in *. rewrite List.filter_app, Hex.
    cbn [List.filter app]. rewrite has_key_write. eexists. reflexivity.
Qed.

Lemma existsb_upsert stamp arg table :
  existsb (has_key (u_userId arg) (u_provider arg)) (upsert_rows stamp arg table) = true.
Proof.
  unfold upsert_rows. fold (overwrite arg). destruct (existsb _ table) eqn:Hex.
  - apply existsb_exists in Hex as [row [Hin Hk]]. apply existsb_exists.
    exists (overwrite arg row). split; [now apply in_map|].
    now rewrite has_key_overwrite.
  - apply existsb_exists. eexists. split; [apply in_or_app; right; left; reflexivity|].
    apply has_key_write.
Qed.

End TokenStoreFacts.

(** ** Upsert is last-write-wins on the key *)

(** C8: upserting two records with the same (user, provider) key, one after
    the other, leaves exactly one row for that key; reading the key back
    returns the fields of the second write; repeating the second write
    changes nothing. *)
Theorem upsertTokens_last_write_wins (E : Env) (w : World) (first second : UpsertArg) :
  unique_keys (table w) ->
  u_userId first = u_userId second ->
  u_provider first = u_provider second ->
  last_write_wins E w first second.
Proof.
  intros Hu Huid Hprov. unfold last_write_wins.
  unfold upsertTokens, getTokens, bind, history, emit, read_table, write_table, ret.
  cbn [fst snd table log].
  set (s1 := db_stamp E (log w)). set (s2 := db_stamp E (log w ++ _)).
  set (s3 := db_stamp E ((_ ++ _) ++ _)).
  set (t1 := upsert_rows s1 first (table w)).
  assert (Hu1 : unique_keys t1) by (apply unique_upsert; exact Hu).
  assert (Hex : existsb (has_key (u_userId second) (u_provider second)) t1 = true)
    by (rewrite <- Huid, <- Hprov; apply existsb_upsert).
  destruct (select_upsert s2 second t1 Hu1) as [row Hrow].
  split; [reflexivity|]. split; [rewrite Hrow; reflexivity|].
  split; [unfold lookup_tokens; rewrite Hrow; reflexivity|].
  split; [|apply unique_upsert; exact Hu1].
  unfold upsert_rows at 1. rewrite existsb_upsert. fold (overwrite second).
  unfold upsert_rows. rewrite Hex. fold (overwrite second).
  rewrite List.map_map. apply List.map_ext. intros r. apply overwrite_twice.
Qed.

Lemma upsertTokens_last_write_wins_witness :
  last_write_wins Sample.rejecting Sample.empty_world Sample.first_write Sample.second_write.
Proof.
  apply upsertTokens_last_write_wins; [apply NoDup_nil_2 | reflexivity | reflexivity].
Defined.

(** ** The refresh client *)

(** C5, as the code has it: when the token endpoint answers 2xx with token
    JSON, the refresh upserts, for the given user and provider
    "quickbooks", the new access token; the expiry clock + expires_in when
    expires_in is supplied and is not zero, and null otherwise; the rotated
    refresh token when one is returned and the one passed in otherwise; and
    the realm id passed in. *)
Theorem refreshWithQbo_success (E : Env) (refresh_token : option string) (uid : string)
    (realmId : option string) (w : World) (data : TokenData) :
  status_ok (status (refresh_reply E refresh_token w)) = true ->
  parse_token_data E (text (refresh_reply E refresh_token w)) = Some data ->
  refresh_stores expiry_computed E refresh_token uid realmId w data.
Proof.
  intros Hok Hdata. unfold refresh_stores, refresh_call, QbClient.refreshWithQbo.
  unfold refresh_reply in *.
  unfold bind, history, emit, upsertTokens, read_table, write_table, ret, bind.
  cbn [fst snd table log]. rewrite Hok. cbn [negb]. rewrite Hdata.
  cbn [fst snd table log]. reflexivity.
Qed.

Lemma refreshWithQbo_success_witness :
  refresh_stores expiry_computed Sample.rejecting (Some "rt-1") "1" (Some "9130")
    Sample.empty_world Sample.rotated.
Proof.
  apply refreshWithQbo_success; reflexivity.
Defined.

(** C5, as stated, fails when the provider supplies [expires_in: 0]: the
    reply is a success carrying token JSON, and the stored expiry is null,
    not clock + 0. *)
Lemma refreshWithQbo_zero_expires_in :
  status_ok (status (refresh_reply Sample.zero_lifetime (Some "rt-1") Sample.empty_world)) = true /\
  parse_token_data Sample.zero_lifetime
    (text (refresh_reply Sample.zero_lifetime (Some "rt-1") Sample.empty_world))
    = Some Sample.zero_lifetime_data /\
  d_expires_in Sample.zero_lifetime_data = Some 0 /\
  ~ refresh_stores expiry_whenever_supplied Sample.zero_lifetime (Some "rt-1") "1"
      (Some "9130") Sample.empty_world Sample.zero_lifetime_data.
Proof.
  repeat split. unfold refresh_stores. vm_compute. discriminate.
Qed.

(** C6: when the token endpoint answers with a non-2xx status, the refresh
    throws an error whose message carries that status and the reply body;
    it has called the endpoint exactly once and has not touched the store. *)
Theorem refreshWithQbo_failure (E : Env) (refresh_token : option string) (uid : string)
    (realmId : option string) (w : World) :
  status_ok (status (refresh_reply E refresh_token w)) = false ->
  refresh_fails E refresh_token uid realmId w.
Proof.
  intros Hok. unfold refresh_fails, refresh_call, QbClient.refreshWithQbo.
  unfold refresh_reply in *.
  unfold bind, history, emit, throw. cbn [fst snd table log].
  rewrite Hok. reflexivity.
Qed.

Lemma refreshWithQbo_failure_witness :
  refresh_fails Sample.refusing (Some "rt-1") "1" (Some "9130") Sample.empty_world.
Proof.
  apply refreshWithQbo_failure. reflexivity.
Defined.

(** ** The API client: one refresh, one retry *)



Lemma performed_app (w : World) (t : list TokenRow) (did : list Effect) :
  performed w {| table := t; log := log w ++ did |} = did.
Proof. unfold performed. cbn [log]. apply drop_app_length. Qed.

Lemma getTokens_run (uid prov : string) (w : World) :
  getTokens uid prov w
  = (inr (lookup_tokens uid prov (table w)),
     {| table := table w; log := log w ++ [DbGet uid prov] |}).
Proof. reflexivity. Qed.

Section RefreshOnce.
Variable E : Env.
Variable QB_API_BASE : string.
Variable MINOR_VERSION : Z.
Variable isAuthError : Z -> string -> bool.





End RefreshOnce.




(** Against an upstream that turns every token down, the call ends in
    "Unauthorized after refresh" after two requests and one refresh. *)
Example qbRequest_rejected_twice :
  let run := QuickBooksStr.qbRequest Sample.rejecting 75 true (Some Sample.user1)
               "customer/42" QbClient.default_opts Sample.connected_world in
  fst run = inl (Error "Unauthorized after refresh") /\
  count is_api (log (snd run)) = 2%nat /\
  count is_refresh (log (snd run)) = 1%nat.
Proof. vm_compute. auto. Qed.

(** ** Session verification and the transport *)

Section ServerFacts.
Context {codec : Jwt.Codec}.
Variable secret : string.
Variable opts : Jwt.VerifyOptions.
Variable conv : JsVal -> JsVal.
Variable handlePostMessage : option Ctx -> Json -> M Json.

Notation "'rs'" := (requireSessionWith secret opts conv).
Notation "'step''" := (step rs handlePostMessage).
Notation "'run''" := (run rs handlePostMessage).

(** On a response nothing was sent on, [requireSession] either passes and
    leaves it alone, or sends the one 401. *)
Lemma requireSession_fresh now req :
  (exists sess, rs now req fresh_response = (Some sess, fresh_response)) \/
  rs now req fresh_response = (None, invalid_session_reply).
Proof.
  unfold requireSessionWith, reject_session.
  destruct (Jwt.verify _ _ _ _) as [e|p]; [right; reflexivity|].
  destruct (Jwt.claim_userId p) as [v|]; [|right; reflexivity].
  destruct (truthy v); [left; eauto | right; reflexivity].
Qed.

(** It never sends more than one reply, whatever was sent before. *)
Lemma requireSession_replies_once now req res :
  (length (replies (snd (rs now req res))) <= length (replies res) + 1)%nat.
Proof.
  unfold requireSessionWith, reject_session, status_json.
  destruct (Jwt.verify _ _ _ _) as [e|p]; [|destruct (Jwt.claim_userId p) as [v|];
    [destruct (truthy v)|]]; cbn [snd];
    destruct (headersSent res); cbn [replies]; rewrite ?length_app; cbn; lia.
Qed.

(** Why a session is refused: the library rejects the token, or the
    payload has no truthy [userId]. *)
Lemma requireSession_refuses_iff now req res :
  fst (rs now req res) = None <-> verification_fails secret opts now req.
Proof.
  unfold requireSessionWith, reject_session, verification_fails.
  destruct (Jwt.verify _ _ _ _) as [e|p]; cbn [fst].
  - split; [eauto | reflexivity].
  - destruct (Jwt.claim_userId p) as [v|] eqn:Hv.
    + destruct (truthy v) eqn:Ht; cbn [fst].
      * split; [discriminate|]. intros [[e [=]]|[p' [[= <-] Hp]]].
        rewrite Hv in Hp. congruence.
      * split; [|reflexivity]. intros _. right. exists p. rewrite Hv. auto.
    + split; [|reflexivity]. intros _. right. exists p. rewrite Hv. auto.
Qed.

(** The library's grounds for rejecting a token. *)
Lemma verify_rejects now token t :
  Jwt.parse token = Some t ->
  String.eqb (Jwt.signedWith t) secret = false \/
  (exists e, Jwt.exp (Jwt.payload t) = Some e /\ e <= now) \/
  (exists n, Jwt.nbf (Jwt.payload t) = Some n /\ now < n) \/
  (exists a, Jwt.audience opts = Some a /\ ~ In a (Jwt.aud (Jwt.payload t))) \/
  (exists i, Jwt.issuer opts = Some i /\ Jwt.iss (Jwt.payload t) <> Some i) ->
  exists e, Jwt.verify now token secret opts = inl e.
Proof.
  intros Hparse Hwhy. unfold Jwt.verify.
  destruct (String.eqb token ""); [eauto|]. rewrite Hparse.
  destruct (String.eqb (Jwt.signedWith t) secret) eqn:Hsig; cbn [negb]; [|eauto].
  destruct (match Jwt.nbf _ with Some n => now <? n | None => false end) eqn:Hnbf; [eauto|].
  destruct (match Jwt.exp _ with Some e => e <=? now | None => false end) eqn:Hexp; [eauto|].
  destruct (Jwt.check_audience opts _) eqn:Haud; cbn [negb]; [|eauto].
  destruct (Jwt.check_issuer opts _) eqn:Hiss; cbn [negb]; [|eauto].
  exfalso. destruct Hwhy as [H|[[e [He Hle]]|[[n [Hn Hlt]]|[[a [Ha Hin]]|[i [Hi Hne]]]]]].
  - discriminate.
  - rewrite He in Hexp. lia.
  - rewrite Hn in Hnbf. lia.
  - unfold Jwt.check_audience in Haud. rewrite Ha in Haud.
    apply existsb_exists in Haud as [a' [Hin' Heq]].
    apply String.eqb_eq in Heq. subst. contradiction.
  - unfold Jwt.check_issuer in Hiss. rewrite Hi in Hiss.
    destruct (Jwt.iss _) as [i'|]; [|discriminate].
    apply String.eqb_eq in Hiss. subst. contradiction.
Qed.

Lemma verify_rejects_unparsed now token :
  token = "" \/ Jwt.parse token = None ->
  exists e, Jwt.verify now token secret opts = inl e.
Proof.
  unfold Jwt.verify. intros [->|Hparse]; [cbn; eauto|].
  destruct (String.eqb token ""); [eauto|]. rewrite Hparse. eauto.
Qed.

Lemma performed_none (w : World) : performed w w = [].
Proof. unfold performed. apply drop_all. Qed.


Lemma run_snoc evs ev st : run' (evs ++ [ev]) st = fst (step' (run' evs st) ev).
Proof. unfold run. now rewrite fold_left_app. Qed.

Lemma posted_in_more evs ev h :
  posted_in rs evs h -> posted_in rs (evs ++ [ev]) h.
Proof.
  intros (now & req & sess & res & Hin & H). exists now, req, sess, res.
  split; [apply in_or_app; auto | exact H].
Qed.

Lemma opened_in_more evs ev t :
  opened_in rs evs t -> opened_in rs (evs ++ [ev]) t.
Proof.
  intros (now & c & req & res & Hin & H). exists now, c, req, res.
  split; [apply in_or_app; auto | exact H].
Qed.

Lemma provenance_step evs ev st :
  provenance rs evs st -> provenance rs (evs ++ [ev]) (fst (step' st ev)).
Proof.
  intros [Hh Ht].
  assert (Hkeep : provenance rs (evs ++ [ev]) st).
  { split.
    - intros h Hin. destruct (Hh h Hin). split; [now apply posted_in_more|now apply opened_in_more].
    - intros k t Hk. destruct (Ht k t Hk). split; [now apply opened_in_more|assumption]. }
  destruct ev as [now sid c req|now req|sid]; cbn [step].
  - unfold get_sse. destruct (rs now req fresh_response) as [[sess|] res] eqn:Hs; [|exact Hkeep].
    assert (Hnew : opened_in rs (evs ++ [OpenStream now sid c req])
                     {| sessionId := sid; opened_as := sess |}).
    { exists now, c, req, res. split; [apply in_or_app; right; left; reflexivity|exact Hs]. }
    destruct Hkeep as [Hh' Ht'].
    assert (Hreg : forall k t,
               <[or_else (Some sid) "default" :=
                   {| sessionId := sid; opened_as := sess |}]> (activeTransports st) !! k
               = Some t ->
               opened_in rs (evs ++ [OpenStream now sid c req]) t /\ k = registered_under t).
    { intros k t. rewrite lookup_insert. case_decide as Hk.
      - intros [= <-]. split; [exact Hnew|]. symmetry. exact Hk.
      - apply Ht'. }
    destruct c; cbn [fst activeTransports]; (split; [exact Hh'|]); [exact Hreg|..];
      intros k t Hk; cbn [activeTransports] in Hk;
      apply lookup_delete_Some in Hk as [Hne Hk]; rewrite lookup_insert_ne in Hk by exact Hne;
      eauto.
  - unfold post_messages.
    destruct (rs now req fresh_response) as [[sess|] res] eqn:Hs; [|exact Hkeep].
    destruct (activeTransports st !! or_else (query_sessionId req) "default")
      as [transport|] eqn:Hk; [|exact Hkeep].
    unfold ctxStore_run.
    destruct (JsonRpc.is_message (body req)) eqn:Hmsg; cbn [negb]; [|exact Hkeep].
    destruct (handlePostMessage _ _ _) as [r w']. cbn [fst].
    destruct Hkeep as [Hh' Ht']. split; [|exact Ht'].
    cbn [handled]. intros h Hin. apply in_app_or in Hin as [Hin|[<-|[]]]; [auto|].
    cbn [ambient message on_stream]. destruct (Ht' _ _ Hk) as [Hopen Hkey].
    split; [|exact Hopen].
    exists now, req, sess, res. split; [apply in_or_app; right; left; reflexivity|].
    cbn [ambient message on_stream]. auto.
  - cbn [fst]. unfold on_close. destruct Hkeep as [Hh' Ht']. split; [exact Hh'|].
    cbn [activeTransports]. intros k t Hk. apply lookup_delete_Some in Hk as [_ Hk]. eauto.
Qed.

Lemma provenance_run evs w : provenance rs evs (run' evs (empty_server w)).
Proof.
  induction evs as [|ev evs IH] using rev_ind.
  - split; [intros h []|]. intros k t Hk. cbn in Hk. now rewrite lookup_empty in Hk.
  - rewrite run_snoc. now apply provenance_step.
Qed.

(** C3, as the code has it: every message a server handled was a JSON-RPC
    message that ran under the identity verified from the post that
    carried it, on the stream that post names by its session id, and that
    stream was registered by a stream-open recording the identity verified
    from that open; the two identities are not compared. *)
Theorem handled_under_posted_session (evs : list Event) (w : World) (h : Handled) :
  In h (handled (run' evs (empty_server w))) ->
  posted_in rs evs h /\ opened_in rs evs (on_stream h).
Proof. intros Hin. now apply (provenance_run evs w). Qed.

(** A step that registers nothing under [key] leaves [key] unregistered. *)
Lemma unregistered_step key ev st :
  registers rs ev <> Some key ->
  activeTransports st !! key = None ->
  activeTransports (fst (step' st ev)) !! key = None.
Proof.
  intros Hreg Hnone. destruct ev as [now sid c req|now req|sid]; cbn [step].
  - unfold get_sse. cbn [registers] in Hreg.
    destruct (rs now req fresh_response) as [[sess|] res]; [|exact Hnone].
    assert (Hne : or_else (Some sid) "default" <> key) by congruence.
    destruct c; cbn [fst activeTransports];
      rewrite ?lookup_delete_ne by exact Hne; now rewrite lookup_insert_ne.
  - unfold post_messages. destruct (rs now req fresh_response) as [[sess|] res]; [|exact Hnone].
    destruct (activeTransports st !! or_else (query_sessionId req) "default") eqn:Hk;
      [|exact Hnone].
    unfold ctxStore_run. destruct (negb _); [exact Hnone|].
    destruct (handlePostMessage _ _ _). exact Hnone.
  - cbn [fst]. unfold on_close. cbn [activeTransports].
    apply lookup_delete_None. auto.
Qed.

Lemma unregistered_run key evs st :
  (forall ev, In ev evs -> registers rs ev <> Some key) ->
  activeTransports st !! key = None ->
  activeTransports (run' evs st) !! key = None.
Proof.
  revert st. induction evs as [|ev evs IH]; intros st Hreg Hnone; [exact Hnone|].
  cbn [run fold_left]. apply IH.
  - intros ev' Hin. apply Hreg. now right.
  - apply unregistered_step; [apply Hreg; now left|exact Hnone].
Qed.

Lemma post_without_transport st now req :
  activeTransports st !! post_key req = None -> refused rs handlePostMessage st now req.
Proof.
  intros Hnone. unfold refused. cbn [step]. unfold post_messages.
  destruct (requireSession_fresh now req) as [[sess Hs]|Hs]; rewrite Hs; cbn [fst];
    [|reflexivity].
  unfold post_key in Hnone. now rewrite Hnone.
Qed.

(** C7, as the code has it: a message post whose session id names no
    registered transport is refused and changes nothing, with 400
    no_active_transport when its session token verifies and with 401
    invalid_session when it does not; this holds in particular from the
    moment the stream under that id closes, for as long as no new stream is
    registered under the same id. *)
Theorem posts_without_stream_are_refused (st : Server) (evs : list Event) (now : Z)
    (req : Request) :
  activeTransports st !! post_key req = None \/
    (exists before, st = on_close (post_key req) before) ->
  (forall ev, In ev evs -> registers rs ev <> Some (post_key req)) ->
  refused rs handlePostMessage (run' evs st) now req.
Proof.
  intros Hclosed Hreg. apply post_without_transport.
  apply unregistered_run; [exact Hreg|].
  destruct Hclosed as [Hnone|[before ->]]; [exact Hnone|].
  unfold on_close. cbn [activeTransports]. apply lookup_delete_eq.
Qed.

End ServerFacts.

(** ** The servers at concrete requests *)

(** C1 fails on the QuickBooks servers: a token minted with audience
    "housecallpro-mcp" under the shared secret is accepted by both
    revisions of the QuickBooks server, which pass no audience to the
    verifier, whereas the Housecall Pro server turns away a token minted
    for the QuickBooks audience "mcp". *)
Theorem requireSession_accepts_foreign_audience :
  QuickBooksNum.requireSession (codec := Sample.codec) Sample.secret (Sample.issued + 1)
    (Sample.bearing "hcp.jwt" None JNull) fresh_response
  = (Some {| userId := JsNum 7 |}, fresh_response) /\
  QuickBooksStr.requireSession (codec := Sample.codec) Sample.secret (Sample.issued + 1)
    (Sample.bearing "hcp.jwt" None JNull) fresh_response
  = (Some {| userId := JsStr "7" |}, fresh_response) /\
  HousecallPro.requireSession (codec := Sample.codec) Sample.secret "backend"
    (Sample.issued + 1) (Sample.bearing "user1.jwt" None JNull) fresh_response
  = (None, invalid_session_reply).
Proof. repeat split; vm_compute; reflexivity. Qed.

(** The Housecall Pro server does enforce its audience, for every token. *)
Lemma housecallpro_requires_audience {codec : Jwt.Codec} (secret issuer : string) (now : Z)
    (req : Request) (t : Jwt.Token) :
  Jwt.parse (bearer_token req) = Some t ->
  ~ In "housecallpro-mcp" (Jwt.aud (Jwt.payload t)) ->
  HousecallPro.requireSession secret issuer now req fresh_response
  = (None, invalid_session_reply).
Proof.
  intros Hparse Haud. unfold HousecallPro.requireSession.
  destruct (requireSession_fresh secret (HousecallPro.verify_options issuer)
              (fun v => JsStr (String_ v)) now req) as [[sess Hs]|Hs]; [|exact Hs].
  exfalso.
  assert (Hnone : fst (requireSessionWith secret (HousecallPro.verify_options issuer)
                         (fun v => JsStr (String_ v)) now req fresh_response) = None).
  { apply requireSession_refuses_iff. left.
    eapply verify_rejects; [exact Hparse|]. right. right. right. left.
    exists "housecallpro-mcp". split; [reflexivity|exact Haud]. }
  rewrite Hs in Hnone. discriminate.
Qed.

(** The QuickBooks server accepts a well-signed, current token with a
    truthy user id, whatever its audience and issuer claims say. *)
Lemma quickbooks_accepts_any_audience {codec : Jwt.Codec} (secret : string) (now : Z)
    (req : Request) (t : Jwt.Token) (v : JsVal) :
  bearer_token req <> "" ->
  Jwt.parse (bearer_token req) = Some t ->
  Jwt.signedWith t = secret ->
  Jwt.nbf (Jwt.payload t) = None ->
  (forall e, Jwt.exp (Jwt.payload t) = Some e -> now < e) ->
  Jwt.claim_userId (Jwt.payload t) = Some v ->
  truthy v = true ->
  QuickBooksNum.requireSession secret now req fresh_response
  = (Some {| userId := v |}, fresh_response).
Proof.
  intros Hne Hparse Hsig Hnbf Hexp Hv Ht.
  unfold QuickBooksNum.requireSession, requireSessionWith, Jwt.verify.
  apply String.eqb_neq in Hne. rewrite Hne, Hparse.
  apply String.eqb_eq in Hsig. rewrite Hsig, Hnbf. cbn [negb].
  assert (match Jwt.exp (Jwt.payload t) with Some e => e <=? now | None => false end = false)
    as ->.
  { destruct (Jwt.exp (Jwt.payload t)) as [e|]; [|reflexivity].
    specialize (Hexp e eq_refl). lia. }
  cbn. rewrite Hv, Ht. reflexivity.
Qed.


(** C3, as stated, fails: user 1 and user 2 each open a stream, a post
    bearing user 2's token names user 1's stream, and the [tools/call]
    request it carries (a well-formed JSON-RPC request) runs on user 1's
    stream as user 2, the identity user 2's own stream was opened with. *)
Lemma crossed_post_breaks_stream_identity :
  JsonRpc.is_request (message Sample.crossed_entry) = true /\
  ~ stream_identity_kept
      (QuickBooksNum.run (codec := Sample.codec) Sample.serving Sample.secret 75
         Sample.crossed_post (empty_server Sample.two_tenants)).
Proof.
  split; [reflexivity|].
  intros Hkept. specialize (Hkept Sample.crossed_entry).
  assert (Hin : In Sample.crossed_entry
                  (handled (QuickBooksNum.run (codec := Sample.codec) Sample.serving
                              Sample.secret 75 Sample.crossed_post
                              (empty_server Sample.two_tenants))))
    by (vm_compute; left; reflexivity).
  specialize (Hkept Hin). discriminate.
Qed.

(** What that run did: both streams stay registered, and the one message
    was handled on user 1's stream as user 2, reading user 2's credential
    and calling upstream with user 2's token. *)
Example crossed_post_runs_as_poster :
  let st := QuickBooksNum.run (codec := Sample.codec) Sample.serving Sample.secret 75
              Sample.crossed_post (empty_server Sample.two_tenants) in
  opened_as <$> activeTransports st !! "7f9c-stream" = Some Sample.user1 /\
  opened_as <$> activeTransports st !! "b2e4-stream" = Some Sample.user2 /\
  handled st = [Sample.crossed_entry] /\
  List.filter is_get (log (world st)) = [DbGet "2" "quickbooks"] /\
  List.map (fun e => match e with FetchApi c _ => bearer c | _ => "" end)
    (List.filter is_api (log (world st))) = ["at-user2"].
Proof. vm_compute. auto. Qed.

Lemma handled_under_posted_session_witness :
  posted_in (QuickBooksNum.requireSession (codec := Sample.codec) Sample.secret)
    Sample.crossed_post Sample.crossed_entry /\
  opened_in (QuickBooksNum.requireSession (codec := Sample.codec) Sample.secret)
    Sample.crossed_post (on_stream Sample.crossed_entry).
Proof.
  apply (handled_under_posted_session (codec := Sample.codec) Sample.secret Jwt.no_options
           (fun v => v) (QuickBooksNum.tools_call Sample.serving 75)
           Sample.crossed_post Sample.two_tenants Sample.crossed_entry).
  vm_compute. left. reflexivity.
Defined.

(** C7, as stated, fails: a post that names no open stream and carries no
    session token is answered 401 invalid_session, not 400
    no_active_transport. *)
Lemma anonymous_post_gets_401 :
  activeTransports (empty_server Sample.two_tenants) !! post_key Sample.anonymous_post = None /\
  ~ gets_no_active_transport
      (QuickBooksNum.requireSession (codec := Sample.codec) Sample.secret)
      (QuickBooksNum.tools_call Sample.serving 75)
      (empty_server Sample.two_tenants) (Sample.issued + 1) Sample.anonymous_post.
Proof.
  split; [reflexivity|]. unfold gets_no_active_transport. vm_compute. discriminate.
Qed.

Lemma posts_without_stream_are_refused_witness :
  refused (QuickBooksNum.requireSession (codec := Sample.codec) Sample.secret)
    (QuickBooksNum.tools_call Sample.serving 75)
    (QuickBooksNum.run (codec := Sample.codec) Sample.serving Sample.secret 75
       [PostMessage (Sample.issued + 3) Sample.anonymous_post]
       (on_close "7f9c-stream" (empty_server Sample.two_tenants)))
    (Sample.issued + 4) (Sample.bearing "user1.jwt" (Some "7f9c-stream") Sample.get_customer_42).
Proof.
  apply (posts_without_stream_are_refused (codec := Sample.codec) Sample.secret
           Jwt.no_options (fun v => v) (QuickBooksNum.tools_call Sample.serving 75)
           (on_close "7f9c-stream" (empty_server Sample.two_tenants))
           [PostMessage (Sample.issued + 3) Sample.anonymous_post]
           (Sample.issued + 4)
           (Sample.bearing "user1.jwt" (Some "7f9c-stream") Sample.get_customer_42)).
  - right. exists (empty_server Sample.two_tenants). reflexivity.
  - intros ev [<-|[]]. discriminate.
Defined.

(** ** The orchestrator mints every session for user 1 *)

Section ChatFacts.
Variable E : Env.
Variable SESSION_JWT_SECRET SESSION_JWT_AUDIENCE SESSION_JWT_ISSUER : string.
Variable SESSION_TTL_SECONDS : Z.

Notation "'chat''" :=
  (Backend.chat E SESSION_JWT_SECRET SESSION_JWT_AUDIENCE SESSION_JWT_ISSUER
     SESSION_TTL_SECONDS).

Lemma String_1 : String_ (JsNum 1) = "1".
Proof. vm_compute. reflexivity. Qed.

(** How a chat request can go, up to the minting step. *)
Lemma chat_cases (req_body : Json) (w : World) :
  (exists payload,
      chat' req_body w = (inr (Backend.Replied 400 payload), w)) \/
  (exists r,
      chat' req_body w
      = (inr r, {| table := table w; log := log w ++ [DbGet "1" "quickbooks"] |}) /\
      ((exists payload, r = Backend.Replied 400 payload) \/
       (exists now ttl,
           r = Backend.Minted (Jwt.sign (JsNum 1) now SESSION_JWT_SECRET
                                 SESSION_JWT_AUDIENCE SESSION_JWT_ISSUER ttl)))).
Proof.
  unfold Backend.chat, Backend.isQboConnected.
  destruct (prop "message" req_body) as [[| | |message| |]|];
    try (left; eexists; reflexivity).
  destruct (String.eqb message ""); [left; eexists; reflexivity|].
  right. unfold bind at 1 2. rewrite getTokens_run, String_1.
  unfold bind, history, ret. cbn [fst snd table log].
  destruct (lookup_tokens _ _ _) as [row|];
    [destruct (String.eqb (t_access_token row) "");
     [|destruct (t_expires_at row) as [e|];
       [destruct (negb (e =? 0) && (e <=? _))|]]|];
    cbn [negb]; eexists; (split; [reflexivity|]); eauto.
Qed.

(** A chat request that gets as far as minting has read the store once,
    for user 1, and has put [userId: 1] into the token. *)
Lemma chat_minted (req_body : Json) (w : World) (tok : Jwt.Token) :
  fst (chat' req_body w) = inr (Backend.Minted tok) ->
  Jwt.claim_userId (Jwt.payload tok) = Some (JsNum 1) /\
  Jwt.signedWith tok = SESSION_JWT_SECRET /\
  performed w (snd (chat' req_body w)) = [DbGet "1" "quickbooks"].
Proof.
  destruct (chat_cases req_body w) as [[payload ->]|[r [-> Hr]]]; cbn [fst snd];
    [discriminate|].
  rewrite performed_app.
  destruct Hr as [[payload ->]|[now [ttl ->]]]; [discriminate|].
  intros [= <-]. auto.
Qed.

(** Whatever the request, the only store access is that one read. *)
Lemma chat_reads_user1_only (req_body : Json) (w : World) :
  Forall (fun e => e = DbGet "1" "quickbooks") (performed w (snd (chat' req_body w))).
Proof.
  destruct (chat_cases req_body w) as [[payload ->]|[r [-> Hr]]]; cbn [snd].
  - rewrite performed_none. constructor.
  - rewrite performed_app. repeat constructor.
Qed.

(** C9: any two chat requests that reach the minting step have each read
    only user 1's QuickBooks credential and minted a token with userId 1;
    a tool server that verifies the two tokens binds the same context for
    both, the one made from userId 1 (the number 1 in the numeric-id
    revision of the QuickBooks server, the string "1" in the other), so
    both sessions resolve the one store row of user 1. *)
Theorem chat_sessions_are_user1 {codec : Jwt.Codec} (secret : string)
    (opts : Jwt.VerifyOptions) (conv : JsVal -> JsVal) (body1 body2 : Json) (w1 w2 : World)
    (tok1 tok2 : Jwt.Token) (now1 now2 : Z) (req1 req2 : Request)
    (sess1 sess2 : Ctx) (res1 res2 : Response) :
  fst (chat' body1 w1) = inr (Backend.Minted tok1) ->
  fst (chat' body2 w2) = inr (Backend.Minted tok2) ->
  Jwt.parse (bearer_token req1) = Some tok1 ->
  Jwt.parse (bearer_token req2) = Some tok2 ->
  requireSessionWith secret opts conv now1 req1 fresh_response = (Some sess1, res1) ->
  requireSessionWith secret opts conv now2 req2 fresh_response = (Some sess2, res2) ->
  Jwt.claim_userId (Jwt.payload tok1) = Some (JsNum 1) /\
  Jwt.claim_userId (Jwt.payload tok2) = Some (JsNum 1) /\
  performed w1 (snd (chat' body1 w1)) = [DbGet "1" "quickbooks"] /\
  performed w2 (snd (chat' body2 w2)) = [DbGet "1" "quickbooks"] /\
  sess1 = {| userId := conv (JsNum 1) |} /\
  sess2 = sess1.
Proof.
  intros Hm1 Hm2 Hp1 Hp2 Hs1 Hs2.
  destruct (chat_minted _ _ _ Hm1) as [Hu1 [_ Hd1]].
  destruct (chat_minted _ _ _ Hm2) as [Hu2 [_ Hd2]].
  assert (Hsess : forall now req tok sess res,
             Jwt.parse (bearer_token req) = Some tok ->
             Jwt.claim_userId (Jwt.payload tok) = Some (JsNum 1) ->
             requireSessionWith secret opts conv now req fresh_response = (Some sess, res) ->
             sess = {| userId := conv (JsNum 1) |}).
  { intros now req tok sess res Hp Hu.
    unfold requireSessionWith, Jwt.verify, reject_session.
    destruct (String.eqb (bearer_token req) ""); [discriminate|]. rewrite Hp.
    repeat match goal with
           | |- context [if ?b then _ else _] => destruct b
           end; try discriminate.
    all: cbv beta iota; rewrite Hu; cbn; intros [= <-]; reflexivity. }
  rewrite (Hsess _ _ _ _ _ Hp1 Hu1 Hs1), (Hsess _ _ _ _ _ Hp2 Hu2 Hs2).
  repeat split; auto.
Qed.

End ChatFacts.

Lemma chat_sessions_are_user1_witness :
  Jwt.claim_userId (Jwt.payload Sample.user1_token) = Some (JsNum 1) /\
  Jwt.claim_userId (Jwt.payload Sample.user1_token) = Some (JsNum 1) /\
  performed Sample.two_tenants
    (snd (Backend.chat Sample.serving Sample.secret "mcp" "backend" 3600
            Sample.chat_body_a Sample.two_tenants)) = [DbGet "1" "quickbooks"] /\
  performed Sample.two_tenants
    (snd (Backend.chat Sample.serving Sample.secret "mcp" "backend" 3600
            Sample.chat_body_b Sample.two_tenants)) = [DbGet "1" "quickbooks"] /\
  Sample.user1 = {| userId := JsNum 1 |} /\
  Sample.user1 = Sample.user1.
Proof.
  apply (chat_sessions_are_user1 Sample.serving Sample.secret "mcp" "backend" 3600
           (codec := Sample.codec) Sample.secret Jwt.no_options (fun v => v)
           Sample.chat_body_a Sample.chat_body_b Sample.two_tenants Sample.two_tenants
           Sample.user1_token Sample.user1_token (Sample.issued + 1) (Sample.issued + 2)
           (Sample.bearing "user1.jwt" None JNull)
           (Sample.bearing "user1.jwt" (Some "7f9c-stream") Sample.get_customer_42)
           Sample.user1 Sample.user1 fresh_response fresh_response);
    reflexivity.
Defined.

(** The store key both QuickBooks revisions derive from userId 1. *)
Example quickbooks_key_of_user1 :
  String_ (JsNum 1) = "1" /\ String_ (JsStr (String_ (JsNum 1))) = "1".
Proof. vm_compute. auto. Qed.

(** ** The Gmail service answers every caller from the one stored credential *)

Section GmailFacts.
Variable G : Gmail.GmailEnv.

Lemma extends_refl cred st : extends cred st st.
Proof.
  split; [reflexivity|]. split; [reflexivity|].
  exists []. split; [now rewrite app_nil_r|constructor].
Qed.

Lemma extends_trans cred st1 st2 st3 :
  extends cred st1 st2 -> extends cred st2 st3 -> extends cred st1 st3.
Proof.
  intros (Hu1 & Hc1 & l1 & Hl1 & Hf1) (Hu2 & Hc2 & l2 & Hl2 & Hf2).
  split; [congruence|]. split; [congruence|].
  exists (l1 ++ l2). split; [rewrite Hl2, Hl1; now rewrite app_assoc|].
  apply Forall_app. auto.
Qed.

Lemma api_call_extends c st r st' :
  Gmail.api_call G c st = (r, st') -> extends (Gmail.client_credentials st) st st'.
Proof.
  unfold Gmail.api_call. intros [= _ <-]. split; [reflexivity|]. split; [reflexivity|].
  eexists. split; [reflexivity|]. repeat constructor.
Qed.

Lemma get_all_extends format items st r st' :
  Gmail.get_all G format items st = (r, st') ->
  extends (Gmail.client_credentials st) st st'.
Proof.
  revert st r st'. induction items as [|item items IH]; intros st r st'; cbn [Gmail.get_all].
  - intros [= _ <-]. apply extends_refl.
  - destruct (Gmail.api_call G _ st) as [r1 st1] eqn:H1.
    destruct (Gmail.get_all G format items st1) as [rs st2] eqn:H2.
    intros [= _ <-]. apply api_call_extends in H1. apply IH in H2.
    destruct H1 as (Hu & Hc & Hl). rewrite Hc in H2.
    eapply extends_trans; [|exact H2]. split; auto.
Qed.

Lemma extends_new_calls cred st st' :
  extends cred st st' -> Forall (fun c => fst c = cred) (new_calls st st').
Proof.
  intros (_ & _ & l & Hl & Hf). unfold new_calls. now rewrite Hl, drop_app_length.
Qed.

(** Inside [with_tokens] the client holds what is stored under "user1". *)
Lemma with_tokens_calls res st k :
  (forall st1,
      Gmail.client_credentials st1 = Gmail.userTokens st !! "user1" ->
      Gmail.calls st1 = Gmail.calls st ->
      extends (Gmail.userTokens st !! "user1") st1 (fst (k st1))) ->
  Forall (fun c => fst c = Gmail.userTokens st !! "user1")
         (new_calls st (fst (Gmail.with_tokens res st k))).
Proof.
  intros Hk. unfold Gmail.with_tokens.
  destruct (Gmail.userTokens st !! "user1") as [tokens|] eqn:Hu;
    [destruct (truthy_json tokens)|]; cbn [fst];
    try (unfold new_calls; rewrite drop_all; constructor).
  specialize (Hk (Gmail.setCredentials tokens st) eq_refl eq_refl).
  destruct Hk as (_ & _ & l & Hl & Hf). unfold new_calls.
  cbn [Gmail.setCredentials Gmail.calls] in Hl. now rewrite Hl, drop_app_length.
Qed.

Lemma gmail_send_calls req res st :
  Forall (fun c => fst c = Gmail.userTokens st !! "user1")
         (new_calls st (fst (Gmail.gmail_send G req res st))).
Proof.
  unfold Gmail.gmail_send.
  destruct (Gmail.destructure _ _) as [details|payload];
    [cbn [fst]; unfold new_calls; rewrite drop_all; constructor|].
  destruct (negb _); [cbn [fst]; unfold new_calls; rewrite drop_all; constructor|].
  apply with_tokens_calls. intros st1 Hc _.
  destruct (Gmail.api_call G _ st1) as [[details|data] st2] eqn:H1;
    cbn [fst]; apply api_call_extends in H1; now rewrite Hc in H1.
Qed.

Lemma gmail_labels_calls req res st :
  Forall (fun c => fst c = Gmail.userTokens st !! "user1")
         (new_calls st (fst (Gmail.gmail_labels G req res st))).
Proof.
  unfold Gmail.gmail_labels. apply with_tokens_calls. intros st1 Hc _.
  destruct (Gmail.api_call G _ st1) as [[details|data] st2] eqn:H1;
    cbn [fst]; apply api_call_extends in H1; now rewrite Hc in H1.
Qed.

Lemma gmail_mark_calls req res st :
  Forall (fun c => fst c = Gmail.userTokens st !! "user1")
         (new_calls st (fst (Gmail.gmail_mark G req res st))).
Proof.
  unfold Gmail.gmail_mark.
  destruct (Gmail.destructure _ _) as [details|payload];
    [cbn [fst]; unfold new_calls; rewrite drop_all; constructor|].
  apply with_tokens_calls. intros st1 Hc _.
  destruct (prop "action" payload) as [[| | |a| |]|];
    try (cbn [fst]; apply extends_refl).
  destruct (String.eqb a "read"); [|destruct (String.eqb a "unread")];
    try (cbn [fst]; apply extends_refl);
    destruct (Gmail.api_call G _ st1) as [[details|data] st2] eqn:H1;
    cbn [fst]; apply api_call_extends in H1; now rewrite Hc in H1.
Qed.

Lemma listing_calls format cap (shape : Json -> list Json -> Response)
    (empty other : Response) (fail : string -> Response) c st1 cred :
  Gmail.client_credentials st1 = cred ->
  extends cred st1
    (fst (match Gmail.api_call G c st1 with
          | (inl details, st) => (st, fail details)
          | (inr data, st) =>
            match prop "messages" data with
            | Some (JArray items) =>
              match Gmail.get_all G format (cap items) st with
              | (inr details, st) => (st, shape data details)
              | (inl details, st) => (st, fail details)
              end
            | Some v => if truthy_json v then (st, other) else (st, empty)
            | None => (st, empty)
            end
          end)).
Proof.
  intros Hc. destruct (Gmail.api_call G c st1) as [[details|data] st2] eqn:H1;
    apply api_call_extends in H1; rewrite Hc in H1; [exact H1|].
  destruct (prop "messages" data) as [[| | | |items|]|]; cbn [truthy_json fst];
    try exact H1; try (destruct (_ : bool); exact H1).
  destruct (Gmail.get_all G format (cap items) st2) as [[details|details] st3] eqn:H2;
    apply get_all_extends in H2; destruct H1 as (Hu & Hc1 & Hl);
    rewrite Hc1, Hc in H2; cbn [fst];
    (eapply extends_trans; [|exact H2]); split; auto.
Qed.

Lemma gmail_messages_calls req res st :
  Forall (fun c => fst c = Gmail.userTokens st !! "user1")
         (new_calls st (fst (Gmail.gmail_messages G req res st))).
Proof.
  unfold Gmail.gmail_messages. apply with_tokens_calls. intros st1 Hc _.
  exact (listing_calls "full" (firstn 10) _ _ _ _ _ st1 _ Hc).
Qed.

Lemma gmail_search_calls req res st :
  Forall (fun c => fst c = Gmail.userTokens st !! "user1")
         (new_calls st (fst (Gmail.gmail_search G req res st))).
Proof.
  unfold Gmail.gmail_search.
  destruct (negb _); [cbn [fst]; unfold new_calls; rewrite drop_all; constructor|].
  apply with_tokens_calls. intros st1 Hc _.
  exact (listing_calls "metadata" (fun l => l) _ _ _ _ _ st1 _ Hc).
Qed.

(** Whoever completes the OAuth callback, the tokens land under "user1". *)
Lemma oauth_callback_stores_user1 (origin : string) (req : Gmail.GRequest)
    (res : Response) (st : Gmail.State) (code : string) (tokens : Json) :
  Gmail.lookup_query "code" (Gmail.query req) = Some code ->
  code <> "" ->
  Gmail.getToken G code = Some tokens ->
  Gmail.userTokens (fst (Gmail.oauth_gmail_callback G origin req res st)) !! "user1"
  = Some tokens.
Proof.
  intros Hq Hne Hg. unfold Gmail.oauth_gmail_callback. rewrite Hq.
  change (default "" (Some code)) with code.
  apply String.eqb_neq in Hne. rewrite Hne, Hg. cbn. apply lookup_insert_eq.
Qed.

(** C10: a request to a [/gmail/*] route is answered without looking at who
    sent it: two requests that agree on query, route parameter and body get
    the same reply and leave the same state, whatever headers and cookies
    they carry; and every Gmail API call made for a request uses the
    credentials stored under the fixed key "user1". *)
Theorem gmail_ignores_caller (ep : Gmail.Endpoint) (req1 req2 : Gmail.GRequest)
    (st : Gmail.State) :
  same_but_caller req1 req2 ->
  caller_blind G ep req1 req2 st.
Proof.
  intros (Hq & Hm & Hp). split.
  - unfold Gmail.serve. destruct ep; cbn [Gmail.route];
      unfold Gmail.gmail_send, Gmail.gmail_messages, Gmail.gmail_search,
        Gmail.gmail_mark, Gmail.gmail_labels;
      rewrite ?Hq, ?Hm, ?Hp; reflexivity.
  - unfold Gmail.serve. destruct ep; cbn [Gmail.route].
    + apply gmail_send_calls.
    + apply gmail_messages_calls.
    + apply gmail_search_calls.
    + apply gmail_mark_calls.
    + apply gmail_labels_calls.
Qed.

End GmailFacts.

Lemma gmail_ignores_caller_witness :
  caller_blind Sample.gmail_env Gmail.Send Sample.send_from_alice Sample.send_from_bob
    Sample.gmail_connected.
Proof.
  apply gmail_ignores_caller. repeat split.
Defined.

(** What the two callers of the sample get: the same message sent with the
    stored credentials. *)
Example gmail_send_same_for_both :
  snd (Gmail.serve Sample.gmail_env Gmail.Send Sample.send_from_alice Sample.gmail_connected)
  = snd (Gmail.serve Sample.gmail_env Gmail.Send Sample.send_from_bob Sample.gmail_connected) /\
  List.map fst (Gmail.calls (fst (Gmail.serve Sample.gmail_env Gmail.Send
                                    Sample.send_from_bob Sample.gmail_connected)))
  = [Some (JObject [("access_token", JString "ya29.sample")])].
Proof. vm_compute. auto. Qed.

(** * Further properties of the code *)

(** ** The token store: one key at a time *)

Lemma overwrite_other uid prov arg row :
  (uid, prov) <> (u_userId arg, u_provider arg) ->
  has_key uid prov row = true -> overwrite arg row = row.
Proof.
  intros Hne Hk. unfold overwrite.
  destruct (has_key (u_userId arg) (u_provider arg) row) eqn:Ha; [|reflexivity].
  apply has_key_spec in Hk, Ha. congruence.
Qed.

Lemma select_upsert_other stamp arg uid prov table :
  (uid, prov) <> (u_userId arg, u_provider arg) ->
  select uid prov (upsert_rows stamp arg table) = select uid prov table.
Proof.
  intros Hne. unfold upsert_rows. fold (overwrite arg).
  destruct (existsb _ table).
  - unfold select. induction table as [|row table IH]; [reflexivity|].
    cbn [List.map List.filter]. rewrite has_key_overwrite.
    destruct (has_key uid prov row) eqn:Hk; [|exact IH].
    rewrite (overwrite_other uid prov arg row Hne Hk), IH. reflexivity.
  - unfold select. rewrite List.filter_app. cbn [List.filter].
    destruct (has_key uid prov (write_payload arg _)) eqn:Hk.
    + apply has_key_spec in Hk. unfold key_of in Hk. cbn in Hk.
      symmetry in Hk. contradiction.
    + apply app_nil_r.
Qed.

Lemma select_delete_same uid prov table :
  select uid prov (delete_rows uid prov table) = [].
Proof.
  unfold select, delete_rows. induction table as [|row table IH]; [reflexivity|].
  cbn [List.filter]. destruct (has_key uid prov row) eqn:Hk; cbn [negb List.filter];
    [exact IH|]. rewrite Hk. exact IH.
Qed.

Lemma select_delete_other uid prov uid' prov' table :
  (uid', prov') <> (uid, prov) ->
  select uid' prov' (delete_rows uid prov table) = select uid' prov' table.
Proof.
  intros Hne. unfold select, delete_rows.
  induction table as [|row table IH]; [reflexivity|]. cbn [List.filter].
  destruct (has_key uid prov row) eqn:Hk; cbn [negb List.filter].
  - destruct (has_key uid' prov' row) eqn:Hk'; [|exact IH].
    apply has_key_spec in Hk, Hk'. congruence.
  - rewrite IH. reflexivity.
Qed.

(** X1: over a table that respects the unique (user_id, provider) key,
    [getTokens] right after [upsertTokens row] returns exactly the record
    written, every other key reads as it did before, and the key stays
    unique. *)
Theorem upsertTokens_then_getTokens (E : Env) (row : UpsertArg) (w : World) :
  unique_keys (table w) ->
  written_and_read_back E row w.
Proof.
  intros Hu. unfold written_and_read_back, upsertTokens, getTokens, bind, history, emit,
    read_table, write_table, ret. cbn [fst snd table log].
  split; [|split].
  - unfold lookup_tokens.
    destruct (select_upsert (db_stamp E (log w)) row (table w) Hu) as [r ->]. reflexivity.
  - intros uid' prov' Hne. cbn [table]. unfold lookup_tokens.
    now rewrite select_upsert_other.
  - now apply unique_upsert.
Qed.

Lemma upsertTokens_then_getTokens_witness :
  written_and_read_back Sample.serving Sample.second_write Sample.two_tenants.
Proof.
  apply upsertTokens_then_getTokens.
  unfold unique_keys. apply (bool_decide_unpack _). vm_compute. reflexivity.
Defined.

(** X2: after [deleteTokens uid prov], [getTokens] for that key returns
    null, whatever the table held (duplicates included), and every other
    key reads as it did before. *)
Theorem deleteTokens_then_getTokens (uid prov : string) (w : World) :
  let w' := snd (deleteTokens uid prov w) in
  fst (deleteTokens uid prov w) = inr tt /\
  fst (getTokens uid prov w') = inr None /\
  others_untouched uid prov w w'.
Proof.
  unfold deleteTokens, getTokens, bind, read_table, write_table, emit, ret.
  cbn [fst snd table log]. split; [reflexivity|]. split.
  - unfold lookup_tokens. rewrite select_delete_same. reflexivity.
  - intros uid' prov' Hne. cbn [table]. unfold lookup_tokens.
    now rewrite select_delete_other.
Qed.

(** ** Session headers *)

Lemma append_cons (c : ascii) (s t : string) : String c s +:+ t = String c (s +:+ t).
Proof. reflexivity. Qed.

Lemma toLowerCase_app (s t : string) :
  toLowerCase (s +:+ t) = toLowerCase s +:+ toLowerCase t.
Proof.
  induction s as [|c s IH]; [reflexivity|].
  rewrite append_cons. cbn [toLowerCase]. now rewrite append_cons, IH.
Qed.

Lemma length_toLowerCase (s : string) : String.length (toLowerCase s) = String.length s.
Proof. induction s as [|c s IH]; [reflexivity|]. cbn. now rewrite IH. Qed.

Lemma prefix_app (p s : string) : String.prefix p (p +:+ s) = true.
Proof.
  induction p as [|c p IH]; [destruct s; reflexivity|].
  rewrite append_cons. cbn [String.prefix].
  destruct (ascii_dec c c); [exact IH|contradiction].
Qed.

Lemma slice_app (p s : string) : slice (String.length p) (p +:+ s) = s.
Proof.
  induction p as [|c p IH]; [reflexivity|].
  rewrite append_cons. cbn [String.length slice]. exact IH.
Qed.

(** X3: the scheme word of the header is matched without regard to case
    and removed: whatever the casing of "Bearer " in front of it, the
    token handed to the verifier is exactly what follows the 7-character
    prefix, and the [x-session] header is not looked at. *)
Theorem bearer_prefix_is_stripped (p t : string) (req : Request) :
  toLowerCase p = "bearer " ->
  bearer_token (with_authorization (Some (p +:+ t)) req) = t.
Proof.
  intros Hp.
  assert (Hlen : String.length p = 7%nat)
    by (rewrite <- length_toLowerCase, Hp; reflexivity).
  unfold bearer_token, with_authorization. cbn [authorization x_session].
  assert (Hor : forall b, or_else (Some (p +:+ t)) b = p +:+ t).
  { intros b. unfold or_else, truthy_str.
    destruct p as [|c p']; [discriminate|]. reflexivity. }
  rewrite Hor. unfold startsWith.
  rewrite toLowerCase_app, Hp, prefix_app, <- Hlen. apply slice_app.
Qed.

Lemma bearer_prefix_is_stripped_witness :
  bearer_token (with_authorization (Some ("BeArEr " +:+ "user1.jwt")) Sample2.no_headers)
  = "user1.jwt".
Proof. apply bearer_prefix_is_stripped. reflexivity. Defined.

Lemma requireSession_by_token {codec : Jwt.Codec} secret opts conv now req1 req2 res :
  bearer_token req1 = bearer_token req2 ->
  requireSessionWith secret opts conv now req1 res
  = requireSessionWith secret opts conv now req2 res.
Proof. intros Heq. unfold requireSessionWith. now rewrite Heq. Qed.

(** X4: of the two header sources the first non-empty one wins: with a
    non-empty [Authorization] the [x-session] header has no influence on
    the verdict; with [Authorization] absent or empty the verdict is the
    one [x-session] alone would get; and with neither the request is
    refused with 401 invalid_session. *)
Theorem first_nonempty_header_wins {codec : Jwt.Codec} (secret : string)
    (opts : Jwt.VerifyOptions) (conv : JsVal -> JsVal) (now : Z) (req : Request)
    (res : Response) :
  (truthy_str (authorization req) = true ->
   forall h, requireSessionWith secret opts conv now (with_x_session h req) res
             = requireSessionWith secret opts conv now req res) /\
  (truthy_str (authorization req) = false ->
   requireSessionWith secret opts conv now req res
   = requireSessionWith secret opts conv now
       (with_authorization (x_session req) (with_x_session None req)) res) /\
  (truthy_str (authorization req) = false -> truthy_str (x_session req) = false ->
   requireSessionWith secret opts conv now req fresh_response
   = (None, invalid_session_reply)).
Proof.
  split; [|split].
  - intros Ha h. apply requireSession_by_token.
    unfold bearer_token, with_x_session, or_else. cbn [authorization x_session].
    rewrite Ha. destruct (authorization req); [reflexivity|discriminate].
  - intros Ha. apply requireSession_by_token.
    unfold bearer_token, with_authorization, with_x_session, or_else.
    cbn [authorization x_session]. rewrite Ha. cbn [truthy_str].
    destruct (x_session req) as [x|]; [|reflexivity].
    cbn [truthy_str default]. destruct (negb (String.eqb x "")); reflexivity.
  - intros Ha Hx. unfold requireSessionWith, bearer_token, or_else. rewrite Ha, Hx.
    reflexivity.
Qed.

Lemma first_nonempty_header_wins_witness :
  requireSessionWith (codec := Sample.codec) Sample.secret Jwt.no_options (fun v => v)
    (Sample.issued + 1) Sample2.no_headers fresh_response
  = (None, invalid_session_reply).
Proof.
  apply (first_nonempty_header_wins (codec := Sample.codec) Sample.secret Jwt.no_options
           (fun v => v) (Sample.issued + 1) Sample2.no_headers fresh_response);
    reflexivity.
Defined.

(** X5: a token that verifies in every other respect but carries the user
    id 0 or the empty string is refused with 401 invalid_session, by each
    of the three servers: a falsy id counts as no id. *)
Theorem falsy_userId_is_refused {codec : Jwt.Codec} (secret : string)
    (opts : Jwt.VerifyOptions) (conv : JsVal -> JsVal) (now : Z) (req : Request)
    (p : Jwt.Payload) :
  Jwt.verify now (bearer_token req) secret opts = inr p ->
  Jwt.claim_userId p = Some (JsNum 0) \/ Jwt.claim_userId p = Some (JsStr "") ->
  requireSessionWith secret opts conv now req fresh_response = (None, invalid_session_reply).
Proof.
  intros Hv Hid. unfold requireSessionWith. rewrite Hv.
  destruct Hid as [-> | ->]; reflexivity.
Qed.

Lemma falsy_userId_is_refused_witness :
  requireSessionWith (codec := Sample2.codec) Sample.secret Jwt.no_options (fun v => v)
    (Sample.issued + 1) (Sample.bearing "zero.jwt" None JNull) fresh_response
  = (None, invalid_session_reply).
Proof.
  apply (falsy_userId_is_refused (codec := Sample2.codec) Sample.secret Jwt.no_options
           (fun v => v) (Sample.issued + 1) (Sample.bearing "zero.jwt" None JNull)
           (Jwt.payload Sample2.zero_id_token)); [reflexivity|left; reflexivity].
Defined.

(** X6: the Housecall Pro server admits a presented token exactly when it
    is signed with the server's secret, is within its validity window,
    lists the audience "housecallpro-mcp", names the configured issuer and
    carries a truthy user id; any other token gets 401 invalid_session. *)
Theorem housecallpro_session_iff {codec : Jwt.Codec} (secret issuer : string) (now : Z)
    (req : Request) (t : Jwt.Token) :
  bearer_token req <> "" ->
  Jwt.parse (bearer_token req) = Some t ->
  (housecallpro_admits secret issuer now t ->
   exists v, Jwt.claim_userId (Jwt.payload t) = Some v /\
     HousecallPro.requireSession secret issuer now req fresh_response
     = (Some {| userId := JsStr (String_ v) |}, fresh_response)) /\
  (~ housecallpro_admits secret issuer now t ->
   HousecallPro.requireSession secret issuer now req fresh_response
   = (None, invalid_session_reply)).
Proof.
  intros Hne Hparse. apply String.eqb_neq in Hne.
  unfold HousecallPro.requireSession, requireSessionWith, Jwt.verify, reject_session.
  rewrite Hne, Hparse. unfold Jwt.check_audience, Jwt.check_issuer, HousecallPro.verify_options.
  cbn [Jwt.audience Jwt.issuer].
  split.
  - intros (Hsig & Hnbf & Hexp & Haud & Hiss & v & Hv & Ht). exists v. split; [exact Hv|].
    apply String.eqb_eq in Hsig. rewrite Hsig. cbn [negb].
    assert (match Jwt.nbf (Jwt.payload t) with Some n => now <? n | None => false end = false)
      as -> by (destruct (Jwt.nbf (Jwt.payload t)) as [n|]; [specialize (Hnbf n eq_refl); lia|reflexivity]).
    assert (match Jwt.exp (Jwt.payload t) with Some e => e <=? now | None => false end = false)
      as -> by (destruct (Jwt.exp (Jwt.payload t)) as [e|]; [specialize (Hexp e eq_refl); lia|reflexivity]).
    assert (existsb (String.eqb "housecallpro-mcp") (Jwt.aud (Jwt.payload t)) = true) as ->
      by (apply existsb_exists; exists "housecallpro-mcp"; split; [exact Haud|apply String.eqb_refl]).
    rewrite Hiss, String.eqb_refl. cbn [negb]. rewrite Hv, Ht. reflexivity.
  - intros Hnot.
    destruct (String.eqb (Jwt.signedWith t) secret) eqn:Hsig; cbn [negb]; [|reflexivity].
    destruct (match Jwt.nbf _ with Some n => now <? n | None => false end) eqn:Hnbf;
      [reflexivity|].
    destruct (match Jwt.exp _ with Some e => e <=? now | None => false end) eqn:Hexp;
      [reflexivity|].
    destruct (existsb _ (Jwt.aud (Jwt.payload t))) eqn:Haud; cbn [negb]; [|reflexivity].
    destruct (Jwt.iss (Jwt.payload t)) as [i|] eqn:Hiss; cbn [negb]; [|reflexivity].
    destruct (String.eqb issuer i) eqn:Hi; cbn [negb]; [|reflexivity].
    destruct (Jwt.claim_userId (Jwt.payload t)) as [v|] eqn:Hv; [|reflexivity].
    destruct (truthy v) eqn:Ht; [|reflexivity].
    exfalso. apply Hnot. apply String.eqb_eq in Hsig, Hi. subst i.
    apply existsb_exists in Haud as [a [Hin Ha]]. apply String.eqb_eq in Ha. subst a.
    repeat split; auto.
    + intros n Hn. rewrite Hn in Hnbf. lia.
    + intros e He. rewrite He in Hexp. lia.
    + eauto.
Qed.

Lemma housecallpro_session_iff_witness :
  HousecallPro.requireSession (codec := Sample2.codec) Sample.secret "backend"
    (Sample.issued + 1) (Sample.bearing "other-issuer.jwt" None JNull) fresh_response
  = (None, invalid_session_reply).
Proof.
  apply (housecallpro_session_iff (codec := Sample2.codec) Sample.secret "backend"
           (Sample.issued + 1) (Sample.bearing "other-issuer.jwt" None JNull)
           Sample2.other_issuer_token); [discriminate|reflexivity|].
  intros (_ & _ & _ & _ & Hiss & _). discriminate.
Defined.

(** ** From [/chat] to the tool server: the life of a session token *)

Lemma chat_minted_exact (E : Env) (secret aud iss : string) (ttl : Z) (req_body : Json)
    (w : World) (tok : Jwt.Token) :
  fst (Backend.chat E secret aud iss ttl req_body w) = inr (Backend.Minted tok) ->
  tok = Jwt.sign (JsNum 1) (minted_at E w) secret aud iss (session_ttl ttl).
Proof.
  unfold Backend.chat, Backend.isQboConnected, minted_at, session_ttl.
  destruct (prop "message" req_body) as [[| | |message| |]|]; try discriminate.
  destruct (String.eqb message ""); [discriminate|].
  unfold bind at 1 2. rewrite getTokens_run, String_1.
  unfold bind, history, ret. cbn [fst snd table log].
  destruct (lookup_tokens _ _ _) as [row|]; [|discriminate].
  destruct (String.eqb (t_access_token row) ""); [discriminate|].
  destruct (t_expires_at row) as [e|];
    [destruct (negb (e =? 0) && (e <=? _))|]; cbn [negb fst];
    try discriminate; intros [= <-]; reflexivity.
Qed.

(** X7: a session token minted by [/chat] is accepted by a QuickBooks
    server sharing the secret, as user 1, at every clock before mint time
    plus the session lifetime (the configured seconds, an hour when that is
    0), is refused with 401 from that instant on, and is refused at any
    time by a server holding a different secret. *)
Theorem chat_token_accepted_until_expiry {codec : Jwt.Codec} (E : Env)
    (secret aud iss : string) (ttl : Z) (conv : JsVal -> JsVal) (req_body : Json)
    (w : World) (tok : Jwt.Token) (now : Z) (req : Request) :
  fst (Backend.chat E secret aud iss ttl req_body w) = inr (Backend.Minted tok) ->
  bearer_token req <> "" ->
  Jwt.parse (bearer_token req) = Some tok ->
  (now < minted_at E w + session_ttl ttl ->
   requireSessionWith secret Jwt.no_options conv now req fresh_response
   = (Some {| userId := conv (JsNum 1) |}, fresh_response)) /\
  (minted_at E w + session_ttl ttl <= now ->
   requireSessionWith secret Jwt.no_options conv now req fresh_response
   = (None, invalid_session_reply)) /\
  (forall other, other <> secret ->
   requireSessionWith other Jwt.no_options conv now req fresh_response
   = (None, invalid_session_reply)).
Proof.
  intros Hmint Hne Hparse. apply chat_minted_exact in Hmint. subst tok.
  apply String.eqb_neq in Hne.
  unfold requireSessionWith, Jwt.verify, reject_session. rewrite Hne, Hparse.
  cbn [Jwt.sign Jwt.signedWith Jwt.payload Jwt.nbf Jwt.exp Jwt.claim_userId].
  split; [|split].
  - intros Hlt. rewrite String.eqb_refl. cbn [negb].
    destruct (_ <=? now) eqn:Hle; [lia|]. reflexivity.
  - intros Hge. rewrite String.eqb_refl. cbn [negb].
    destruct (_ <=? now) eqn:Hle; [reflexivity|lia].
  - intros other Hother. apply not_eq_sym in Hother.
    apply String.eqb_neq in Hother. rewrite Hother. reflexivity.
Qed.

Lemma chat_token_accepted_until_expiry_witness :
  requireSessionWith (codec := Sample.codec) Sample.secret Jwt.no_options (fun v => v)
    (Sample.issued + 3599) (Sample.bearing "user1.jwt" None JNull) fresh_response
  = (Some {| userId := JsNum 1 |}, fresh_response).
Proof.
  apply (chat_token_accepted_until_expiry (codec := Sample.codec) Sample.serving
           Sample.secret "mcp" "backend" 0 (fun v => v) Sample.chat_body_a
           Sample.two_tenants Sample.user1_token (Sample.issued + 3599)
           (Sample.bearing "user1.jwt" None JNull)); [reflexivity|discriminate|reflexivity|].
  vm_compute. reflexivity.
Defined.

(** ** The API client, run by run *)

Section QbRuns.
Variable E : Env.
Variable QB_API_BASE : string.
Variable MINOR_VERSION : Z.
Variable isAuthError : Z -> string -> bool.

Lemma doFetch_run row url opts accessToken w :
  QbClient.doFetch E isAuthError row url opts accessToken w
  = (fetch_outcome E isAuthError row (api E (log w) (sent_call url opts accessToken)),
     after w (table w) [FetchApi (sent_call url opts accessToken)
                          (api E (log w) (sent_call url opts accessToken))]).
Proof.
  unfold QbClient.doFetch, fetch_outcome, bind, history, emit, ret, throw, after.
  cbn [fst snd table log]. fold (sent_call url opts accessToken).
  destruct (negb (status_ok _)).
  - destruct (isAuthError _ _ && truthy_str _); reflexivity.
  - destruct (JSON_parse E _); reflexivity.
Qed.

Lemma refreshWithQbo_run refresh_token uid realmId w :
  let sent := default "null" refresh_token in
  let resp := token_endpoint E (log w) sent in
  let called := log w ++ [PostTokenEndpoint sent resp] in
  QbClient.refreshWithQbo E refresh_token uid realmId w
  = if negb (status_ok (status resp))
    then (inl (Error ("QBO refresh failed: " +:+ pretty (status resp) +:+ " " +:+ text resp)),
          {| table := table w; log := called |})
    else match parse_token_data E (text resp) with
         | None => (inl SyntaxError, {| table := table w; log := called |})
         | Some data =>
           let row := refreshed_record expiry_computed (clock E called) refresh_token uid
                        realmId data in
           (inr tt, {| table := upsert_rows (db_stamp E called) row (table w);
                       log := called ++ [DbUpsert row] |})
         end.
Proof.
  unfold QbClient.refreshWithQbo, upsertTokens, bind, history, emit, read_table,
    write_table, throw. cbn [fst snd table log].
  destruct (negb (status_ok _)); [reflexivity|].
  destruct (parse_token_data E _); reflexivity.
Qed.

(** Every call under a bound context takes one of the shapes of [QbRun]. *)
Lemma qbRequest_run (c : Ctx) (endpoint : string) (opts : QbClient.QbOpts) (w : World)
    (r : Exn + Json) (w' : World) :
  QbClient.qbRequest E QB_API_BASE MINOR_VERSION isAuthError (Some c) endpoint opts w
  = (r, w') ->
  QbRun E QB_API_BASE MINOR_VERSION isAuthError c endpoint opts w r w'.
Proof.
  unfold QbClient.qbRequest.
  unfold bind at 1. rewrite getTokens_run.
  destruct (lookup_tokens _ "quickbooks" (table w)) as [row|] eqn:Hrow.
  2:{ unfold throw. intros [= <- <-]. apply not_connected. unfold tenant. now rewrite Hrow. }
  change (negb (negb (String.eqb (t_access_token row) "") && truthy_str (t_realmId row)))
    with (negb (usable row)).
  destruct (usable row) eqn:Hus; cbn [negb].
  2:{ unfold throw. intros [= <- <-]. apply not_connected. unfold tenant. now rewrite Hrow. }
  unfold bind at 1. rewrite doFetch_run. unfold after. cbn [log table].
  destruct (fetch_outcome E isAuthError row _) as [e|res] eqn:Hout1.
  { intros [= <- <-]. rewrite <- app_assoc. now apply (first_threw _ _ _ _ _ _ _ _ row e). }
  destruct (QbClient.needRefresh res) eqn:Hneed.
  2:{ unfold ret. intros [= <- <-]. rewrite <- app_assoc.
      now apply (first_served _ _ _ _ _ _ _ _ row res). }
  unfold bind at 1. rewrite refreshWithQbo_run. cbn [log table].
  rewrite <- !app_assoc. cbn [app].
  destruct (status_ok (status (token_endpoint E _ _))) eqn:Hok; cbn [negb].
  2:{ intros [= <- <-]. now apply (refresh_refused _ _ _ _ _ _ _ _ row res). }
  destruct (parse_token_data E _) as [data|] eqn:Hdata.
  2:{ intros [= <- <-]. now apply (refresh_unparsed _ _ _ _ _ _ _ _ row res). }
  cbn zeta.
  unfold bind at 1. rewrite getTokens_run. cbn [log table].
  rewrite <- !app_assoc. cbn [app].
  destruct (lookup_tokens _ "quickbooks" (upsert_rows _ _ _)) as [latest|] eqn:Hlatest.
  2:{ unfold throw. intros [= <- <-].
      apply (refreshed_without_token _ _ _ _ _ _ _ _ row res data); auto.
      unfold refreshed_table, written, tenant, refresh1, refresh_resp, refresh_sent, fetch1,
        reply1, call1, first_get, tenant, request_url.
      now rewrite Hlatest. }
  destruct (String.eqb (t_access_token latest) "") eqn:Hacc.
  { unfold throw. intros [= <- <-].
    apply (refreshed_without_token _ _ _ _ _ _ _ _ row res data); auto.
    unfold refreshed_table, written, tenant, refresh1, refresh_resp, refresh_sent, fetch1,
      reply1, call1, first_get, tenant, request_url.
    rewrite Hlatest. now apply String.eqb_eq. }
  apply String.eqb_neq in Hacc.
  unfold bind at 1. rewrite doFetch_run. unfold after. cbn [log table].
  match goal with
  | |- context [fetch_outcome E isAuthError row ?x] =>
    destruct (fetch_outcome E isAuthError row x) as [e|res2] eqn:Hout2
  end.
  { intros [= <- <-]. rewrite <- app_assoc.
    now apply (retry_threw _ _ _ _ _ _ _ _ row res data latest e). }
  destruct (QbClient.needRefresh res2) eqn:Hneed2; unfold throw, ret; intros [= <- <-];
    rewrite <- app_assoc.
  - now apply (retry_unauthorized _ _ _ _ _ _ _ _ row res data latest res2).
  - now apply (retry_served _ _ _ _ _ _ _ _ row res data latest res2).
Qed.

End QbRuns.

Section QbFacts.
Variable E : Env.
Variable QB_API_BASE : string.
Variable MINOR_VERSION : Z.
Variable isAuthError : Z -> string -> bool.

Notation "'request'" := (QbClient.qbRequest E QB_API_BASE MINOR_VERSION isAuthError).

Lemma performed_after (w : World) (t : list TokenRow) (l : list Effect) :
  performed w (after w t l) = l.
Proof. apply performed_app. Qed.

(** Splits a run of [request (Some c)] into the shapes of [QbRun]. *)
Ltac shapes c endpoint opts w :=
  let r := fresh "r" in
  let w' := fresh "w'" in
  let Hrun := fresh "Hrun" in
  destruct (request (Some c) endpoint opts w) as [r w'] eqn:Hrun;
  apply qbRequest_run in Hrun; cbn [fst snd];
  destruct Hrun; rewrite ?performed_after; cbn [table after].

(** X8: without a bound context the call throws "Missing request context"
    and does nothing at all; with a context but no stored credential, or
    one lacking the access token or the realm id, it throws "QuickBooks not
    connected" after the one store read: no upstream request, no refresh,
    no write. *)
Theorem qbRequest_fails_fast (endpoint : string) (opts : QbClient.QbOpts) (w : World) :
  request None endpoint opts w = (inl (Error "Missing request context"), w) /\
  (forall c, unusable_credential c w ->
     request (Some c) endpoint opts w
     = (inl (Error "QuickBooks not connected"),
        after w (table w) [DbGet (tenant c) "quickbooks"])).
Proof.
  split; [reflexivity|]. intros c Hbad. unfold unusable_credential in Hbad.
  destruct (request (Some c) endpoint opts w) as [r w'] eqn:Hrun.
  apply qbRequest_run in Hrun.
  destruct Hrun as [H|row e Hrow Hus|row res Hrow Hus|row res Hrow Hus|row res Hrow Hus
                    |row res data Hrow Hus|row res data latest e Hrow Hus
                    |row res data latest res2 Hrow Hus|row res data latest res2 Hrow Hus];
    [reflexivity|..]; rewrite Hrow in Hbad; congruence.
Qed.

(** Overwriting a credential that reads back gives one that reads back as
    the record written. *)
Lemma lookup_upsert_found stamp arg table row :
  lookup_tokens (u_userId arg) (u_provider arg) table = Some row ->
  lookup_tokens (u_userId arg) (u_provider arg) (upsert_rows stamp arg table)
  = Some (tokens_of arg).
Proof.
  unfold lookup_tokens. intros Hrow.
  destruct (select (u_userId arg) (u_provider arg) table) as [|x [|y rest]] eqn:Hsel;
    try discriminate.
  unfold upsert_rows. fold (overwrite arg).
  destruct (existsb _ table) eqn:Hex.
  - rewrite select_overwrite, Hsel. reflexivity.
  - apply select_nil_iff in Hex. congruence.
Qed.

Lemma tenant_key_ne (c : Ctx) (uid prov : string) :
  (uid, prov) <> (tenant c, "quickbooks") ->
  (uid, prov) <> (String_ (userId c), "quickbooks").
Proof. exact (fun H => H). Qed.

(** X9: when the first upstream reply is a failure that the server does not
    class as an authorization failure, or the stored credential holds no
    refresh token, the call throws "QBO error: <status> <text>" after that
    single request: the token endpoint is not called and the store is not
    written. *)
Theorem qbRequest_reports_upstream_failure (c : Ctx) (endpoint : string)
    (opts : QbClient.QbOpts) (w : World) (sent : ApiCall) (resp : HttpResp)
    (rest : list (ApiCall * HttpResp)) :
  let out := request (Some c) endpoint opts w in
  api_calls (performed w (snd out)) = (sent, resp) :: rest ->
  status_ok (status resp) = false ->
  isAuthError (status resp) (text resp) = false \/ no_refresh_token c w ->
  fst out = inl (qbo_error resp) /\ rest = [] /\
  refresh_calls (performed w (snd out)) = [] /\
  table (snd out) = table w.
Proof.
  unfold no_refresh_token.
  shapes c endpoint opts w; cbn [api_calls refresh_calls flat_map app before_retry fetch1
    fetch2 first_get refresh1];
    try discriminate; intros [= <- <- <-] Hbad Hwhy;
    match goal with
    | H : fetch_outcome _ _ _ _ = _ |- _ => unfold fetch_outcome in H; rewrite Hbad in H;
        cbn [negb] in H
    end;
    match goal with
    | Hrow : lookup_tokens _ _ _ = Some _ |- _ => rewrite Hrow in Hwhy
    end;
    match goal with
    | H : (if ?b && ?t then _ else _) = _ |- _ =>
        assert (b && t = false) as Hno
          by (destruct Hwhy as [-> | ->]; [reflexivity | apply andb_false_r]);
        rewrite Hno in H; try discriminate; injection H as <-
    end.
  repeat split.
Qed.

(** X10: a token endpoint that turns the refresh down ends the call: it
    throws "QBO refresh failed: <status> <text>", the upstream API has been
    asked exactly once, and the stored credential is left as it was. *)
Theorem qbRequest_stops_when_refresh_is_refused (c : Ctx) (endpoint : string)
    (opts : QbClient.QbOpts) (w : World) (sent : string) (resp : HttpResp) :
  let out := request (Some c) endpoint opts w in
  In (sent, resp) (refresh_calls (performed w (snd out))) ->
  status_ok (status resp) = false ->
  fst out = inl (refresh_error resp) /\
  length (api_calls (performed w (snd out))) = 1%nat /\
  table (snd out) = table w.
Proof.
  shapes c endpoint opts w; cbn [api_calls refresh_calls flat_map app before_retry fetch1
    fetch2 first_get refresh1 In];
    intros Hin Hbad; try contradiction;
    destruct Hin as [[= <- <-]|[]]; try congruence.
  repeat split.
Qed.

(** X11: when the upstream API was asked twice, the token endpoint was
    called once in between with the stored refresh token, the second
    request is the first one again (same URL, method and body) bearing the
    access token the token endpoint returned, and the store now holds that
    access token for the caller under the realm id it had. *)
Theorem qbRequest_retries_with_refreshed_token (c : Ctx) (endpoint : string)
    (opts : QbClient.QbOpts) (w : World) (first second : ApiCall) (r1 r2 : HttpResp) :
  let out := request (Some c) endpoint opts w in
  api_calls (performed w (snd out)) = [(first, r1); (second, r2)] ->
  exists row resp data latest,
    lookup_tokens (tenant c) "quickbooks" (table w) = Some row /\
    refresh_calls (performed w (snd out)) = [(refresh_sent row, resp)] /\
    parse_token_data E (text resp) = Some data /\
    bearer first = t_access_token row /\
    bearer second = d_access_token data /\
    (url second, method second, sent_body second)
    = (url first, method first, sent_body first) /\
    lookup_tokens (tenant c) "quickbooks" (table (snd out)) = Some latest /\
    t_access_token latest = d_access_token data /\
    t_realmId latest = t_realmId row.
Proof.
  shapes c endpoint opts w; cbn [api_calls refresh_calls flat_map app before_retry fetch1
    fetch2 first_get refresh1];
    try discriminate; intros [= <- <- <- <-];
    match goal with
    | Hrow : lookup_tokens _ _ (table w) = Some ?row,
      Hdata : parse_token_data E _ = Some ?data,
      Hlatest : lookup_tokens _ _ (refreshed_table _ _ _ _ _ _ _ _ _) = Some ?latest |- _ =>
        exists row, (refresh_resp E QB_API_BASE MINOR_VERSION c endpoint opts w row),
               data, latest;
        pose proof Hlatest as Hread; unfold refreshed_table in Hread;
        rewrite (lookup_upsert_found _ (written E QB_API_BASE MINOR_VERSION c endpoint
                                          opts w row data) (table w) row Hrow) in Hread;
        injection Hread as <-
    end;
    repeat split; assumption.
Qed.

(** X12: whatever the outcome, a call reads and writes the store only under
    the caller's own user id and the provider "quickbooks", and every other
    credential reads back as before. *)
Theorem qbRequest_stays_with_its_tenant (c : Ctx) (endpoint : string)
    (opts : QbClient.QbOpts) (w : World) :
  let out := request (Some c) endpoint opts w in
  store_access_only (tenant c) "quickbooks" (performed w (snd out)) /\
  others_untouched (tenant c) "quickbooks" w (snd out).
Proof.
  shapes c endpoint opts w;
    (split;
     [unfold store_access_only; cbn [before_retry app];
      repeat (apply List.Forall_cons; [cbn; auto|]); apply List.Forall_nil|]);
    intros uid' prov' Hne; unfold after; cbn [table]; try reflexivity;
    unfold refreshed_table, lookup_tokens; now rewrite select_upsert_other.
Qed.

(** X13: a 2xx reply whose parsed body has a truthy [needRefresh] member
    is handled like an authorization failure: [result?.needRefresh] does
    not tell the two apart, and the token endpoint is called, once. *)
Theorem qbRequest_refreshes_on_needRefresh_body (c : Ctx) (endpoint : string)
    (opts : QbClient.QbOpts) (w : World) (sent : ApiCall) (resp : HttpResp)
    (rest : list (ApiCall * HttpResp)) (j : Json) :
  let out := request (Some c) endpoint opts w in
  api_calls (performed w (snd out)) = (sent, resp) :: rest ->
  status_ok (status resp) = true ->
  JSON_parse E (if String.eqb (text resp) "" then "{}" else text resp) = Some j ->
  body_asks_refresh j = true ->
  length (refresh_calls (performed w (snd out))) = 1%nat.
Proof.
  unfold body_asks_refresh.
  shapes c endpoint opts w; cbn [api_calls refresh_calls flat_map app before_retry fetch1
    fetch2 first_get refresh1 length];
    try discriminate; try reflexivity; intros [= <- <- <-] Hok Hj Hask;
    match goal with
    | H : fetch_outcome _ _ _ (reply1 _ _ _ _ _ _ _ _) = _ |- _ =>
        unfold fetch_outcome in H; rewrite Hok, Hj in H; cbn [negb] in H;
        try discriminate; injection H as <-
    end; congruence.
Qed.

(** A run appends to the log, and every upstream request in what it
    appends was built from the options it was given. *)
Lemma qbRequest_appends (store : option Ctx) (endpoint : string)
    (opts : QbClient.QbOpts) (w : World) :
  exists l, log (snd (request store endpoint opts w)) = log w ++ l /\
            Forall (fun e => match e with
                             | FetchApi call _ =>
                               call = sent_call (url call) opts (bearer call)
                             | _ => True
                             end) l.
Proof.
  destruct store as [c|]; [|exists []; cbn; split; [now rewrite app_nil_r|constructor]].
  destruct (request (Some c) endpoint opts w) as [r w'] eqn:Hrun.
  apply qbRequest_run in Hrun. cbn [snd].
  destruct Hrun; unfold after; cbn [log]; eexists; (split; [reflexivity|]);
    cbn [before_retry app];
    repeat (apply List.Forall_cons; [cbn; auto|]); apply List.Forall_nil.
Qed.

End QbFacts.

Lemma qbRequest_fails_fast_witness :
  QbClient.qbRequest Sample.serving "https://sandbox-quickbooks.api.intuit.com" 75
    QuickBooksNum.isAuthError (Some Sample.user1) "customer/42" QbClient.default_opts
    Sample3.half_connected
  = (inl (Error "QuickBooks not connected"),
     after Sample3.half_connected (table Sample3.half_connected) [DbGet "1" "quickbooks"]).
Proof.
  apply (proj2 (qbRequest_fails_fast Sample.serving
           "https://sandbox-quickbooks.api.intuit.com" 75 QuickBooksNum.isAuthError
           "customer/42" QbClient.default_opts Sample3.half_connected) Sample.user1).
  reflexivity.
Defined.

Lemma qbRequest_reports_upstream_failure_witness :
  fst (Sample4.run Sample3.failing) = inl (qbo_error Sample4.unavailable) /\
  @nil (ApiCall * HttpResp) = [] /\
  refresh_calls (performed Sample.connected_world (snd (Sample4.run Sample3.failing))) = [] /\
  table (snd (Sample4.run Sample3.failing)) = table Sample.connected_world.
Proof.
  apply (qbRequest_reports_upstream_failure Sample3.failing Sample4.base 75
           QuickBooksNum.isAuthError Sample.user1 "customer/42" QbClient.default_opts
           Sample.connected_world Sample3.get_customer Sample4.unavailable []).
  - vm_compute. reflexivity.
  - reflexivity.
  - left. reflexivity.
Defined.

Lemma qbRequest_stops_when_refresh_is_refused_witness :
  fst (Sample4.run Sample.refusing) = inl (refresh_error Sample4.invalid_grant) /\
  length (api_calls (performed Sample.connected_world (snd (Sample4.run Sample.refusing))))
  = 1%nat /\
  table (snd (Sample4.run Sample.refusing)) = table Sample.connected_world.
Proof.
  apply (qbRequest_stops_when_refresh_is_refused Sample.refusing Sample4.base 75
           QuickBooksNum.isAuthError Sample.user1 "customer/42" QbClient.default_opts
           Sample.connected_world "rt-1" Sample4.invalid_grant).
  - vm_compute. left. reflexivity.
  - reflexivity.
Defined.

Lemma qbRequest_retries_with_refreshed_token_witness :
  exists row resp data latest,
    lookup_tokens "1" "quickbooks" (table Sample.connected_world) = Some row /\
    refresh_calls (performed Sample.connected_world (snd (Sample4.run Sample3.expiring)))
    = [(refresh_sent row, resp)] /\
    parse_token_data Sample3.expiring (text resp) = Some data /\
    bearer Sample3.get_customer = t_access_token row /\
    bearer Sample4.get_customer_again = d_access_token data /\
    (url Sample4.get_customer_again, method Sample4.get_customer_again,
     sent_body Sample4.get_customer_again)
    = (url Sample3.get_customer, method Sample3.get_customer,
       sent_body Sample3.get_customer) /\
    lookup_tokens "1" "quickbooks" (table (snd (Sample4.run Sample3.expiring)))
    = Some latest /\
    t_access_token latest = d_access_token data /\
    t_realmId latest = t_realmId row.
Proof.
  apply (qbRequest_retries_with_refreshed_token Sample3.expiring Sample4.base 75
           QuickBooksNum.isAuthError Sample.user1 "customer/42" QbClient.default_opts
           Sample.connected_world Sample3.get_customer Sample4.get_customer_again
           Sample.unauthorized Sample.success).
  vm_compute. reflexivity.
Defined.

Lemma qbRequest_refreshes_on_needRefresh_body_witness :
  length (refresh_calls (performed Sample.connected_world
                           (snd (Sample4.run Sample3.echoing)))) = 1%nat.
Proof.
  apply (qbRequest_refreshes_on_needRefresh_body Sample3.echoing Sample4.base 75
           QuickBooksNum.isAuthError Sample.user1 "customer/42" QbClient.default_opts
           Sample.connected_world Sample3.get_customer Sample4.asks_refresh
           [(Sample4.get_customer_again, Sample4.asks_refresh)]
           (JObject [("needRefresh", JBool true)])).
  - vm_compute. reflexivity.
  - reflexivity.
  - reflexivity.
  - reflexivity.
Defined.

(** ** Streams and the store *)

Section StreamFacts.
Context {codec : Jwt.Codec}.
Variable secret : string.
Variable opts : Jwt.VerifyOptions.
Variable conv : JsVal -> JsVal.
Variable handlePostMessage : option Ctx -> Json -> M Json.

Notation "'rs'" := (requireSessionWith secret opts conv).
Notation "'step''" := (step rs handlePostMessage).
Notation "'run''" := (run rs handlePostMessage).

(** X14: a stream stays registered only when the MCP server connected to
    it. For a verified opening request: after a successful connect the
    transport sits in the registry under its key with the identity
    verified from that request; after a connect that threw, the close of
    the ended response has taken it out again, so that any later post
    naming it is refused, and a throw before headers went out is answered
    500 sse_failed. Either way the store is not touched. *)
Theorem stream_registered_only_while_connected (st : Server) (now : Z) (sid : string)
    (c : ConnectOutcome) (req : Request) (sess : Ctx) :
  fst (rs now req fresh_response) = Some sess ->
  let out := step' st (OpenStream now sid c req) in
  (c = Connected ->
   activeTransports (fst out) !! stream_key sid
   = Some {| sessionId := sid; opened_as := sess |}) /\
  (c <> Connected ->
   activeTransports (fst out) !! stream_key sid = None /\
   forall now' post, post_key post = stream_key sid ->
                     refused rs handlePostMessage (fst out) now' post) /\
  (c = ThrewBeforeHeaders -> replies (snd out) = [(500, error_body "sse_failed")]) /\
  world (fst out) = world st /\ handled (fst out) = handled st.
Proof.
  intros Hs. cbn [step]. unfold get_sse, stream_key.
  destruct (requireSession_fresh secret opts conv now req) as [[sess' Hs']|Hs'];
    rewrite Hs' in Hs |- *; [|discriminate].
  injection Hs as ->.
  assert (Hgone : forall m : gmap string Transport,
             delete (or_else (Some sid) "default")
               (<[or_else (Some sid) "default" := {| sessionId := sid; opened_as := sess |}]> m)
             !! or_else (Some sid) "default" = None)
    by (intros m; apply lookup_delete_eq).
  destruct c; cbn [fst snd activeTransports world handled];
    (split; [intros Hc; try discriminate; apply lookup_insert_eq|]);
    (split; [intros Hc; try contradiction|]);
    try (split; [intros Hc; try discriminate; reflexivity|]);
    try (split; reflexivity).
  all: split; [apply Hgone|].
  all: intros now' post Hkey; apply post_without_transport;
    cbn [activeTransports]; rewrite Hkey; apply Hgone.
Qed.

(** One step appends to the handled messages, and a step that appends
    nothing leaves the world as it was. *)
Lemma step_handled st ev :
  exists l, handled (fst (step' st ev)) = handled st ++ l /\
            (l = [] -> world (fst (step' st ev)) = world st).
Proof.
  destruct ev as [now sid c req|now req|sid]; cbn [step].
  - exists []. unfold get_sse. destruct (rs now req fresh_response) as [[sess|] res];
      [destruct c|]; cbn [fst handled world]; now rewrite app_nil_r.
  - unfold post_messages. destruct (rs now req fresh_response) as [[sess|] res];
      [|exists []; now rewrite app_nil_r].
    destruct (activeTransports st !! _); [|exists []; now rewrite app_nil_r].
    unfold ctxStore_run. destruct (negb _); [exists []; now rewrite app_nil_r|].
    destruct (handlePostMessage _ _ _) as [r w].
    cbn [fst handled world]. eexists. split; [reflexivity|discriminate].
  - exists []. cbn [fst on_close handled world]. now rewrite app_nil_r.
Qed.

Lemma run_handled evs st :
  exists l, handled (run' evs st) = handled st ++ l /\
            (l = [] -> world (run' evs st) = world st).
Proof.
  revert st. induction evs as [|ev evs IH]; intros st.
  - exists []. cbn. now rewrite app_nil_r.
  - cbn [run fold_left]. destruct (IH (fst (step' st ev))) as [l2 [Hh Hw]].
    destruct (step_handled st ev) as [l1 [Hh1 Hw1]].
    exists (l1 ++ l2). fold (run rs handlePostMessage evs (fst (step' st ev))).
    rewrite Hh, Hh1, <- app_assoc. split; [reflexivity|].
    intros Hnil. apply app_eq_nil in Hnil as [-> ->].
    rewrite Hw, Hw1; reflexivity.
Qed.

(** X15: the token store and the record of outside calls change only
    through handled messages: over any sequence of stream opens, posts and
    closes after which no further message counts as handled, the world is
    what it was, however many requests were refused or streams opened. *)
Theorem world_changes_only_through_handled_posts (evs : list Event) (st : Server) :
  handled (run' evs st) = handled st -> world (run' evs st) = world st.
Proof.
  intros Hsame. destruct (run_handled evs st) as [l [Hh Hw]].
  apply Hw. rewrite Hh in Hsame.
  rewrite <- (app_nil_r (handled st)) in Hsame at 2.
  now apply app_inv_head in Hsame.
Qed.

End StreamFacts.

Lemma stream_registered_only_while_connected_witness :
  let out := QuickBooksNum.step (codec := Sample.codec) Sample.serving Sample.secret 75
               (empty_server Sample.two_tenants)
               (OpenStream (Sample.issued + 1) "7f9c-stream" ThrewBeforeHeaders
                  (Sample.bearing "user1.jwt" None JNull)) in
  activeTransports (fst out) !! stream_key "7f9c-stream" = None /\
  forall now' post, post_key post = stream_key "7f9c-stream" ->
    refused (QuickBooksNum.requireSession (codec := Sample.codec) Sample.secret)
      (QuickBooksNum.tools_call Sample.serving 75) (fst out) now' post.
Proof.
  apply (stream_registered_only_while_connected (codec := Sample.codec) Sample.secret
           Jwt.no_options (fun v => v) (QuickBooksNum.tools_call Sample.serving 75)
           (empty_server Sample.two_tenants) (Sample.issued + 1) "7f9c-stream"
           ThrewBeforeHeaders (Sample.bearing "user1.jwt" None JNull) Sample.user1).
  - reflexivity.
  - discriminate.
Defined.

Lemma world_changes_only_through_handled_posts_witness :
  world (QuickBooksNum.run (codec := Sample.codec) Sample.serving Sample.secret 75
           Sample5.failed_open (empty_server Sample.two_tenants))
  = world (empty_server Sample.two_tenants).
Proof.
  apply (world_changes_only_through_handled_posts (codec := Sample.codec) Sample.secret
           Jwt.no_options (fun v => v) (QuickBooksNum.tools_call Sample.serving 75)
           Sample5.failed_open (empty_server Sample.two_tenants)).
  reflexivity.
Defined.

(** ** Phone numbers *)

Section PhoneFacts.
Import Sms.

Lemma strip_app (a b : string) :
  strip_non_digits (a +:+ b) = strip_non_digits a +:+ strip_non_digits b.
Proof.
  induction a as [|c a IH]; [reflexivity|].
  rewrite append_cons. cbn [strip_non_digits]. rewrite IH.
  destruct (is_digit c); [now rewrite append_cons|reflexivity].
Qed.

Lemma all_digits_strip (s : string) : all_digits (strip_non_digits s) = true.
Proof.
  induction s as [|c s IH]; [reflexivity|]. cbn [strip_non_digits].
  destruct (is_digit c) eqn:Hc; [cbn [all_digits]; now rewrite Hc|exact IH].
Qed.

Lemma strip_digits (s : string) : all_digits s = true -> strip_non_digits s = s.
Proof.
  induction s as [|c s IH]; [reflexivity|]. cbn [all_digits strip_non_digits].
  intros [Hc Hs]%andb_prop. rewrite Hc, IH; auto.
Qed.

Lemma strip_strip (s : string) :
  strip_non_digits (strip_non_digits s) = strip_non_digits s.
Proof. apply strip_digits, all_digits_strip. Qed.

Lemma slices_cover (s : string) :
  SMSService.slice_between 0 3 s +:+ SMSService.slice_between 3 6 s +:+ slice 6 s = s.
Proof.
  destruct s as [|a [|b [|c [|d [|e [|f s]]]]]]; reflexivity.
Qed.

Lemma strip_us_display (number : string) :
  strip_non_digits (SMSService.us_display number)
  = String "1" (strip_non_digits number).
Proof.
  unfold SMSService.us_display. rewrite !strip_app.
  change (strip_non_digits "+1 (") with "1"%string.
  change (strip_non_digits ") ") with ""%string.
  change (strip_non_digits "-") with ""%string.
  rewrite <- (slices_cover number) at 4. rewrite !strip_app. reflexivity.
Qed.

Lemma digits_no_plus (ds : string) : all_digits ds = true -> startsWith "+" ds = false.
Proof.
  destruct ds as [|c ds]; [reflexivity|]. cbn [all_digits]. intros [Hc _]%andb_prop.
  unfold startsWith. cbn [String.prefix].
  destruct (ascii_dec c "+") as [->|Hne]; [discriminate|].
  destruct (Ascii.ascii_dec "+" c) as [<-|_]; [contradiction|reflexivity].
Qed.

(** What the route dials, by the digits of its input alone. *)
Lemma formattedPhone_digits (to : string) :
  formattedPhone to
  = if Nat.eqb (String.length (strip_non_digits to)) 10
    then String "+" (String "1" (strip_non_digits to))
    else String "+" (strip_non_digits to).
Proof.
  unfold formattedPhone.
  destruct (Nat.eqb _ 10); [reflexivity|].
  destruct (_ && _); [reflexivity|].
  now rewrite (digits_no_plus _ (all_digits_strip to)).
Qed.

Lemma regex_plus (ds : string) :
  phoneRegex_test (String "+" ds)
  = match ds with
    | String c ds' => is_digit_1_9 c && all_digits ds'
                      && Nat.leb 1 (String.length ds') && Nat.leb (String.length ds') 14
    | EmptyString => false
    end.
Proof. reflexivity. Qed.

Lemma first_digit_1_9 (c : ascii) (ds : string) :
  is_digit c = true -> is_digit_1_9 c = negb (startsWith "0" (String c ds)).
Proof.
  intros Hc. unfold startsWith. cbn [String.prefix].
  destruct (Ascii.ascii_dec "0" c) as [<-|Hne]; [now destruct ds|].
  cbn [negb]. unfold is_digit in Hc. unfold is_digit_1_9.
  apply andb_prop in Hc as [Hlo Hhi]. rewrite Hhi, andb_true_r.
  apply Nat.leb_le in Hlo. apply Nat.leb_le.
  destruct (Nat.eq_dec (nat_of_ascii c) 48%nat) as [Heq|]; [|lia].
  exfalso. apply Hne. rewrite <- (ascii_nat_embedding c), Heq. reflexivity.
Qed.

(** The route accepts a number exactly when its digits are [dialable]. *)
Lemma regex_formattedPhone (to : string) :
  phoneRegex_test (formattedPhone to) = dialable (strip_non_digits to).
Proof.
  rewrite formattedPhone_digits. unfold dialable.
  pose proof (all_digits_strip to) as Hd.
  destruct (Nat.eqb _ 10) eqn:Hten.
  - rewrite regex_plus. apply Nat.eqb_eq in Hten. cbn [orb].
    rewrite Hd, Hten. reflexivity.
  - rewrite regex_plus. cbn [orb].
    destruct (strip_non_digits to) as [|c ds]; [reflexivity|].
    cbn [all_digits] in Hd. apply andb_prop in Hd as [Hc Hds].
    rewrite (first_digit_1_9 c ds Hc), Hds. cbn [String.length].
    destruct (negb _); cbn [andb]; [|now rewrite andb_false_r].
    rewrite andb_true_r. reflexivity.
Qed.

(** X16: whatever the request, [/sms/send] calls Twilio at most once, from
    the configured number, with the posted message as body and a
    destination of the shape [+], a digit from 1 to 9, one to fourteen
    more digits. *)
Theorem sms_send_dials_e164_only (S : SmsEnv) (body : Json) (args : CreateArgs) :
  In args (fst (sms_send S body)) ->
  fst (sms_send S body) = [args] /\
  e164_shaped (create_to args) /\
  create_from args = TWILIO_PHONE_NUMBER S /\
  prop "message" body = Some (create_body args).
Proof.
  unfold sms_send.
  destruct (negb (truthy_field (prop "to" body)) || _); [intros []|].
  destruct (twilioClient S) as [create|]; [|intros []].
  destruct (prop "to" body) as [[| | |to| |]|]; try (intros []).
  destruct (prop "message" body) as [message|]; [|intros []].
  destruct (phoneRegex_test (formattedPhone to)) eqn:Hre; cbn [negb]; [|intros []].
  assert (Hshape : e164_shaped (formattedPhone to)).
  { rewrite formattedPhone_digits in Hre |- *.
    destruct (Nat.eqb _ 10); rewrite regex_plus in Hre.
    - apply andb_prop in Hre as [[[H1 H2]%andb_prop H3]%andb_prop H4].
      eexists _, _. split; [reflexivity|]. repeat split; auto; now apply Nat.leb_le.
    - destruct (strip_non_digits to) as [|c ds]; [discriminate|].
      apply andb_prop in Hre as [[[H1 H2]%andb_prop H3]%andb_prop H4].
      eexists _, _. split; [reflexivity|]. repeat split; auto; now apply Nat.leb_le. }
  destruct (create _); cbn [fst In]; intros [<-|[]]; repeat split; assumption.
Qed.

(** X17: with Twilio configured, a string [to] and a truthy message, the
    route calls Twilio exactly when the digits of [to] are ten in number, or
    two to fifteen with a first digit other than 0; punctuation, spaces and
    letters in [to] play no part, and otherwise the answer is 400. *)
Theorem sms_send_calls_iff_dialable (S : SmsEnv) (body : Json)
    (create : CreateArgs -> TwilioError + TwilioMessage) (to : string) (message : Json) :
  twilioClient S = Some create ->
  prop "to" body = Some (JString to) ->
  prop "message" body = Some message ->
  truthy_json message = true ->
  (fst (sms_send S body) <> [] <-> dialable (strip_non_digits to) = true) /\
  (dialable (strip_non_digits to) = false -> fst (snd (sms_send S body)) = 400).
Proof.
  intros HS Hto Hmsg Htruthy. unfold sms_send. rewrite HS, Hto, Hmsg.
  cbn [truthy_field truthy_json]. rewrite Htruthy. cbn [negb orb].
  rewrite regex_formattedPhone.
  destruct (String.eqb to "") eqn:Hempty; cbn [negb orb].
  - apply String.eqb_eq in Hempty as ->. cbn. split; [split; [congruence|discriminate]|auto].
  - destruct (dialable (strip_non_digits to)); cbn [negb].
    + split; [|discriminate]. split; [reflexivity|].
      intros _. destruct (create _); discriminate.
    + cbn [fst snd]. split; [split; [congruence|discriminate]|reflexivity].
Qed.

(** X18: the UI's display formatting does not change the number the route
    dials: sending what [formatPhoneNumber] shows reaches the same
    destination as sending the original input. *)
Theorem display_format_dials_same_number (phoneNumber : string) :
  formattedPhone (SMSService.formatPhoneNumber phoneNumber) = formattedPhone phoneNumber.
Proof.
  rewrite !formattedPhone_digits. unfold SMSService.formatPhoneNumber.
  set (cleaned := strip_non_digits phoneNumber).
  destruct (Nat.eqb (String.length cleaned) 11 && startsWith "1" cleaned) eqn:Hus.
  - apply andb_prop in Hus as [Hlen Hone]. apply Nat.eqb_eq in Hlen.
    destruct cleaned as [|c number] eqn:Hc; [discriminate|].
    unfold startsWith in Hone. cbn [String.prefix] in Hone.
    destruct (Ascii.ascii_dec "1" c) as [<-|]; [|discriminate].
    cbn [slice]. rewrite strip_us_display.
    assert (Hn : strip_non_digits number = number).
    { apply strip_digits. pose proof (all_digits_strip phoneNumber) as Hd.
      fold cleaned in Hd. rewrite Hc in Hd. cbn [all_digits] in Hd.
      now apply andb_prop in Hd as [_ Hd]. }
    rewrite Hn. cbn [String.length] in Hlen |- *.
    injection Hlen as ->. reflexivity.
  - destruct (Nat.eqb (String.length cleaned) 10) eqn:Hten;
      [|fold cleaned; now rewrite Hten].
    rewrite strip_us_display. unfold cleaned. rewrite strip_strip. fold cleaned.
    apply Nat.eqb_eq in Hten. cbn [String.length]. rewrite Hten. reflexivity.
Qed.

(** X19: the UI's validator and the route disagree on exactly the numbers
    with a leading zero: among the numbers [validatePhoneNumber] accepts,
    the route refuses those whose digits start with 0 and are not ten in
    number, and goes on to dial all others. *)
Theorem validated_number_is_dialed_unless_leading_zero (phoneNumber : string) :
  SMSService.validatePhoneNumber phoneNumber = true ->
  phoneRegex_test (formattedPhone phoneNumber)
  = negb (startsWith "0" (strip_non_digits phoneNumber)
          && negb (Nat.eqb (String.length (strip_non_digits phoneNumber)) 10)).
Proof.
  rewrite regex_formattedPhone. unfold SMSService.validatePhoneNumber, dialable.
  set (cleaned := strip_non_digits phoneNumber).
  destruct (Nat.eqb (String.length cleaned) 10) eqn:Hten; cbn [orb negb].
  - intros _. now rewrite andb_false_r.
  - rewrite andb_true_r.
    destruct (Nat.eqb (String.length cleaned) 11 && startsWith "1" cleaned) eqn:Hus.
    + intros _. apply andb_prop in Hus as [Hlen Hone]. apply Nat.eqb_eq in Hlen.
      rewrite Hlen. cbn [Nat.leb andb].
      destruct cleaned as [|c number]; [discriminate|].
      unfold startsWith in Hone |- *. cbn [String.prefix] in Hone |- *.
      destruct (Ascii.ascii_dec "1" c) as [<-|]; [|discriminate]. reflexivity.
    + destruct (Nat.leb 7 (String.length cleaned) && Nat.leb (String.length cleaned) 15)
        eqn:Hlen; [|discriminate].
      intros _. apply andb_prop in Hlen as [H7 H15]. rewrite H15.
      apply Nat.leb_le in H7.
      assert (H2 : Nat.leb 2 (String.length cleaned) = true) by (apply Nat.leb_le; lia).
      rewrite H2. reflexivity.
Qed.

End PhoneFacts.

Lemma sms_send_dials_e164_only_witness :
  fst (Sms.sms_send Sample6.twilio (Sample6.text_to "(555) 123-4567"))
  = [{| Sms.create_body := JString "Your invoice is ready";
        Sms.create_from := Some "+15005550006";
        Sms.create_to := "+15551234567" |}] /\
  e164_shaped "+15551234567" /\
  Some "+15005550006" = Sms.TWILIO_PHONE_NUMBER Sample6.twilio /\
  prop "message" (Sample6.text_to "(555) 123-4567")
  = Some (JString "Your invoice is ready").
Proof.
  apply (sms_send_dials_e164_only Sample6.twilio (Sample6.text_to "(555) 123-4567")
           {| Sms.create_body := JString "Your invoice is ready";
              Sms.create_from := Some "+15005550006";
              Sms.create_to := "+15551234567" |}).
  vm_compute. left. reflexivity.
Defined.

Lemma sms_send_calls_iff_dialable_witness :
  (fst (Sms.sms_send Sample6.twilio (Sample6.text_to "0000000000")) <> [] <->
   dialable (Sms.strip_non_digits "0000000000") = true) /\
  (dialable (Sms.strip_non_digits "0000000000") = false ->
   fst (snd (Sms.sms_send Sample6.twilio (Sample6.text_to "0000000000"))) = 400).
Proof.
  apply (sms_send_calls_iff_dialable Sample6.twilio (Sample6.text_to "0000000000")
           (fun _ => inr {| Sms.sid := "SM3f1a"; Sms.message_status := "queued" |})
           "0000000000" (JString "Your invoice is ready"));
    reflexivity.
Defined.

Lemma validated_number_is_dialed_unless_leading_zero_witness :
  Sms.phoneRegex_test (Sms.formattedPhone "020 7946 0958")
  = negb (startsWith "0" (Sms.strip_non_digits "020 7946 0958")
          && negb (Nat.eqb (String.length (Sms.strip_non_digits "020 7946 0958")) 10)).
Proof.
  apply (validated_number_is_dialed_unless_leading_zero "020 7946 0958"). reflexivity.
Defined.

(** ** Connecting QuickBooks *)

Section OAuthFacts.
Variable E : Env.
Variable FRONTEND_ORIGIN : string.

Notation "'callback'" := (BackendOAuth.oauth_qbo_callback E FRONTEND_ORIGIN).

Lemma lookup_upsert_unique stamp arg table :
  unique_keys table ->
  lookup_tokens (u_userId arg) (u_provider arg) (upsert_rows stamp arg table)
  = Some (tokens_of arg).
Proof.
  intros Hu. unfold lookup_tokens.
  destruct (select_upsert stamp arg table Hu) as [row ->]. reflexivity.
Qed.

Lemma append_inj (p a b : string) : p +:+ a = p +:+ b -> a = b.
Proof.
  induction p as [|c p IH]; [auto|]. rewrite !append_cons. intros [= H]. auto.
Qed.

(** How a callback with a code runs. *)
Lemma callback_run (code : string) (query_realmId : option string) (w : World) :
  code <> "" ->
  let resp := exchange_reply E code w in
  let realmId := if truthy_str query_realmId then query_realmId else None in
  let w1 := {| table := table w; log := log w ++ [PostTokenEndpoint code resp] |} in
  callback (Some code) query_realmId w
  = if negb (status_ok (status resp)) then (inr (BackendOAuth.qbo_error FRONTEND_ORIGIN), w1)
    else match parse_token_data E (text resp) with
         | None => (inr (BackendOAuth.qbo_error FRONTEND_ORIGIN), w1)
         | Some data =>
           let arg := BackendOAuth.stored (exchanged_at E code w) realmId data in
           (inr (BackendOAuth.qbo_connected FRONTEND_ORIGIN),
            {| table := upsert_rows (db_stamp E (log w1)) arg (table w);
               log := log w1 ++ [DbUpsert arg] |})
         end.
Proof.
  intros Hne. cbn zeta. unfold BackendOAuth.oauth_qbo_callback, or_else.
  cbn [truthy_str]. apply String.eqb_neq in Hne. rewrite Hne. cbn [negb].
  change (default "" (Some code)) with code.
  rewrite Hne. unfold bind at 1. unfold history at 1.
  unfold bind at 1. unfold emit at 1. fold (exchange_reply E code w).
  destruct (negb (status_ok _)); [reflexivity|].
  destruct (parse_token_data E _) as [data|]; [|reflexivity].
  reflexivity.
Qed.

(** X20: a callback with a code, answered 2xx by the token endpoint with
    parseable JSON, redirects to "?qbo=connected" and leaves user 1
    connected: [isQboConnected(1)] right after it is true exactly while the
    clock is before exchange time plus [expires_in] (always, when
    [expires_in] is absent or 0), provided an access token came back. Every
    other credential reads as before. *)
Theorem oauth_callback_connects_user1 (code : string) (query_realmId : option string)
    (w : World) (data : TokenData) :
  unique_keys (table w) ->
  code <> "" ->
  status_ok (status (exchange_reply E code w)) = true ->
  parse_token_data E (text (exchange_reply E code w)) = Some data ->
  d_access_token data <> "" ->
  let out := callback (Some code) query_realmId w in
  let now := clock E (log (snd out) ++ [DbGet "1" "quickbooks"]) in
  fst out = inr (BackendOAuth.qbo_connected FRONTEND_ORIGIN) /\
  fst (Backend.isQboConnected E (JsNum 1) (snd out))
  = inr (unexpired (expiry_computed (exchanged_at E code w) (d_expires_in data)) now) /\
  others_untouched "1" "quickbooks" w (snd out).
Proof.
  intros Hu Hne Hok Hdata Hat. cbn zeta.
  rewrite (callback_run code query_realmId w Hne). cbn zeta.
  rewrite Hok, Hdata. cbn [negb fst snd]. split; [reflexivity|]. split.
  - unfold Backend.isQboConnected. unfold bind at 1. rewrite getTokens_run, String_1.
    cbn [table log].
    set (arg := BackendOAuth.stored _ _ data).
    change "1"%string with (u_userId arg) at 1.
    change "quickbooks"%string with (u_provider arg) at 1.
    rewrite (lookup_upsert_unique _ arg (table w) Hu).
    unfold bind, history, ret. cbn [fst snd log tokens_of t_access_token t_expires_at].
    subst arg. cbn [BackendOAuth.stored u_access_token u_expires_at].
    apply String.eqb_neq in Hat. rewrite Hat. unfold unexpired, expiry_computed.
    destruct (d_expires_in data) as [n|]; [|reflexivity].
    destruct (n =? 0); [reflexivity|].
    destruct (_ + n =? 0) eqn:Hz; cbn [negb andb orb]; [reflexivity|].
    rewrite Z.ltb_antisym. now destruct (_ <=? _).
  - intros uid' prov' Hne'. cbn [table]. unfold lookup_tokens.
    now rewrite select_upsert_other.
Qed.

(** X21: the callback never throws and answers with one of two redirects.
    It writes the store only on the way to "?qbo=connected", and then one
    record, for user "1" and provider "quickbooks", after a single call to
    the token endpoint; on "?qbo=error" the store is what it was, and
    without a code the token endpoint is not called at all. *)
Theorem oauth_callback_outcomes (query_code query_realmId : option string) (w : World) :
  let out := callback query_code query_realmId w in
  let did := performed w (snd out) in
  (fst out = inr (BackendOAuth.qbo_connected FRONTEND_ORIGIN) /\
   exists code resp arg,
     query_code = Some code /\ did = [PostTokenEndpoint code resp; DbUpsert arg] /\
     status_ok (status resp) = true /\
     u_userId arg = "1" /\ u_provider arg = "quickbooks") \/
  (fst out = inr (BackendOAuth.qbo_error FRONTEND_ORIGIN) /\
   table (snd out) = table w /\
   count is_upsert did = 0%nat /\
   (truthy_str query_code = false -> did = [])).
Proof.
  cbn zeta. destruct (truthy_str query_code) eqn:Hq.
  - destruct query_code as [code|]; [|discriminate]. cbn [truthy_str] in Hq.
    apply negb_true_iff, String.eqb_neq in Hq.
    rewrite (callback_run code query_realmId w Hq). cbn zeta.
    destruct (status_ok _) eqn:Hok; cbn [negb].
    + destruct (parse_token_data E _) as [data|].
      * left. cbn [fst snd]. split; [reflexivity|].
        eexists code, _, _. split; [reflexivity|]. split.
        -- unfold performed. cbn [log]. rewrite <- app_assoc. apply drop_app_length.
        -- split; [exact Hok|]. split; [apply String_1|reflexivity].
      * right. cbn [fst snd table]. split; [reflexivity|]. split; [reflexivity|].
        split; [|discriminate]. unfold performed. cbn [log]. now rewrite drop_app_length.
    + right. cbn [fst snd table]. split; [reflexivity|]. split; [reflexivity|].
      split; [|discriminate]. unfold performed. cbn [log]. now rewrite drop_app_length.
  - right. unfold BackendOAuth.oauth_qbo_callback, or_else. rewrite Hq.
    cbn [String.eqb]. unfold ret. cbn [fst snd]. rewrite performed_none. auto.
Qed.

End OAuthFacts.

Lemma oauth_callback_connects_user1_witness :
  let out := BackendOAuth.oauth_qbo_callback Sample7.ticking Sample7.origin
               (Some "AB11-code") (Some "9130") Sample.two_tenants in
  let now := clock Sample7.ticking (log (snd out) ++ [DbGet "1" "quickbooks"]) in
  fst out = inr (BackendOAuth.qbo_connected Sample7.origin) /\
  fst (Backend.isQboConnected Sample7.ticking (JsNum 1) (snd out))
  = inr (unexpired (expiry_computed (exchanged_at Sample7.ticking "AB11-code"
                                       Sample.two_tenants)
                      (d_expires_in Sample.rotated)) now) /\
  others_untouched "1" "quickbooks" Sample.two_tenants (snd out).
Proof.
  apply (oauth_callback_connects_user1 Sample7.ticking Sample7.origin "AB11-code"
           (Some "9130") Sample.two_tenants Sample.rotated).
  - unfold unique_keys. apply (bool_decide_unpack _). vm_compute. reflexivity.
  - discriminate.
  - reflexivity.
  - reflexivity.
  - discriminate.
Defined.

(** ** The Housecall Pro client *)

Section HousecallFacts.
Variable E : Env.
Variable HP_API_KEY : string.
Variable encode : string -> string.

Notation "'hpRequest''" := (HousecallProApi.hpRequest E HP_API_KEY encode).

(** How a call under a context runs. *)
Lemma hpRequest_run (c : Ctx) (endpoint : string) (opts : HousecallProApi.HpOpts)
    (w : World) :
  exists call resp r,
    hpRequest' (Some c) endpoint opts w
    = (r, {| table := table w; log := log w ++ [FetchApi call resp] |}) /\
    bearer call = HP_API_KEY /\
    url call = HousecallProApi.request_url encode endpoint opts /\
    (status_ok (status resp) = false ->
     r = inl (Error ("Housecall Pro API error: " +:+ pretty (status resp)
                     +:+ " " +:+ text resp))).
Proof.
  unfold HousecallProApi.hpRequest.
  unfold bind at 1. unfold history at 1. unfold bind at 1. unfold emit at 1.
  cbn [log table].
  match goal with
  | |- context [FetchApi ?call ?resp] => exists call, resp
  end.
  destruct (status_ok _) eqn:Hok; cbn [negb].
  - destruct (String.eqb _ ""); [|destruct (JSON_parse E _)];
      eexists; (split; [reflexivity|]); repeat split; discriminate.
  - eexists. split; [reflexivity|]. repeat split.
Qed.

(** X22: with a context bound, [hpRequest] makes exactly one upstream
    request, bearing the server-wide API key, and touches no stored
    credential; a reply outside 2xx makes it throw "Housecall Pro API
    error: <status> <text>" with no second attempt. Which user the context
    names makes no difference to the request or the result. Without a
    context it throws before any request. *)
Theorem hpRequest_one_request_with_shared_key (c : Ctx) (endpoint : string)
    (opts : HousecallProApi.HpOpts) (w : World) :
  let out := hpRequest' (Some c) endpoint opts w in
  (exists call resp,
     performed w (snd out) = [FetchApi call resp] /\
     bearer call = HP_API_KEY /\
     url call = HousecallProApi.request_url encode endpoint opts /\
     (status_ok (status resp) = false ->
      fst out = inl (Error ("Housecall Pro API error: " +:+ pretty (status resp)
                            +:+ " " +:+ text resp)))) /\
  table (snd out) = table w /\
  (forall c', hpRequest' (Some c') endpoint opts w = out) /\
  hpRequest' None endpoint opts w = (inl (Error "Missing request context"), w).
Proof.
  cbn zeta.
  destruct (hpRequest_run c endpoint opts w) as (call & resp & r & Hrun & Hb & Hu & Hr).
  rewrite Hrun. cbn [fst snd table]. split; [|split; [|split]]; try reflexivity.
  - exists call, resp. split; [unfold performed; cbn [log]; apply drop_app_length|auto].
  - intros c'. exact Hrun.
Qed.

End HousecallFacts.

Section HousecallUrl.
Variable encode : string -> string.

Lemma toString_nil_iff (pairs : list (string * string)) :
  HousecallProApi.toString encode pairs = "" <-> pairs = [].
Proof.
  split; [|now intros ->].
  destruct pairs as [|kv [|kv' rest]]; [reflexivity| |]; cbn [HousecallProApi.toString];
    destruct (encode (fst kv)); rewrite ?append_cons; discriminate.
Qed.

Lemma query_pairs_nil_iff (params : list (string * HousecallProApi.ParamValue)) :
  HousecallProApi.query_pairs params = [] <-> ~ carries_value params.
Proof.
  unfold carries_value. induction params as [|[k v] params IH].
  - split; [intros _ (k & v & [] & _)|reflexivity].
  - cbn [HousecallProApi.query_pairs flat_map fst snd].
    fold (HousecallProApi.query_pairs params). split.
    + intros Hnil%app_eq_nil. destruct Hnil as [Hv Hrest].
      intros (k' & v' & [[= <- <-]|Hin] & Hval).
      * destruct v as [[|x items]| |]; try discriminate; auto.
      * apply IH in Hrest. apply Hrest. eauto.
    + intros Hno.
      assert (Hrest : HousecallProApi.query_pairs params = []).
      { apply IH. intros (k' & v' & Hin & Hval). apply Hno. exists k', v'. split; auto.
        now right. }
      rewrite Hrest, app_nil_r.
      destruct v as [[|x items]| |]; try reflexivity; exfalso; apply Hno;
        eexists k, _; (split; [left; reflexivity|]); cbn; auto; discriminate.
Qed.

(** X23: the URL [hpRequest] asks for is the API host followed by the
    endpoint, and nothing more exactly when no parameter carries a value:
    null and undefined parameters and empty arrays leave no trace, and a
    query string is appended as soon as one scalar or one array element is
    there. *)
Theorem hpRequest_url_has_query_iff_value (endpoint : string)
    (opts : HousecallProApi.HpOpts) (params : list (string * HousecallProApi.ParamValue)) :
  HousecallProApi.o_params opts = Some params ->
  (~ carries_value params ->
   HousecallProApi.request_url encode endpoint opts
   = "https://api.housecallpro.com" +:+ endpoint) /\
  (carries_value params ->
   HousecallProApi.request_url encode endpoint opts
   = "https://api.housecallpro.com" +:+ endpoint +:+ "?"
     +:+ HousecallProApi.toString encode (HousecallProApi.query_pairs params) /\
   HousecallProApi.toString encode (HousecallProApi.query_pairs params) <> "").
Proof.
  intros Hp. unfold HousecallProApi.request_url. rewrite Hp. split.
  - intros Hno%query_pairs_nil_iff. rewrite Hno. reflexivity.
  - intros Hyes.
    assert (Hne : HousecallProApi.toString encode (HousecallProApi.query_pairs params) <> "").
    { rewrite toString_nil_iff, query_pairs_nil_iff. tauto. }
    split; [|exact Hne]. apply String.eqb_neq in Hne. now rewrite Hne.
Qed.

End HousecallUrl.

Lemma hpRequest_url_has_query_iff_value_witness :
  (~ carries_value [("q", HousecallProApi.PNullish);
                    ("page", HousecallProApi.PScalar "1");
                    ("location_ids", HousecallProApi.PArray ["loc_1"; "loc_2"])] ->
   HousecallProApi.request_url (fun s => s) "/customers" Sample8.listing
   = "https://api.housecallpro.com" +:+ "/customers") /\
  (carries_value [("q", HousecallProApi.PNullish);
                  ("page", HousecallProApi.PScalar "1");
                  ("location_ids", HousecallProApi.PArray ["loc_1"; "loc_2"])] ->
   HousecallProApi.request_url (fun s => s) "/customers" Sample8.listing
   = "https://api.housecallpro.com" +:+ "/customers" +:+ "?"
     +:+ "page=1&location_ids[]=loc_1&location_ids[]=loc_2" /\
   "page=1&location_ids[]=loc_1&location_ids[]=loc_2" <> "").
Proof.
  apply (hpRequest_url_has_query_iff_value (fun s => s) "/customers" Sample8.listing
           [("q", HousecallProApi.PNullish);
            ("page", HousecallProApi.PScalar "1");
            ("location_ids", HousecallProApi.PArray ["loc_1"; "loc_2"])]).
  reflexivity.
Defined.

(** ** The customer tools *)

Section ToolFacts.
Variable E : Env.
Variable QB_API_BASE : string.
Variable MINOR_VERSION : Z.
Variable isAuthError : Z -> string -> bool.

Notation "'request'" := (QbClient.qbRequest E QB_API_BASE MINOR_VERSION isAuthError).

Lemma calls_with_app (m : string) (l k : list Effect) :
  calls_with m (l ++ k) = calls_with m l ++ calls_with m k.
Proof. unfold calls_with. apply flat_map_app. Qed.

(** The requests of a run, filtered by a method other than its own. *)
Lemma calls_with_other (m : string) (opts : QbClient.QbOpts) (l : list Effect) :
  default "GET" (QbClient.o_method opts) <> m ->
  Forall (fun e => match e with
                   | FetchApi call _ => call = sent_call (url call) opts (bearer call)
                   | _ => True
                   end) l ->
  calls_with m l = [].
Proof.
  intros Hne Hall. induction Hall as [|e l He Hall IH]; [reflexivity|].
  cbn [calls_with flat_map]. fold (calls_with m l). rewrite IH, app_nil_r.
  destruct e as [| | |call resp]; try reflexivity.
  rewrite He. cbn [method sent_call]. apply String.eqb_neq in Hne. now rewrite Hne.
Qed.

Lemma calls_with_body (m : string) (opts : QbClient.QbOpts) (l : list Effect)
    (call : ApiCall) :
  Forall (fun e => match e with
                   | FetchApi call _ => call = sent_call (url call) opts (bearer call)
                   | _ => True
                   end) l ->
  In call (calls_with m l) ->
  sent_body call = sent_body (sent_call "" opts "").
Proof.
  intros Hall. induction Hall as [|e l He Hall IH]; [intros []|].
  cbn [calls_with flat_map]. fold (calls_with m l). intros [Hin|Hin]%in_app_or; [|auto].
  destruct e as [| | |call' resp]; try contradiction.
  destruct (String.eqb _ m); [|contradiction]. destruct Hin as [<-|[]].
  rewrite He. reflexivity.
Qed.

(** What a fetch-then-post tool does, for the body it builds from the
    fetched [Id] and [SyncToken]. *)
Lemma read_then_post (c : Ctx) (customerId : string) (body : Json -> Json -> Json)
    (w : World) (call : ApiCall) :
  (forall Id SyncToken, truthy_json (body Id SyncToken) = true) ->
  let tool :=
    (existing <- QuickBooksTools.getCustomerRaw E QB_API_BASE MINOR_VERSION isAuthError
                   (Some c) customerId ;;
     match QuickBooksTools.id_and_token existing with
     | None => throw (Error "Could not fetch existing customer or SyncToken.")
     | Some (Id, SyncToken) =>
       data <- request (Some c) "customer?operation=update"
                 (QuickBooksTools.post_opts (body Id SyncToken)) ;;
       ret (prop_or_self "Customer" data)
     end)%async in
  In call (calls_with "POST" (performed w (snd (tool w)))) ->
  exists data Id SyncToken,
    fst (request (Some c) ("customer/" +:+ customerId) QuickBooksTools.get_opts w)
    = inr data /\
    fetched data Id SyncToken /\
    sent_body call = Some (body Id SyncToken).
Proof.
  intros Htruthy. cbn zeta. unfold QuickBooksTools.getCustomerRaw, QuickBooksTools.qbRequest.
  assert (Hget : default "GET" (QbClient.o_method QuickBooksTools.get_opts) <> "POST")
    by (vm_compute; discriminate).
  unfold bind at 1 2.
  destruct (qbRequest_appends E QB_API_BASE MINOR_VERSION isAuthError (Some c)
              ("customer/" +:+ customerId) QuickBooksTools.get_opts w) as [l1 [Hl1 Hall1]].
  destruct (request (Some c) ("customer/" +:+ customerId) QuickBooksTools.get_opts w)
    as [[e|data] w1] eqn:Hrun1; cbn [snd fst] in Hl1 |- *.
  - unfold performed. rewrite Hl1, drop_app_length.
    rewrite (calls_with_other "POST" _ l1 Hget Hall1). intros [].
  - unfold ret at 1.
    destruct (QuickBooksTools.id_and_token (prop "Customer" data)) as [[Id SyncToken]|]
      eqn:Hid.
    + unfold bind at 1.
      destruct (qbRequest_appends E QB_API_BASE MINOR_VERSION isAuthError (Some c)
                  "customer?operation=update"
                  (QuickBooksTools.post_opts (body Id SyncToken)) w1) as [l2 [Hl2 Hall2]].
      assert (Hdid : forall (r : Exn + Json) w2,
                 log w2 = log w1 ++ l2 -> performed w w2 = l1 ++ l2).
      { intros r w2 Hw2. unfold performed. rewrite Hw2, Hl1, <- app_assoc.
        apply drop_app_length. }
      destruct (request (Some c) "customer?operation=update" _ w1) as [[e|d] w2];
        cbn [snd] in Hl2 |- *; unfold ret; cbn [snd];
        rewrite (Hdid (inl (Error "")) w2 Hl2), calls_with_app,
          (calls_with_other "POST" _ l1 Hget Hall1);
        cbn [app]; intros Hin;
        apply (calls_with_body "POST" _ l2 call Hall2) in Hin;
        exists data, Id, SyncToken; (split; [reflexivity|]);
        (split; [|rewrite Hin; cbn [sent_call sent_body QuickBooksTools.post_opts
                                     QbClient.o_body]; now rewrite Htruthy]);
        unfold QuickBooksTools.id_and_token in Hid; unfold fetched;
        destruct (prop "Customer" data) as [existing|]; try discriminate;
        exists existing;
        destruct (prop "Id" existing) as [Id'|]; try discriminate;
        destruct (prop "SyncToken" existing) as [SyncToken'|]; try discriminate;
        destruct (truthy_json Id') eqn:HId; try discriminate;
        injection Hid as <- <-; auto.
    + unfold throw. cbn [snd]. unfold performed. rewrite Hl1, drop_app_length.
      rewrite (calls_with_other "POST" _ l1 Hget Hall1). intros [].
Qed.

(** X24: [update_customer] and [set_customer_active] post to QuickBooks
    only after their own fetch of the customer returned a record with a
    truthy [Id] and a [SyncToken], and every POST they send (the retry after
    a token refresh included) carries exactly that [Id] and [SyncToken],
    followed by the sparse flag and the mapped fields. *)
Theorem customer_writes_carry_fetched_sync_token (c : Ctx) (customerId : string)
    (sparse active : bool) (patch : Json) (w : World) (call : ApiCall) :
  let fetch := request (Some c) ("customer/" +:+ customerId) QuickBooksTools.get_opts w in
  let update := QuickBooksTools.update_customer E QB_API_BASE MINOR_VERSION isAuthError
                  (Some c) customerId sparse patch w in
  let toggle := QuickBooksTools.set_customer_active E QB_API_BASE MINOR_VERSION isAuthError
                  (Some c) customerId active w in
  (In call (calls_with "POST" (performed w (snd update))) ->
   exists data Id SyncToken,
     fst fetch = inr data /\ fetched data Id SyncToken /\
     sent_body call = Some (QuickBooksTools.update_body Id SyncToken sparse patch)) /\
  (In call (calls_with "POST" (performed w (snd toggle))) ->
   exists data Id SyncToken,
     fst fetch = inr data /\ fetched data Id SyncToken /\
     sent_body call = Some (QuickBooksTools.active_body Id SyncToken active)).
Proof.
  split.
  - apply (read_then_post c customerId
             (fun Id SyncToken => QuickBooksTools.update_body Id SyncToken sparse patch)).
    reflexivity.
  - apply (read_then_post c customerId
             (fun Id SyncToken => QuickBooksTools.active_body Id SyncToken active)).
    reflexivity.
Qed.

End ToolFacts.

Section ToolFacts2.






End ToolFacts2.

Lemma customer_writes_carry_fetched_sync_token_witness :
  exists data Id SyncToken,
    fst (QbClient.qbRequest Sample9.books Sample4.base 75 QuickBooksNum.isAuthError
           (Some Sample.user1) ("customer/" +:+ "42") QuickBooksTools.get_opts
           Sample.connected_world) = inr data /\
    fetched data Id SyncToken /\
    sent_body Sample9.update_call
    = Some (QuickBooksTools.update_body Id SyncToken true Sample9.patch).
Proof.
  apply (proj1 (customer_writes_carry_fetched_sync_token Sample9.books Sample4.base 75
                  QuickBooksNum.isAuthError Sample.user1 "42" true false Sample9.patch
                  Sample.connected_world Sample9.update_call)).
  vm_compute. left. reflexivity.
Defined.


(** ** The Gmail service before and after connecting *)

Section GmailMore.
Variable G : Gmail.GmailEnv.


(** [get_all] asks for every item, once. *)
Lemma get_all_calls format items st :
  exists l, Gmail.calls (snd (Gmail.get_all G format items st)) = Gmail.calls st ++ l /\
            length l = length items.
Proof.
  revert st. induction items as [|item items IH]; intros st; cbn [Gmail.get_all].
  - exists []. cbn. now rewrite app_nil_r.
  - unfold Gmail.api_call at 1.
    match goal with
    | |- context [Gmail.get_all G format items ?st1] =>
        destruct (IH st1) as [l [Hl Hlen]];
        destruct (Gmail.get_all G format items st1) as [rs st2]
    end.
    cbn [snd Gmail.calls] in Hl |- *. rewrite Hl, <- app_assoc.
    eexists. split; [reflexivity|]. cbn [app length]. now rewrite Hlen.
Qed.

(** X27: [/gmail/messages] makes at most eleven Gmail API calls per
    request: the list call and the full fetch of no more than ten of the
    listed messages, whatever [maxResults] asked for and however many ids
    the list call returned. *)
Theorem gmail_messages_fetches_at_most_ten (req : Gmail.GRequest) (st : Gmail.State) :
  (length (new_calls st (fst (Gmail.serve G Gmail.Messages req st))) <= 11)%nat.
Proof.
  unfold Gmail.serve. cbn [Gmail.route]. unfold Gmail.gmail_messages, Gmail.with_tokens.
  assert (Hzero : (length (new_calls st st) <= 11)%nat).
  { unfold new_calls. rewrite drop_all. cbn. lia. }
  destruct (Gmail.userTokens st !! "user1") as [tokens|]; [|exact Hzero].
  destruct (truthy_json tokens); [|exact Hzero].
  unfold Gmail.api_call at 1. cbn [Gmail.setCredentials Gmail.client_credentials
    Gmail.userTokens Gmail.calls].
  assert (Hone : forall ut cc c,
             (length (new_calls st {| Gmail.userTokens := ut; Gmail.client_credentials := cc;
                                      Gmail.calls := Gmail.calls st ++ [c] |}) <= 11)%nat).
  { intros. unfold new_calls. cbn [Gmail.calls]. rewrite drop_app_length. cbn. lia. }
  destruct (Gmail.gmail G _ _) as [details|data]; [apply Hone|].
  destruct (prop "messages" data) as [[| | | |items|]|]; cbn [truthy_json fst];
    try apply Hone; try (destruct (_ : bool); apply Hone).
  match goal with
  | |- context [Gmail.get_all G "full" (firstn 10 items) ?st1] =>
      destruct (get_all_calls "full" (firstn 10 items) st1) as [l [Hl Hlen]];
      destruct (Gmail.get_all G "full" (firstn 10 items) st1) as [[details|details] st2]
  end; cbn [snd fst Gmail.calls] in Hl |- *; unfold new_calls; rewrite Hl, <- app_assoc,
    drop_app_length; cbn [app length]; rewrite Hlen, length_firstn; lia.
Qed.

Lemma grows_refl cred st : grows cred st st.
Proof. split; [reflexivity|]. exists []. split; [now rewrite app_nil_r|constructor]. Qed.

Lemma grows_trans cred st1 st2 st3 :
  grows cred st1 st2 -> grows cred st2 st3 -> grows cred st1 st3.
Proof.
  intros (Hu1 & l1 & Hl1 & Hf1) (Hu2 & l2 & Hl2 & Hf2). split; [congruence|].
  exists (l1 ++ l2). split; [rewrite Hl2, Hl1; now rewrite app_assoc|].
  apply Forall_app. auto.
Qed.

(** What [with_tokens] leaves behind, when its continuation only adds
    calls made with the client's credentials. *)
Lemma with_tokens_grows res st k :
  (forall st1,
      Gmail.client_credentials st1 = Gmail.userTokens st !! "user1" ->
      Gmail.calls st1 = Gmail.calls st ->
      extends (Gmail.userTokens st !! "user1") st1 (fst (k st1))) ->
  grows (Gmail.userTokens st !! "user1") st (fst (Gmail.with_tokens res st k)).
Proof.
  intros Hk. unfold Gmail.with_tokens.
  destruct (Gmail.userTokens st !! "user1") as [tokens|] eqn:Hu;
    [destruct (truthy_json tokens)|]; cbn [fst]; try apply grows_refl.
  specialize (Hk (Gmail.setCredentials tokens st) eq_refl eq_refl).
  destruct Hk as (Hut & _ & l & Hl & Hf). split; [exact Hut|]. exists l. auto.
Qed.

(** Every route keeps the stored tokens and adds only calls made with
    what is stored under "user1". *)
Lemma serve_grows (ep : Gmail.Endpoint) (req : Gmail.GRequest) (st : Gmail.State) :
  grows (Gmail.userTokens st !! "user1") st (fst (Gmail.serve G ep req st)).
Proof.
  unfold Gmail.serve. destruct ep; cbn [Gmail.route].
  - unfold Gmail.gmail_send.
    destruct (Gmail.destructure _ _) as [details|payload]; [apply grows_refl|].
    destruct (negb _); [apply grows_refl|].
    apply with_tokens_grows. intros st1 Hc _.
    destruct (Gmail.api_call G _ st1) as [[details|data] st2] eqn:H1;
      cbn [fst]; apply api_call_extends in H1; now rewrite Hc in H1.
  - unfold Gmail.gmail_messages. apply with_tokens_grows. intros st1 Hc _.
    exact (listing_calls G "full" (firstn 10) _ _ _ _ _ st1 _ Hc).
  - unfold Gmail.gmail_search. destruct (negb _); [apply grows_refl|].
    apply with_tokens_grows. intros st1 Hc _.
    exact (listing_calls G "metadata" (fun l => l) _ _ _ _ _ st1 _ Hc).
  - unfold Gmail.gmail_mark.
    destruct (Gmail.destructure _ _) as [details|payload]; [apply grows_refl|].
    apply with_tokens_grows. intros st1 Hc _.
    destruct (prop "action" payload) as [[| | |a| |]|];
      try (cbn [fst]; apply extends_refl).
    destruct (String.eqb a "read"); [|destruct (String.eqb a "unread")];
      try (cbn [fst]; apply extends_refl);
      destruct (Gmail.api_call G _ st1) as [[details|data] st2] eqn:H1;
      cbn [fst]; apply api_call_extends in H1; now rewrite Hc in H1.
  - unfold Gmail.gmail_labels. apply with_tokens_grows. intros st1 Hc _.
    destruct (Gmail.api_call G _ st1) as [[details|data] st2] eqn:H1;
      cbn [fst]; apply api_call_extends in H1; now rewrite Hc in H1.
Qed.

Lemma serve_all_grows (reqs : list (Gmail.Endpoint * Gmail.GRequest)) (st : Gmail.State) :
  grows (Gmail.userTokens st !! "user1") st (serve_all G reqs st).
Proof.
  revert st. induction reqs as [|[ep req] reqs IH]; intros st; [apply grows_refl|].
  cbn [serve_all fold_left fst snd]. fold (serve_all G reqs (fst (Gmail.serve G ep req st))).
  pose proof (serve_grows ep req st) as H1.
  specialize (IH (fst (Gmail.serve G ep req st))).
  destruct H1 as [Hu H1]. rewrite Hu in IH.
  eapply grows_trans; [split; [exact Hu|exact H1]|exact IH].
Qed.

(** X28: once an OAuth callback has gone through, the tokens it obtained
    stay stored under "user1" and every Gmail API call made for the
    requests that follow, however many, on whatever routes and from
    whatever callers, carries them, whoever completed the callback and
    whatever account was connected before; only another callback replaces
    them. *)
Theorem gmail_connection_serves_all_later_requests (origin : string)
    (connect : Gmail.GRequest) (res : Response) (st : Gmail.State) (code : string)
    (tokens : Json) (reqs : list (Gmail.Endpoint * Gmail.GRequest)) :
  Gmail.lookup_query "code" (Gmail.query connect) = Some code ->
  code <> "" ->
  Gmail.getToken G code = Some tokens ->
  let st1 := fst (Gmail.oauth_gmail_callback G origin connect res st) in
  Gmail.userTokens (serve_all G reqs st1) !! "user1" = Some tokens /\
  Forall (fun c => fst c = Some tokens) (new_calls st1 (serve_all G reqs st1)).
Proof.
  intros Hq Hne Hg. cbn zeta.
  pose proof (oauth_callback_stores_user1 G origin connect res st code tokens Hq Hne Hg)
    as Hstored.
  destruct (serve_all_grows reqs (fst (Gmail.oauth_gmail_callback G origin connect res st)))
    as (Hu & l & Hl & Hf).
  rewrite Hstored in Hf. split; [now rewrite Hu|].
  unfold new_calls. now rewrite Hl, drop_app_length.
Qed.

End GmailMore.


Lemma gmail_connection_serves_all_later_requests_witness :
  let st1 := fst (Gmail.oauth_gmail_callback Sample10.gmail_by_code Sample7.origin
                    Sample10.callback_of_bob fresh_response Sample.gmail_connected) in
  Gmail.userTokens (serve_all Sample10.gmail_by_code Sample10.later_requests st1) !! "user1"
  = Some (JObject [("access_token", JString "ya29.4/0Ab-code")]) /\
  Forall (fun c => fst c = Some (JObject [("access_token", JString "ya29.4/0Ab-code")]))
         (new_calls st1 (serve_all Sample10.gmail_by_code Sample10.later_requests st1)).
Proof.
  apply (gmail_connection_serves_all_later_requests Sample10.gmail_by_code Sample7.origin
           Sample10.callback_of_bob fresh_response Sample.gmail_connected "4/0Ab-code"
           (JObject [("access_token", JString "ya29.4/0Ab-code")])
           Sample10.later_requests).
  - reflexivity.
  - discriminate.
  - reflexivity.
Defined.
